(** * data-refinery: staged execution engine, checkpoint store and JSON repair layer

    A shallow embedding of the Python sources
    ([agents/layout_agent.py], [agents/structuring_agent.py],
    [regolo_client.py], [state_manager.py], [orchestrator.py],
    [pipeline_runner.py]) together with the properties proved about them.

    Conventions.
    - A Python [str] is a list of characters; a character is an [ascii],
      read as the code point of the same number (0..255).
    - Values that [json.loads] returns are [pyval]s; what else a field of
      the state object can hold before it is written (a tuple, a dict with
      keys that are no strs) is a [Codec.pyobj].
    - Effects (agent invocations, HTTP exchanges, sleeps, checkpoint writes,
      progress events) are recorded in an explicit trace; exceptions are the
      left summand of a result. *)

From Stdlib Require Import List String Ascii ZArith Bool Arith Lia DecimalString.
Import ListNotations.

Set Warnings "-register-all".

(* ===================================================================== *)
(** * Python values and strings *)
(* ===================================================================== *)

Module Py.

Definition str := list ascii.

Definition txt (s : string) : str := list_ascii_of_string s.

Definition dq : ascii := "034"%char.
Definition nl : ascii := "010"%char.
Definition backslash : ascii := "092"%char.

(** Literal texts of the examples: [@] stands for a double quote and [$]
    for a line feed. *)
Definition quoted (s : string) : str :=
  map (fun c => if Ascii.eqb c "@" then dq
                else if Ascii.eqb c "$" then nl else c)
      (list_ascii_of_string s).

(** The values [json.loads] produces.  A float is kept as the decimal
    [m * 10^e] it was read from (Python rounds it to binary64); [NaN] and
    the infinities are the extra constants Python's decoder accepts. *)
Inductive pyval : Type :=
| VNone
| VBool (b : bool)
| VInt (z : Z)
| VFloat (m e : Z)
| VNaN
| VInf (negative : bool)
| VStr (s : string)
| VList (l : list pyval)
| VDict (d : list (string * pyval)).

Definition dict := list (string * pyval).

(** [d.get(k)]: the value under [k], if any. *)
Fixpoint dict_get (d : dict) (k : string) : option pyval :=
  match d with
  | [] => None
  | (k', v) :: d' => if String.eqb k k' then Some v else dict_get d' k
  end.

(** [d[k] = v]: replaces the value in place, or appends a new entry. *)
Fixpoint dict_set (d : dict) (k : string) (v : pyval) : dict :=
  match d with
  | [] => [(k, v)]
  | (k', v') :: d' =>
      if String.eqb k k' then (k', v) :: d' else (k', v') :: dict_set d' k v
  end.

(** A decimal [m * 10^e] that binary64 rounds to zero: [m = 0], or the
    value is at most half the least subnormal, [2^-1075]. *)
Definition float_rounds_to_zero (m e : Z) : bool :=
  (m =? 0)%Z ||
  ((e <? 0)%Z && (Z.abs m * 2 ^ 1075 <=? 10 ^ (- e))%Z).

(** [bool(v)]. *)
Definition truthy (v : pyval) : bool :=
  match v with
  | VNone => false
  | VBool b => b
  | VInt z => negb (z =? 0)%Z
  | VFloat m e => negb (float_rounds_to_zero m e)
  | VNaN => true
  | VInf _ => true
  | VStr s => negb (String.eqb s "")
  | VList l => match l with [] => false | _ => true end
  | VDict d => match d with [] => false | _ => true end
  end.

(** [str.isspace] on the code points below 256. *)
Definition isspace (c : ascii) : bool :=
  let n := nat_of_ascii c in
  ((9 <=? n) && (n <=? 13)) || ((28 <=? n) && (n <=? 32))
  || (n =? 133) || (n =? 160).

Fixpoint lstrip (s : str) : str :=
  match s with
  | c :: s' => if isspace c then lstrip s' else s
  | [] => []
  end.

Definition rstrip (s : str) : str := rev (lstrip (rev s)).

(** [s.strip()]. *)
Definition strip (s : str) : str := rstrip (lstrip s).

Fixpoint startswith (s p : str) : bool :=
  match p, s with
  | [], _ => true
  | a :: p', b :: s' => Ascii.eqb a b && startswith s' p'
  | _ :: _, [] => false
  end.

Definition endswith (s p : str) : bool := startswith (rev s) (rev p).

(** [s[n:]] and [s[:-n]]. *)
Definition drop_front (n : nat) (s : str) : str := skipn n s.
Definition drop_back (n : nat) (s : str) : str := firstn (List.length s - n) s.

End Py.

(* ===================================================================== *)
(** * json.loads *)
(* ===================================================================== *)

Module Json.
Import Py.

Inductive token : Type :=
| TOpenObj | TCloseObj | TOpenArr | TCloseArr | TColon | TComma
| TAtom (v : pyval).

(** Progress through the decoder's number grammar: an optional minus
    sign, then 0 or a non-zero digit followed by digits, then an optional
    fraction (a dot and at least one digit), then an optional exponent
    (e or E, an optional sign, at least one digit). *)
Inductive nstate : Type :=
| NMinus | NZero | NInt | NDot | NFrac | NExp | NExpSign | NExpDig.

Record numacc : Type := mkNum
  { n_neg : bool; n_mant : Z; n_frac : Z; n_eneg : bool; n_exp : Z }.

Inductive lstate : Type :=
| LTop
| LStr (acc : str)
| LEsc (acc : str)
| LUni (acc : str) (todo : nat) (code : nat)
| LNum (st : nstate) (a : numacc)
| LLit (expect : str) (v : pyval).

Definition is_json_ws (c : ascii) : bool :=
  let n := nat_of_ascii c in
  (n =? 32) || (n =? 9) || (n =? 10) || (n =? 13).

Definition is_digit (c : ascii) : bool :=
  let n := nat_of_ascii c in (48 <=? n) && (n <=? 57).

Definition digit_val (c : ascii) : Z := Z.of_nat (nat_of_ascii c - 48).

Definition hex_val (c : ascii) : option nat :=
  let n := nat_of_ascii c in
  if (48 <=? n) && (n <=? 57) then Some (n - 48)
  else if (97 <=? n) && (n <=? 102) then Some (n - 87)
  else if (65 <=? n) && (n <=? 70) then Some (n - 55)
  else None.

Definition accepting (st : nstate) : bool :=
  match st with
  | NZero | NInt | NFrac | NExpDig => true
  | _ => false
  end.

Definition signed (neg : bool) (z : Z) : Z := if neg then (- z)%Z else z.

Definition num_value (st : nstate) (a : numacc) : pyval :=
  match st with
  | NZero | NInt => VInt (signed (n_neg a) (n_mant a))
  | _ => VFloat (signed (n_neg a) (n_mant a))
                (signed (n_eneg a) (n_exp a) - n_frac a)
  end.

Definition num0 (neg : bool) (m : Z) : numacc := mkNum neg m 0 false 0.

(** A character met between tokens. *)
Definition lex_top (c : ascii) : option (lstate * list token) :=
  if is_json_ws c then Some (LTop, [])
  else if Ascii.eqb c "{" then Some (LTop, [TOpenObj])
  else if Ascii.eqb c "}" then Some (LTop, [TCloseObj])
  else if Ascii.eqb c "[" then Some (LTop, [TOpenArr])
  else if Ascii.eqb c "]" then Some (LTop, [TCloseArr])
  else if Ascii.eqb c ":" then Some (LTop, [TColon])
  else if Ascii.eqb c "," then Some (LTop, [TComma])
  else if Ascii.eqb c dq then Some (LStr [], [])
  else if Ascii.eqb c "-" then Some (LNum NMinus (num0 true 0), [])
  else if Ascii.eqb c "0" then Some (LNum NZero (num0 false 0), [])
  else if is_digit c then Some (LNum NInt (num0 false (digit_val c)), [])
  else if Ascii.eqb c "n" then Some (LLit (txt "ull") VNone, [])
  else if Ascii.eqb c "t" then Some (LLit (txt "rue") (VBool true), [])
  else if Ascii.eqb c "f" then Some (LLit (txt "alse") (VBool false), [])
  else if Ascii.eqb c "N" then Some (LLit (txt "aN") VNaN, [])
  else if Ascii.eqb c "I" then Some (LLit (txt "nfinity") (VInf false), [])
  else None.

Definition is_e (c : ascii) : bool := Ascii.eqb c "e" || Ascii.eqb c "E".

Definition push_mant (a : numacc) (c : ascii) (frac : bool) : numacc :=
  mkNum (n_neg a) (n_mant a * 10 + digit_val c)
        (if frac then n_frac a + 1 else n_frac a)%Z (n_eneg a) (n_exp a).

Definition push_exp (a : numacc) (c : ascii) : numacc :=
  mkNum (n_neg a) (n_mant a) (n_frac a) (n_eneg a) (n_exp a * 10 + digit_val c).

Definition set_eneg (a : numacc) (b : bool) : numacc :=
  mkNum (n_neg a) (n_mant a) (n_frac a) b (n_exp a).

(** The number ends before [c]: its token is emitted and [c] is read as a
    character between tokens. *)
Definition finish_num (st : nstate) (a : numacc) (c : ascii)
  : option (lstate * list token) :=
  match lex_top c with
  | Some (st', toks) => Some (st', TAtom (num_value st a) :: toks)
  | None => None
  end.

Definition lex_num (st : nstate) (a : numacc) (c : ascii)
  : option (lstate * list token) :=
  match st with
  | NMinus =>
      if Ascii.eqb c "0" then Some (LNum NZero a, [])
      else if is_digit c then Some (LNum NInt (push_mant a c false), [])
      else if Ascii.eqb c "I" then Some (LLit (txt "nfinity") (VInf true), [])
      else None
  | NZero =>
      if Ascii.eqb c "." then Some (LNum NDot a, [])
      else if is_e c then Some (LNum NExp a, [])
      else finish_num st a c
  | NInt =>
      if is_digit c then Some (LNum NInt (push_mant a c false), [])
      else if Ascii.eqb c "." then Some (LNum NDot a, [])
      else if is_e c then Some (LNum NExp a, [])
      else finish_num st a c
  | NDot =>
      if is_digit c then Some (LNum NFrac (push_mant a c true), []) else None
  | NFrac =>
      if is_digit c then Some (LNum NFrac (push_mant a c true), [])
      else if is_e c then Some (LNum NExp a, [])
      else finish_num st a c
  | NExp =>
      if is_digit c then Some (LNum NExpDig (push_exp a c), [])
      else if Ascii.eqb c "+" then Some (LNum NExpSign (set_eneg a false), [])
      else if Ascii.eqb c "-" then Some (LNum NExpSign (set_eneg a true), [])
      else None
  | NExpSign =>
      if is_digit c then Some (LNum NExpDig (push_exp a c), []) else None
  | NExpDig =>
      if is_digit c then Some (LNum NExpDig (push_exp a c), [])
      else finish_num st a c
  end.

(** The character after a backslash. *)
Definition lex_escape (acc : str) (c : ascii) : option (lstate * list token) :=
  if Ascii.eqb c dq || Ascii.eqb c backslash || Ascii.eqb c "/"
  then Some (LStr (c :: acc), [])
  else if Ascii.eqb c "b" then Some (LStr ("008"%char :: acc), [])
  else if Ascii.eqb c "f" then Some (LStr ("012"%char :: acc), [])
  else if Ascii.eqb c "n" then Some (LStr ("010"%char :: acc), [])
  else if Ascii.eqb c "r" then Some (LStr ("013"%char :: acc), [])
  else if Ascii.eqb c "t" then Some (LStr ("009"%char :: acc), [])
  else if Ascii.eqb c "u" then Some (LUni acc 4 0, [])
  else None.

(** One character of the decoder's scan.  Strings are read in strict mode
    (no raw control character); a [\uXXXX] escape above U+00FF has no
    character in this model and is refused. *)
Definition lex_step (st : lstate) (c : ascii) : option (lstate * list token) :=
  match st with
  | LTop => lex_top c
  | LStr acc =>
      if Ascii.eqb c dq
      then Some (LTop, [TAtom (VStr (string_of_list_ascii (rev acc)))])
      else if Ascii.eqb c backslash then Some (LEsc acc, [])
      else if nat_of_ascii c <=? 31 then None
      else Some (LStr (c :: acc), [])
  | LEsc acc => lex_escape acc c
  | LUni acc todo code =>
      match hex_val c with
      | Some h =>
          let code' := code * 16 + h in
          match todo with
          | 0 => None
          | 1 => if code' <=? 255
                 then Some (LStr (ascii_of_nat code' :: acc), []) else None
          | S todo' => Some (LUni acc todo' code', [])
          end
      | None => None
      end
  | LNum ns a => lex_num ns a c
  | LLit expect v =>
      match expect with
      | x :: rest =>
          if Ascii.eqb c x
          then match rest with
               | [] => Some (LTop, [TAtom v])
               | _ => Some (LLit rest v, [])
               end
          else None
      | [] => None
      end
  end.

(** End of input. *)
Definition lex_end (st : lstate) : option (list token) :=
  match st with
  | LTop => Some []
  | LNum ns a => if accepting ns then Some [TAtom (num_value ns a)] else None
  | _ => None
  end.

Fixpoint lex (st : lstate) (s : str) : option (list token) :=
  match s with
  | [] => lex_end st
  | c :: s' =>
      match lex_step st c with
      | Some (st', toks) =>
          match lex st' s' with
          | Some rest => Some (toks ++ rest)
          | None => None
          end
      | None => None
      end
  end.

(** Values, arrays and objects over the token stream; [fuel] bounds the
    nesting and the number of entries, and one unit per token is enough. *)
Fixpoint parse_value (fuel : nat) (ts : list token) : option (pyval * list token) :=
  match fuel with
  | 0 => None
  | S fuel' =>
      match ts with
      | TAtom v :: r => Some (v, r)
      | TOpenArr :: TCloseArr :: r => Some (VList [], r)
      | TOpenArr :: r => parse_elems fuel' r []
      | TOpenObj :: TCloseObj :: r => Some (VDict [], r)
      | TOpenObj :: r => parse_members fuel' r []
      | _ => None
      end
  end
with parse_elems (fuel : nat) (ts : list token) (acc : list pyval)
  : option (pyval * list token) :=
  match fuel with
  | 0 => None
  | S fuel' =>
      match parse_value fuel' ts with
      | Some (v, TComma :: r) => parse_elems fuel' r (v :: acc)
      | Some (v, TCloseArr :: r) => Some (VList (rev (v :: acc)), r)
      | _ => None
      end
  end
with parse_members (fuel : nat) (ts : list token) (acc : dict)
  : option (pyval * list token) :=
  match fuel with
  | 0 => None
  | S fuel' =>
      match ts with
      | TAtom (VStr k) :: TColon :: r =>
          match parse_value fuel' r with
          | Some (v, TComma :: r') => parse_members fuel' r' (dict_set acc k v)
          | Some (v, TCloseObj :: r') => Some (VDict (dict_set acc k v), r')
          | _ => None
          end
      | _ => None
      end
  end.

Definition parse (ts : list token) : option pyval :=
  match parse_value (S (List.length ts)) ts with
  | Some (v, []) => Some v
  | _ => None
  end.

(** [json.loads(s)]: [None] stands for [json.JSONDecodeError]. *)
Definition json_loads (s : str) : option pyval :=
  match lex LTop s with
  | Some ts => parse ts
  | None => None
  end.

(** Characters that end no literal: neither blank nor a backquote. *)
Definition plain (c : ascii) : bool := negb (isspace c) && negb (Ascii.eqb c "`").

(** The literal being read holds plain characters only; true of every
    state the scan reaches. *)
Definition lit_ok (st : lstate) : bool :=
  match st with
  | LLit expect _ => forallb plain expect
  | _ => true
  end.

End Json.

(* ===================================================================== *)
(** * The fragment of Python's [re] used by the repair chain *)
(* ===================================================================== *)

Module Re.
Import Py.

(** One-character classes. *)
Inductive cls : Type :=
| CChar (c : ascii)          (* a literal character *)
| CAny                       (* any character: [\s\S], or . under DOTALL *)
| CDot                       (* . : any character but a line feed *)
| CSpace                     (* \s *)
| COneOf (l : list ascii)    (* [...] *)
| CNoneOf (l : list ascii).  (* [^...] *)

Definition mem (c : ascii) (l : list ascii) : bool := existsb (Ascii.eqb c) l.

Definition cls_match (k : cls) (c : ascii) : bool :=
  match k with
  | CChar a => Ascii.eqb c a
  | CAny => true
  | CDot => negb (Ascii.eqb c nl)
  | CSpace => isspace c
  | COneOf l => mem c l
  | CNoneOf l => negb (mem c l)
  end.

(** A pattern is a sequence of atoms; every repetition in the source's
    patterns is over a single character class. *)
Inductive atom : Type :=
| One (k : cls)
| Star (k : cls)             (* k*  : greedy *)
| LazyStar (k : cls)         (* k*? : lazy *)
| Bol (multiline : bool)     (* ^ *)
| Eol (multiline : bool)     (* $ *)
| Open (g : nat)             (* start of capture group g *)
| Close (g : nat)            (* end of capture group g *)
| Ahead (k : cls).           (* (?=k) *)

Definition regex := list atom.

(** The literal [s] as a pattern. *)
Definition lit (s : string) : regex := map (fun c => One (CChar c)) (txt s).

Definition captures := list (nat * str).

Definition at_bol (multiline : bool) (prev : option ascii) : bool :=
  match prev with
  | None => true
  | Some c => multiline && Ascii.eqb c nl
  end.

Definition at_eol (multiline : bool) (s : str) : bool :=
  match s with
  | [] => true
  | c :: s' => Ascii.eqb c nl && (multiline || match s' with [] => true | _ => false end)
  end.

Definition opened (g : nat) (opens : list (nat * nat)) : nat :=
  match find (fun p => fst p =? g) opens with
  | Some p => snd p
  | None => 0
  end.

(** A match of [pat] at the current position, by backtracking in the
    engine's order.  [prev] is the character before the position, [acc]
    the text matched so far (reversed), [opens] the start offsets of the
    groups entered.  With [must_advance] an empty match is refused. *)
Fixpoint m (pat : regex) (must_advance : bool) (opens : list (nat * nat))
  (caps : captures) (prev : option ascii) (s acc : str) {struct pat}
  : option (str * captures * str) :=
  match pat with
  | [] =>
      match must_advance, acc with
      | true, [] => None
      | _, _ => Some (acc, caps, s)
      end
  | One k :: p =>
      match s with
      | x :: s' =>
          if cls_match k x then m p must_advance opens caps (Some x) s' (x :: acc)
          else None
      | [] => None
      end
  | Star k :: p =>
      (fix star (prev : option ascii) (s acc : str) {struct s} :=
         match s with
         | x :: s' =>
             if cls_match k x
             then match star (Some x) s' (x :: acc) with
                  | Some r => Some r
                  | None => m p must_advance opens caps prev s acc
                  end
             else m p must_advance opens caps prev s acc
         | [] => m p must_advance opens caps prev s acc
         end) prev s acc
  | LazyStar k :: p =>
      (fix lazy (prev : option ascii) (s acc : str) {struct s} :=
         match m p must_advance opens caps prev s acc with
         | Some r => Some r
         | None =>
             match s with
             | x :: s' => if cls_match k x then lazy (Some x) s' (x :: acc) else None
             | [] => None
             end
         end) prev s acc
  | Bol ml :: p =>
      if at_bol ml prev then m p must_advance opens caps prev s acc else None
  | Eol ml :: p =>
      if at_eol ml s then m p must_advance opens caps prev s acc else None
  | Open g :: p =>
      m p must_advance ((g, List.length acc) :: opens) caps prev s acc
  | Close g :: p =>
      let body := rev (firstn (List.length acc - opened g opens) acc) in
      m p must_advance opens ((g, body) :: caps) prev s acc
  | Ahead k :: p =>
      match s with
      | x :: _ => if cls_match k x then m p must_advance opens caps prev s acc else None
      | [] => None
      end
  end.

Definition match_at (pat : regex) (must_advance : bool) (prev : option ascii)
  (s : str) : option (str * captures * str) :=
  m pat must_advance [] [] prev s [].

(** [m.group(g)]. *)
Definition group (g : nat) (caps : captures) : str :=
  match find (fun p => fst p =? g) caps with
  | Some p => snd p
  | None => []
  end.

(** The leftmost match at or after the current position. *)
Fixpoint search_from (pat : regex) (prev : option ascii) (s : str)
  : option captures :=
  match match_at pat false prev s with
  | Some (_, caps, _) => Some caps
  | None =>
      match s with
      | x :: s' => search_from pat (Some x) s'
      | [] => None
      end
  end.

(** [re.search(pat, s)]. *)
Definition search (pat : regex) (s : str) : option captures :=
  search_from pat None s.

(** Replacement templates: literal text and group references. *)
Inductive piece : Type :=
| PLit (s : str)
| PGroup (g : nat).

Definition expand (tmpl : list piece) (caps : captures) : str :=
  flat_map (fun p => match p with PLit s => s | PGroup g => group g caps end) tmpl.

(** The scan of [re.sub]: [skip] counts the characters of the last match
    still to be passed over.  After an empty match the engine asks for a
    non-empty one at the same position before moving on. *)
Fixpoint sub_from (pat : regex) (tmpl : list piece) (prev : option ascii)
  (s : str) (skip : nat) {struct s} : str :=
  match skip, s with
  | S k, x :: s' => sub_from pat tmpl (Some x) s' k
  | S _, [] => []
  | 0, [] =>
      match match_at pat false prev [] with
      | Some (_, caps, _) => expand tmpl caps
      | None => []
      end
  | 0, x :: s' =>
      match match_at pat false prev s with
      | Some (_ :: acc, caps, _) =>
          expand tmpl caps ++ sub_from pat tmpl (Some x) s' (List.length acc)
      | Some ([], caps, _) =>
          expand tmpl caps ++
          match match_at pat true prev s with
          | Some (acc, caps', _) =>
              expand tmpl caps' ++ sub_from pat tmpl (Some x) s' (List.length acc - 1)
          | None => x :: sub_from pat tmpl (Some x) s' 0
          end
      | None => x :: sub_from pat tmpl (Some x) s' 0
      end
  end.

(** [re.sub(pat, tmpl, s)]. *)
Definition sub (pat : regex) (tmpl : list piece) (s : str) : str :=
  sub_from pat tmpl None s 0.

End Re.

(* ===================================================================== *)
(** * agents/layout_agent.py: the repair policy *)
(* ===================================================================== *)

Module Layout.
Import Py Json Re.

Definition closers : cls := COneOf [ "}"%char; "]"%char ].
Definition openers : cls := COneOf [ "{"%char; "["%char ].
Definition sq : ascii := "039"%char.

(** [//.*$] with MULTILINE. *)
Definition line_comment : regex := lit "//" ++ [Star CDot; Eol true].
(** A block comment, lazily, with DOTALL. *)
Definition block_comment : regex := lit "/*" ++ [LazyStar CAny] ++ lit "*/".
(** A comma, blanks, a closing brace or bracket (group 1). *)
Definition trailing_comma : regex :=
  lit "," ++ [Star CSpace; Open 1; One closers; Close 1].
(** An opening brace or bracket (group 1), blanks, a comma. *)
Definition leading_comma : regex :=
  [Open 1; One openers; Close 1; Star CSpace] ++ lit ",".
(** A line feed, blanks, a quoted key, a colon, then a closer ahead. *)
Definition dangling_key : regex :=
  [One (CChar nl); Star CSpace; One (CChar dq); Star (CNoneOf [dq]);
   One (CChar dq); Star CSpace] ++ lit ":" ++ [Star CSpace; Ahead closers].
(** A double-quoted key (group 1), a colon, a double-quoted value whose
    body is group 2. *)
Definition double_quoted_pair : regex :=
  [Open 1; One (CChar dq); Star (CNoneOf [dq]); One (CChar dq); Close 1;
   Star CSpace] ++ lit ":" ++
  [Star CSpace; One (CChar dq); Open 2; Star (CNoneOf [dq]); Close 2;
   Star CSpace; One (CChar dq)].
(** The same with single quotes; group 1 keeps its quotes. *)
Definition single_quoted_pair : regex :=
  [Open 1; One (CChar sq); Star (CNoneOf [sq]); One (CChar sq); Close 1;
   Star CSpace] ++ lit ":" ++
  [Star CSpace; One (CChar sq); Open 2; Star (CNoneOf [sq]); Close 2;
   One (CChar sq)].
Definition fence_json_open : regex :=
  [Bol false; Star CSpace] ++ lit "```json" ++ [Star CSpace].
Definition fence_close : regex :=
  [Star CSpace] ++ lit "```" ++ [Star CSpace; Eol false].
Definition fence_open : regex :=
  [Bol false; Star CSpace] ++ lit "```" ++ [Star CSpace].
(** [(\{[\s\S]*\})]. *)
Definition brace_span : regex :=
  [Open 1] ++ lit "{" ++ [Star CAny] ++ lit "}" ++ [Close 1].

(** The passes of [repair_json], one per [re.sub] line. *)
Definition remove_line_comments := sub line_comment [].
Definition remove_block_comments := sub block_comment [].
Definition remove_trailing_commas := sub trailing_comma [PGroup 1].
Definition remove_leading_commas := sub leading_comma [PGroup 1].
Definition remove_dangling_keys := sub dangling_key [].
Definition requote_double :=
  sub double_quoted_pair [PGroup 1; PLit (txt ": " ++ [dq]); PGroup 2; PLit [dq]].
Definition requote_single :=
  sub single_quoted_pair
      [PLit [dq]; PGroup 1; PLit (dq :: txt ": " ++ [dq]); PGroup 2; PLit [dq]].
Definition strip_fence_json_open := sub fence_json_open [].
Definition strip_fence_close := sub fence_close [].
Definition strip_fence_open := sub fence_open [].

Definition repair_json (text : str) : str :=
  let text := strip text in
  let text := remove_line_comments text in
  let text := remove_block_comments text in
  let text := remove_trailing_commas text in
  let text := remove_leading_commas text in
  let text := remove_dangling_keys text in
  let text := requote_double text in
  let text := requote_single text in
  let text := strip_fence_json_open text in
  let text := strip_fence_close text in
  let text := strip_fence_open text in
  let text := strip_fence_close text in
  strip text.

(** The empty dict the extractor returns when nothing parses. *)
Definition sentinel : pyval := VDict [].

Definition extract_json_from_text (text : str) : pyval :=
  let text := strip text in
  let text := repair_json text in
  match json_loads text with
  | Some v => v
  | None =>
      match search brace_span text with
      | Some caps =>
          match json_loads (group 1 caps) with
          | Some v => v
          | None => sentinel
          end
      | None => sentinel
      end
  end.

(** The order of passes as the specification documents it, for comparison
    with [repair_json]: the fence is stripped first (from both ends), then
    the comments are removed, then the separator, dangling-key and quoting
    repairs run. *)
Definition repair_json_documented_order (text : str) : str :=
  let text := strip text in
  let text := strip_fence_json_open text in
  let text := strip_fence_close text in
  let text := strip_fence_open text in
  let text := strip_fence_close text in
  let text := remove_line_comments text in
  let text := remove_block_comments text in
  let text := remove_trailing_commas text in
  let text := remove_leading_commas text in
  let text := remove_dangling_keys text in
  let text := requote_double text in
  let text := requote_single text in
  strip text.

(** A fenced object followed by a line comment. *)
Definition fenced_then_comment : str := quoted "```json${@a@: 1}$``` // done".

(** A URL as a value, and an object with one string value. *)
Definition url_object : str := quoted "{@url@: @http://x.com@}".

End Layout.

(* ===================================================================== *)
(** * agents/structuring_agent.py: the simple policy *)
(* ===================================================================== *)

Module Structuring.
Import Py Json.

Definition _extract_json (text : str) : str :=
  let text := strip text in
  let text := if startswith text (txt "```json") then drop_front 7 text else text in
  let text := if startswith text (txt "```") then drop_front 3 text else text in
  let text := if endswith text (txt "```") then drop_back 3 text else text in
  strip text.

(** [content = self._extract_json(content); result = json.loads(content)]:
    [None] is the [JSONDecodeError] the caller's handler receives. *)
Definition extract_and_parse (content : str) : option pyval :=
  json_loads (_extract_json content).

End Structuring.

(* ===================================================================== *)
(** * Effects: the trace of a run, exceptions, the external services *)
(* ===================================================================== *)

Module Eff.
Import Py.

(** What a call of [run_<stage>_agent] does: it returns a value or raises. *)
Inductive agent_out : Type :=
| AgentReturn (result : pyval)
| AgentRaise (msg : string).

Inductive event : Type :=
| EvHttp (attempt : nat)                  (* one requests.post exchange *)
| EvSleep (seconds : Z)                   (* time.sleep / asyncio.sleep *)
| EvAgent (name : string) (input : pyval) (out : agent_out)
| EvRetryNotice (seconds : Z)             (* print: Retrying in <n>s... *)
| EvWrite (path : string)                 (* a file written *)
| EvEmit (kind : string) (data : dict).   (* a progress event sent *)

Definition is_sleep (e : event) : bool :=
  match e with EvSleep _ => true | _ => false end.

Definition is_agent_call (name : string) (e : event) : bool :=
  match e with EvAgent n _ _ => String.eqb n name | _ => false end.

Definition MAX_RETRIES : nat := 3.
Definition INITIAL_BACKOFF : Z := 2.

Definition show_Z (z : Z) : string := DecimalString.NilZero.string_of_int (Z.to_int z).
Definition show_nat (n : nat) : string := show_Z (Z.of_nat n).

Definition type_name (v : pyval) : string :=
  match v with
  | VNone => "NoneType"
  | VBool _ => "bool"
  | VInt _ => "int"
  | VFloat _ _ | VNaN | VInf _ => "float"
  | VStr _ => "str"
  | VList _ => "list"
  | VDict _ => "dict"
  end.

Definition no_attribute (v : pyval) (attr : string) : string :=
  ("'" ++ type_name v ++ "' object has no attribute '" ++ attr ++ "'")%string.

(** [x.get(k, default)]: raises AttributeError unless [x] is a dict. *)
Definition py_get (x : pyval) (k : string) (default : pyval) : string + pyval :=
  match x with
  | VDict d => inr (match dict_get d k with Some v => v | None => default end)
  | _ => inl (no_attribute x "get")
  end.

(** [len(x)]. *)
Definition py_len (x : pyval) : string + nat :=
  match x with
  | VStr s => inr (String.length s)
  | VList l => inr (List.length l)
  | VDict d => inr (List.length d)
  | _ => inl ("object of type '" ++ type_name x ++ "' has no len()")%string
  end.

(** [x.append(v)]. *)
Definition py_append (x : pyval) (v : pyval) : string + pyval :=
  match x with
  | VList l => inr (VList (l ++ [v]))
  | _ => inl (no_attribute x "append")
  end.

(** [result.get("success")] read as a condition. *)
Definition success_marker (result : pyval) : bool :=
  match result with
  | VDict d => match dict_get d "success" with Some v => truthy v | None => false end
  | _ => false
  end.

End Eff.

(* ===================================================================== *)
(** * regolo_client.py *)
(* ===================================================================== *)

Module Client.
Import Py Json Eff.

(** What [requests.post] yields: a network-level failure (a
    [requests.exceptions.RequestException]) or a response. *)
Inductive http_reply : Type :=
| ConnectionFailed (msg : string)
| Response (status_code : Z) (content : str).

(** The two handlers of [call_with_retry] tell exceptions apart by class. *)
Inductive exn : Type :=
| RequestException (msg : string)
| PlainException (msg : string).

Definition rate_limit_message : string := "Rate limit exceeded (429). Please wait.".

(** [response.json()] on a body that is not JSON raises requests'
    JSONDecodeError, a RequestException; the decoder's message is not
    modelled. *)
Definition _make_request (reply : http_reply) : exn + pyval :=
  match reply with
  | ConnectionFailed msg => inl (RequestException msg)
  | Response status_code content =>
      if (status_code =? 401)%Z
      then inl (PlainException "API Authentication failed (401). Check your API key.")
      else if (status_code =? 429)%Z
      then inl (PlainException rate_limit_message)
      else if (status_code >=? 400)%Z
      then inl (PlainException
                  ("API error " ++ show_Z status_code ++ ": "
                   ++ string_of_list_ascii (firstn 200 content))%string)
      else match content with
           | [] => inl (PlainException "Empty response from API")
           | _ => match json_loads content with
                  | Some v => inr v
                  | None => inl (RequestException "JSONDecodeError")
                  end
           end
  end.

Definition chat (reply : http_reply) : exn + pyval := _make_request reply.

Section Transport.

(** The service: the reply to the exchange of each attempt. *)
Variable http : nat -> http_reply.

Fixpoint retry_loop (max_retries : Z) (attempts : list nat)
  : (option pyval * option string) * list event :=
  match attempts with
  | [] => ((None, Some "Max retries exceeded"%string), [])
  | attempt :: rest =>
      match chat (http attempt) with
      | inr response => ((Some response, None), [EvHttp attempt])
      | inl (RequestException msg) =>
          if (Z.of_nat attempt <? max_retries - 1)%Z
          then let backoff := (INITIAL_BACKOFF * 2 ^ Z.of_nat attempt)%Z in
               let '(r, evs) := retry_loop max_retries rest in
               (r, EvHttp attempt :: EvSleep backoff :: evs)
          else ((None, Some msg), [EvHttp attempt])
      | inl (PlainException msg) => ((None, Some msg), [EvHttp attempt])
      end
  end.

(** [max_retries or MAX_RETRIES]: [None] and zero give way to the
    default, any other integer is kept, a negative one too. *)
Definition retry_budget (max_retries : option Z) : Z :=
  match max_retries with
  | Some n => if (n =? 0)%Z then Z.of_nat MAX_RETRIES else n
  | None => Z.of_nat MAX_RETRIES
  end.

(** [max_retries = max_retries or MAX_RETRIES], then the loop over
    [range(max_retries)], which has no turn for a negative number. *)
Definition call_with_retry (max_retries : option Z)
  : (option pyval * option string) * list event :=
  let max_retries := retry_budget max_retries in
  retry_loop max_retries (seq 0 (Z.to_nat max_retries)).

End Transport.

(** A service that answers 429 once and then succeeds. *)
Definition limited_once (attempt : nat) : http_reply :=
  match attempt with
  | 0 => Response 429 []
  | _ => Response 200 (txt "{}")
  end.

(** A service whose first exchange fails on the network and whose second
    is rate limited. *)
Definition down_then_limited (attempt : nat) : http_reply :=
  match attempt with
  | 0 => ConnectionFailed "connection reset"
  | _ => Response 429 []
  end.

(** The events of [n] failed attempts that were each followed by a sleep,
    starting at attempt [k]. *)
Definition retried (k n : nat) : list event :=
  flat_map (fun j => [EvHttp j; EvSleep (INITIAL_BACKOFF * 2 ^ Z.of_nat j)])
           (seq k n).

End Client.

(* ===================================================================== *)
(** * state_manager.py *)
(* ===================================================================== *)

Module State.
Import Py Json Eff.

(** The dataclass.  Python does not enforce the annotations, so every
    field holds an arbitrary value. *)
Record PipelineState : Type := mkState
  { source_file : pyval;
    current_agent : pyval;
    checkpoint_file : pyval;
    retry_count : pyval;
    errors : pyval;
    completed_agents : pyval;
    raw_text : pyval;
    structured_v0 : pyval;
    structured_v1 : pyval;
    db_ready : pyval;
    review_report : pyval;
    created_at : pyval;
    updated_at : pyval }.

(** [PipelineState()]: the two timestamps are two readings of the clock. *)
Definition new_state (t_created t_updated : string) : PipelineState :=
  mkState (VStr "") (VStr "init") VNone (VInt 0) (VList []) (VList [])
          (VStr "") (VDict []) (VDict []) (VDict []) (VDict [])
          (VStr t_created) (VStr t_updated).

Definition field_names : list string :=
  [ "source_file"; "current_agent"; "checkpoint_file"; "retry_count";
    "errors"; "completed_agents"; "raw_text"; "structured_v0";
    "structured_v1"; "db_ready"; "review_report"; "created_at";
    "updated_at" ]%string.

Definition is_field (k : string) : bool := existsb (String.eqb k) field_names.

(** [getattr(state, k)] for a field [k]. *)
Definition get_field (st : PipelineState) (k : string) : option pyval :=
  if String.eqb k "source_file" then Some (source_file st)
  else if String.eqb k "current_agent" then Some (current_agent st)
  else if String.eqb k "checkpoint_file" then Some (checkpoint_file st)
  else if String.eqb k "retry_count" then Some (retry_count st)
  else if String.eqb k "errors" then Some (errors st)
  else if String.eqb k "completed_agents" then Some (completed_agents st)
  else if String.eqb k "raw_text" then Some (raw_text st)
  else if String.eqb k "structured_v0" then Some (structured_v0 st)
  else if String.eqb k "structured_v1" then Some (structured_v1 st)
  else if String.eqb k "db_ready" then Some (db_ready st)
  else if String.eqb k "review_report" then Some (review_report st)
  else if String.eqb k "created_at" then Some (created_at st)
  else if String.eqb k "updated_at" then Some (updated_at st)
  else None.

Definition set_source_file (v : pyval) (s : PipelineState) :=
  mkState v (current_agent s) (checkpoint_file s) (retry_count s) (errors s)
    (completed_agents s) (raw_text s) (structured_v0 s) (structured_v1 s)
    (db_ready s) (review_report s) (created_at s) (updated_at s).
Definition set_current_agent (v : pyval) (s : PipelineState) :=
  mkState (source_file s) v (checkpoint_file s) (retry_count s) (errors s)
    (completed_agents s) (raw_text s) (structured_v0 s) (structured_v1 s)
    (db_ready s) (review_report s) (created_at s) (updated_at s).
Definition set_checkpoint_file (v : pyval) (s : PipelineState) :=
  mkState (source_file s) (current_agent s) v (retry_count s) (errors s)
    (completed_agents s) (raw_text s) (structured_v0 s) (structured_v1 s)
    (db_ready s) (review_report s) (created_at s) (updated_at s).
Definition set_retry_count (v : pyval) (s : PipelineState) :=
  mkState (source_file s) (current_agent s) (checkpoint_file s) v (errors s)
    (completed_agents s) (raw_text s) (structured_v0 s) (structured_v1 s)
    (db_ready s) (review_report s) (created_at s) (updated_at s).
Definition set_errors (v : pyval) (s : PipelineState) :=
  mkState (source_file s) (current_agent s) (checkpoint_file s) (retry_count s) v
    (completed_agents s) (raw_text s) (structured_v0 s) (structured_v1 s)
    (db_ready s) (review_report s) (created_at s) (updated_at s).
Definition set_completed_agents (v : pyval) (s : PipelineState) :=
  mkState (source_file s) (current_agent s) (checkpoint_file s) (retry_count s)
    (errors s) v (raw_text s) (structured_v0 s) (structured_v1 s)
    (db_ready s) (review_report s) (created_at s) (updated_at s).
Definition set_raw_text (v : pyval) (s : PipelineState) :=
  mkState (source_file s) (current_agent s) (checkpoint_file s) (retry_count s)
    (errors s) (completed_agents s) v (structured_v0 s) (structured_v1 s)
    (db_ready s) (review_report s) (created_at s) (updated_at s).
Definition set_structured_v0 (v : pyval) (s : PipelineState) :=
  mkState (source_file s) (current_agent s) (checkpoint_file s) (retry_count s)
    (errors s) (completed_agents s) (raw_text s) v (structured_v1 s)
    (db_ready s) (review_report s) (created_at s) (updated_at s).
Definition set_structured_v1 (v : pyval) (s : PipelineState) :=
  mkState (source_file s) (current_agent s) (checkpoint_file s) (retry_count s)
    (errors s) (completed_agents s) (raw_text s) (structured_v0 s) v
    (db_ready s) (review_report s) (created_at s) (updated_at s).
Definition set_db_ready (v : pyval) (s : PipelineState) :=
  mkState (source_file s) (current_agent s) (checkpoint_file s) (retry_count s)
    (errors s) (completed_agents s) (raw_text s) (structured_v0 s)
    (structured_v1 s) v (review_report s) (created_at s) (updated_at s).
Definition set_review_report (v : pyval) (s : PipelineState) :=
  mkState (source_file s) (current_agent s) (checkpoint_file s) (retry_count s)
    (errors s) (completed_agents s) (raw_text s) (structured_v0 s)
    (structured_v1 s) (db_ready s) v (created_at s) (updated_at s).
Definition set_created_at (v : pyval) (s : PipelineState) :=
  mkState (source_file s) (current_agent s) (checkpoint_file s) (retry_count s)
    (errors s) (completed_agents s) (raw_text s) (structured_v0 s)
    (structured_v1 s) (db_ready s) (review_report s) v (updated_at s).
Definition set_updated_at (v : pyval) (s : PipelineState) :=
  mkState (source_file s) (current_agent s) (checkpoint_file s) (retry_count s)
    (errors s) (completed_agents s) (raw_text s) (structured_v0 s)
    (structured_v1 s) (db_ready s) (review_report s) (created_at s) v.

(** [setattr(state, k, v)] for a field [k]. *)
Definition set_field (st : PipelineState) (k : string) (v : pyval) : PipelineState :=
  if String.eqb k "source_file" then set_source_file v st
  else if String.eqb k "current_agent" then set_current_agent v st
  else if String.eqb k "checkpoint_file" then set_checkpoint_file v st
  else if String.eqb k "retry_count" then set_retry_count v st
  else if String.eqb k "errors" then set_errors v st
  else if String.eqb k "completed_agents" then set_completed_agents v st
  else if String.eqb k "raw_text" then set_raw_text v st
  else if String.eqb k "structured_v0" then set_structured_v0 v st
  else if String.eqb k "structured_v1" then set_structured_v1 v st
  else if String.eqb k "db_ready" then set_db_ready v st
  else if String.eqb k "review_report" then set_review_report v st
  else if String.eqb k "created_at" then set_created_at v st
  else if String.eqb k "updated_at" then set_updated_at v st
  else st.

(** [asdict(self)]: the fields in declaration order. *)
Definition to_dict (st : PipelineState) : dict :=
  [ ("source_file", source_file st); ("current_agent", current_agent st);
    ("checkpoint_file", checkpoint_file st); ("retry_count", retry_count st);
    ("errors", errors st); ("completed_agents", completed_agents st);
    ("raw_text", raw_text st); ("structured_v0", structured_v0 st);
    ("structured_v1", structured_v1 st); ("db_ready", db_ready st);
    ("review_report", review_report st); ("created_at", created_at st);
    ("updated_at", updated_at st) ]%string.

(** The attributes a [PipelineState] instance has besides its fields: the
    two methods of the class body, and what the dataclass and [object]
    provide (CPython 3.10; later versions add a few more names of the same
    double-underscore form). [hasattr] is true of all of them. *)
Definition class_attrs : list string :=
  [ "to_dict"; "from_dict";
    "__annotations__"; "__class__"; "__dataclass_fields__";
    "__dataclass_params__"; "__delattr__"; "__dict__"; "__dir__"; "__doc__";
    "__eq__"; "__format__"; "__ge__"; "__getattribute__"; "__gt__";
    "__hash__"; "__init__"; "__init_subclass__"; "__le__"; "__lt__";
    "__match_args__"; "__module__"; "__ne__"; "__new__"; "__reduce__";
    "__reduce_ex__"; "__repr__"; "__setattr__"; "__sizeof__"; "__str__";
    "__subclasshook__"; "__weakref__" ]%string.

Definition is_class_attr (k : string) : bool := existsb (String.eqb k) class_attrs.

Definition hasattr (k : string) : bool := is_field k || is_class_attr k.

(** How a call ends. *)
Inductive outcome (A : Type) : Type :=
| Returned (a : A)
| Raised (exception msg : string)
| InstanceDictReplaced.
Arguments Returned {A} a.
Arguments Raised {A} exception msg.
Arguments InstanceDictReplaced {A}.

(** An instance: its fields, and the instance attributes that shadow
    class attributes. *)
Definition instance : Type := PipelineState * dict.

(** [setattr(state, key, value)] for a key [hasattr] accepts.  A field is
    overwritten.  [__class__] takes only classes and [__dict__] only dicts,
    which no decoded value is, resp. which swaps the whole attribute
    dictionary (an outcome the record cannot show, reported as such);
    [__weakref__] is read-only.  Any other class attribute gets shadowed
    by an instance attribute. *)
Definition setattr (obj : instance) (key : string) (value : pyval)
  : outcome instance :=
  let '(st, shadow) := obj in
  if is_field key then Returned (set_field st key value, shadow)
  else if String.eqb key "__class__"
  then Raised "TypeError"
         ("__class__ must be set to a class, not '" ++ type_name value ++ "' object")
  else if String.eqb key "__dict__"
  then match value with
       | VDict _ => InstanceDictReplaced
       | _ => Raised "TypeError"
                ("__dict__ must be set to a dictionary, not a '" ++ type_name value ++ "'")
       end
  else if String.eqb key "__weakref__"
  then Raised "AttributeError"
         "attribute '__weakref__' of 'PipelineState' objects is not writable"
  else Returned (st, dict_set shadow key value).

Fixpoint from_dict_items (items : dict) (state : instance) : outcome instance :=
  match items with
  | [] => Returned state
  | (key, value) :: rest =>
      if hasattr key
      then match setattr state key value with
           | Returned state' => from_dict_items rest state'
           | other => other
           end
      else from_dict_items rest state
  end.

(** [PipelineState.from_dict(data)]; [t_created], [t_updated] are the clock
    readings taken by [cls()]. *)
Definition from_dict (data : dict) (t_created t_updated : string)
  : outcome instance :=
  from_dict_items data (new_state t_created t_updated, []).

(** Files: a JSON document is kept as the value [json.load] reads from
    it, any other file as its text. *)
Inductive file : Type :=
| JsonFile (doc : pyval)
| TextFile (content : str).

Definition store := list (string * file).

Fixpoint fs_read (fs : store) (path : string) : option file :=
  match fs with
  | [] => None
  | (p, f) :: fs' => if String.eqb path p then Some f else fs_read fs' path
  end.

Fixpoint fs_write (fs : store) (path : string) (f : file) : store :=
  match fs with
  | [] => [(path, f)]
  | (p, f') :: fs' =>
      if String.eqb path p then (p, f) :: fs' else (p, f') :: fs_write fs' path f
  end.

(** [dir / name]. *)
Definition join (dir name : string) : string := (dir ++ "/" ++ name)%string.

Record StateManager : Type := mkManager
  { output_dir : option string;
    checkpoint_dir : option string;
    final_dir : option string }.

(** [StateManager(output_dir)]. *)
Definition new_manager (output_dir : option string) : StateManager :=
  mkManager output_dir
            (option_map (fun d => join d "checkpoints") output_dir)
            (option_map (fun d => join d "final") output_dir).

(** [save_checkpoint(state, filename)] at clock reading [now], for a state
    whose fields hold values as [json.load] returns them (the module
    [Codec] has the other cases): the path written (or [None]), the state
    object afterwards, the files afterwards.  The directories are taken to
    exist, so [open] succeeds. *)
Definition save_checkpoint (self : StateManager) (state : PipelineState)
  (filename : string) (now : string) (fs : store)
  : option string * PipelineState * store :=
  match checkpoint_dir self with
  | None => (None, state, fs)
  | Some dir =>
      let state := set_updated_at (VStr now) state in
      let checkpoint_path := join dir filename in
      (Some checkpoint_path, state,
       fs_write fs checkpoint_path (JsonFile (VDict (to_dict state))))
  end.

(** [save_final(state_or_dict, filename)]. *)
Definition save_final (self : StateManager) (state_or_dict : PipelineState + pyval)
  (filename : string) (fs : store) : option string * store :=
  match final_dir self with
  | None => (None, fs)
  | Some dir =>
      let final_path := join dir filename in
      let data := match state_or_dict with
                  | inl st => VDict (to_dict st)
                  | inr d => d
                  end in
      (Some final_path, fs_write fs final_path (JsonFile data))
  end.

(** [save_markdown_report(content, filename)]. *)
Definition save_markdown_report (self : StateManager) (content : str)
  (filename : string) (fs : store) : option string * store :=
  match final_dir self with
  | None => (None, fs)
  | Some dir =>
      let report_path := join dir filename in
      (Some report_path, fs_write fs report_path (TextFile content))
  end.

(** [load_checkpoint(filename)]. *)
Definition load_checkpoint (self : StateManager) (fs : store) (filename : string)
  (t_created t_updated : string) : outcome (option instance) :=
  match checkpoint_dir self with
  | None => Returned None
  | Some dir =>
      match fs_read fs (join dir filename) with
      | None => Returned None
      | Some f =>
          let data := match f with
                      | JsonFile doc => Some doc
                      | TextFile content => json_loads content
                      end in
          match data with
          | None => Raised "JSONDecodeError" "json.load"
          | Some (VDict d) =>
              match from_dict d t_created t_updated with
              | Returned obj => Returned (Some obj)
              | Raised e msg => Raised e msg
              | InstanceDictReplaced => InstanceDictReplaced
              end
          | Some v => Raised "AttributeError" (no_attribute v "items")
          end
      end
  end.

(** A checkpoint document with fields missing and a key of its own. *)
Definition partial_checkpoint : dict :=
  [ ("errors", VList [VStr "layout: boom"]); ("schema_version", VInt 2) ]%string.

End State.

(* ===================================================================== *)
(** * json.dump and json.load on what a field of the state can hold *)
(* ===================================================================== *)

Module Codec.
Import Py Eff State.
Local Open Scope string_scope.

(** The keys of a dict that [json.dump] accepts (a float key is left
    out). *)
Inductive pykey : Type :=
| KStr (s : string)
| KInt (z : Z)
| KBool (b : bool)
| KNone.

(** What a field of the state object can hold: Python does not enforce the
    annotations of the dataclass.  [OObject] stands for any object that is
    none of the others and that [json.dump] has no encoding for: a set, a
    datetime, bytes. *)
Inductive pyobj : Type :=
| ONone
| OBool (b : bool)
| OInt (z : Z)
| OFloat (m e : Z)
| ONaN
| OInf (negative : bool)
| OStr (s : string)
| OList (l : list pyobj)
| OTuple (l : list pyobj)
| ODict (d : list (pykey * pyobj))
| OObject (type_name : string).

(** The name a key is written under: a str as it is, an int in decimal,
    [True], [False] and [None] as the JSON constants. *)
Definition key_text (k : pykey) : string :=
  match k with
  | KStr s => s
  | KInt z => show_Z z
  | KBool true => "true"
  | KBool false => "false"
  | KNone => "null"
  end.

(** [json.load] of what [json.dump] wrote for [o]: a list and a tuple are
    both written as an array and read as a list; every key is written as a
    string, and of two entries written under one name the later is read; an
    object of another kind makes [json.dump] raise a TypeError. *)
Fixpoint reread (o : pyobj) : string + pyval :=
  match o with
  | ONone => inr VNone
  | OBool b => inr (VBool b)
  | OInt z => inr (VInt z)
  | OFloat m e => inr (VFloat m e)
  | ONaN => inr VNaN
  | OInf negative => inr (VInf negative)
  | OStr s => inr (VStr s)
  | OList l | OTuple l =>
      let fix items (l : list pyobj) : string + list pyval :=
        match l with
        | [] => inr []
        | x :: rest =>
            match reread x with
            | inl e => inl e
            | inr v => match items rest with
                       | inl e => inl e
                       | inr vs => inr (v :: vs)
                       end
            end
        end in
      match items l with
      | inl e => inl e
      | inr vs => inr (VList vs)
      end
  | ODict d =>
      let fix entries (d : list (pykey * pyobj)) (read : dict) : string + dict :=
        match d with
        | [] => inr read
        | (k, x) :: rest =>
            match reread x with
            | inl e => inl e
            | inr v => entries rest (dict_set read (key_text k) v)
            end
        end in
      match entries d [] with
      | inl e => inl e
      | inr read => inr (VDict read)
      end
  | OObject type_name =>
      inl ("Object of type " ++ type_name ++ " is not JSON serializable")
  end.

(** A value [json.load] returns, as the object it is. *)
Fixpoint embed (v : pyval) : pyobj :=
  match v with
  | VNone => ONone
  | VBool b => OBool b
  | VInt z => OInt z
  | VFloat m e => OFloat m e
  | VNaN => ONaN
  | VInf negative => OInf negative
  | VStr s => OStr s
  | VList l => OList (map embed l)
  | VDict d => ODict (map (fun kv => (KStr (fst kv), embed (snd kv))) d)
  end.

Fixpoint distinct (keys : list string) : bool :=
  match keys with
  | [] => true
  | k :: rest => negb (existsb (String.eqb k) rest) && distinct rest
  end.

Definition str_key (k : pykey) : option string :=
  match k with KStr s => Some s | _ => None end.

(** The objects [json.load] itself returns, NaN apart (which is equal to
    nothing, itself included): [None], a bool, an int, a float, a str (of
    code points below 256, as all strs here: no lone surrogate, which
    cannot be written), a list of such objects, a dict of such objects
    under str keys (distinct, as the keys of a dict are). *)
Fixpoint plain (o : pyobj) : bool :=
  match o with
  | ONone | OBool _ | OInt _ | OFloat _ _ | OInf _ | OStr _ => true
  | ONaN => false
  | OList l => forallb plain l
  | OTuple _ => false
  | ODict d =>
      forallb (fun kv => match str_key (fst kv) with
                         | Some _ => plain (snd kv)
                         | None => false
                         end) d
      && distinct (flat_map (fun kv => match str_key (fst kv) with
                                       | Some s => [s]
                                       | None => []
                                       end) d)
  | OObject _ => false
  end.

(** The state object, by what each of its fields holds. *)
Definition fields : Type := string -> pyobj.

(** [state.<name> = value]. *)
Definition assign (state : fields) (name : string) (value : pyobj) : fields :=
  fun k => if String.eqb k name then value else state k.

(** [asdict(state)]: the fields in declaration order (the copies it makes
    are equal to what they copy). *)
Definition asdict (state : fields) : pyobj :=
  ODict (map (fun k => (KStr k, state k)) field_names).

(** How deep the containers of a value are nested. *)
Fixpoint nesting (o : pyobj) : nat :=
  match o with
  | OList l | OTuple l => S (fold_right (fun x n => Nat.max (nesting x) n) 0 l)
  | ODict d => S (fold_right (fun kv n => Nat.max (nesting (snd kv)) n) 0 d)
  | _ => 0
  end.

(** An interpreter in which [json.dump] can descend [max_depth] levels
    before the recursion limit stops it. *)
Definition recursion_limit (max_depth : nat) (o : pyobj) : option string :=
  if (max_depth <? nesting o)%nat
  then Some "maximum recursion depth exceeded while encoding a JSON object"
  else None.

Section Limits.

(** The limits of the interpreter: the exception [json.dump] ends with on
    a value that is too large for it (containers nested deeper than the
    recursion limit leaves room for, an int of more digits than the
    conversion to decimal accepts), if it is.  What [json.dump] could
    write, [json.load] is taken to read. *)
Variable limit : pyobj -> option string.

(** [save_checkpoint(state, filename)] at clock reading [now], for a state
    object with any fields: the exception of [json.dump] (the file is then
    left cut short, which is not modelled), or the path, the state object
    afterwards and the files afterwards.  The file then holds the document
    as [json.load] reads it. *)
Definition save_checkpoint (self : StateManager) (state : fields)
  (filename : string) (now : string) (fs : store)
  : string + (option string * fields * store) :=
  match checkpoint_dir self with
  | None => inr (None, state, fs)
  | Some dir =>
      let state := assign state "updated_at" (OStr now) in
      let checkpoint_path := join dir filename in
      match limit (asdict state) with
      | Some e => inl e
      | None =>
          match reread (asdict state) with
          | inl e => inl e
          | inr doc => inr (Some checkpoint_path, state,
                            fs_write fs checkpoint_path (JsonFile doc))
          end
      end
  end.

End Limits.

(** What [json.load] returns for the checkpoint of a state whose fields
    could all be written: the state object [from_dict] makes of it. *)
Definition read_back (o : pyobj) : pyval :=
  match reread o with
  | inr v => v
  | inl _ => VNone
  end.

Definition reloaded (state : fields) : PipelineState :=
  mkState (read_back (state "source_file")) (read_back (state "current_agent"))
          (read_back (state "checkpoint_file")) (read_back (state "retry_count"))
          (read_back (state "errors")) (read_back (state "completed_agents"))
          (read_back (state "raw_text")) (read_back (state "structured_v0"))
          (read_back (state "structured_v1")) (read_back (state "db_ready"))
          (read_back (state "review_report")) (read_back (state "created_at"))
          (read_back (state "updated_at")).

(** The state object whose fields hold the values of [s]. *)
Definition of_state (s : PipelineState) : fields :=
  fun k => match get_field s k with Some v => embed v | None => ONone end.

(** A state whose [errors] is a tuple, and one whose first stage output
    has an int for a key. *)
Definition with_tuple : fields :=
  assign (of_state (new_state "t0" "t0")) "errors" (OTuple [OStr "layout: boom"]).
Definition with_int_key : fields :=
  assign (of_state (new_state "t0" "t0")) "structured_v0"
         (ODict [(KInt 1, OStr "first")]).

End Codec.

(* ===================================================================== *)
(** * The state-and-exception monad of the two drivers *)
(* ===================================================================== *)

Module Driver.
Import Py Eff State.

(** What a driver owns and touches: its [PipelineState], the files, the
    trace, and how often the agents and the clock were consulted. *)
Record dstate : Type := mkD
  { st : PipelineState;
    files : store;
    trace : list event;
    calls : nat;
    ticks : nat }.

(** A computation ends with a value or with a raised exception (its
    [str(e)]); what it did to the state stays done either way. *)
Definition M (A : Type) : Type := dstate -> (string + A) * dstate.

Definition ret {A} (a : A) : M A := fun s => (inr a, s).

Definition bind {A B} (c : M A) (k : A -> M B) : M B :=
  fun s => match c s with
           | (inr a, s') => k a s'
           | (inl e, s') => (inl e, s')
           end.

Definition raise {A} (e : string) : M A := fun s => (inl e, s).

(** [try: c  except Exception as e: handler(str(e))]. *)
Definition catch {A} (c : M A) (handler : string -> M A) : M A :=
  fun s => match c s with
           | (inr a, s') => (inr a, s')
           | (inl e, s') => handler e s'
           end.

Definition lift {A} (r : string + A) : M A := fun s => (r, s).

Definition get_state : M PipelineState := fun s => (inr (st s), s).

Definition modify (f : PipelineState -> PipelineState) : M unit :=
  fun s => (inr tt, mkD (f (st s)) (files s) (trace s) (calls s) (ticks s)).

Definition record (e : event) : M unit :=
  fun s => (inr tt, mkD (st s) (files s) (trace s ++ [e]) (calls s) (ticks s)).

Declare Scope driver_scope.
Delimit Scope driver_scope with driver.
Notation "x <- c1 ;; c2" := (bind c1 (fun x => c2))
  (at level 61, c1 at next level, right associativity) : driver_scope.
Notation "c1 ;; c2" := (bind c1 (fun _ => c2))
  (at level 61, right associativity) : driver_scope.
Local Open Scope driver_scope.

Section World.

(** The agents: what the [calls]-th invocation, of the agent [name] on
    [input], does. *)
Variable run_agent : string -> nat -> pyval -> agent_out.
(** The clock: the timestamp of the n-th reading. *)
Variable now : nat -> string.

Definition invoke (name : string) (input : pyval) : M pyval :=
  fun s =>
    let out := run_agent name (calls s) input in
    let s' := mkD (st s) (files s) (trace s ++ [EvAgent name input out])
                  (S (calls s)) (ticks s) in
    match out with
    | AgentReturn result => (inr result, s')
    | AgentRaise msg => (inl msg, s')
    end.

(** [datetime.now().isoformat()]. *)
Definition read_clock : M string :=
  fun s => (inr (now (ticks s)),
            mkD (st s) (files s) (trace s) (calls s) (S (ticks s))).

(** [state_manager.save_checkpoint(self.state, filename)]. *)
Definition checkpoint (sm : StateManager) (filename : string) : M unit :=
  match checkpoint_dir sm with
  | None => ret tt
  | Some _ =>
      t <- read_clock ;;
      fun s =>
        let '(path, st', fs') := save_checkpoint sm (st s) filename t (files s) in
        (inr tt, mkD st' fs'
                     (trace s ++ match path with Some p => [EvWrite p] | None => [] end)
                     (calls s) (ticks s))
  end.

Definition final (sm : StateManager) (data : PipelineState + pyval)
  (filename : string) : M unit :=
  fun s =>
    let '(path, fs') := save_final sm data filename (files s) in
    (inr tt, mkD (st s) fs'
                 (trace s ++ match path with Some p => [EvWrite p] | None => [] end)
                 (calls s) (ticks s)).

Definition markdown (sm : StateManager) (content : str) (filename : string) : M unit :=
  fun s =>
    let '(path, fs') := save_markdown_report sm content filename (files s) in
    (inr tt, mkD (st s) fs'
                 (trace s ++ match path with Some p => [EvWrite p] | None => [] end)
                 (calls s) (ticks s)).

(** [self.state.errors.append(msg)]. *)
Definition append_error (msg : string) : M unit :=
  s <- get_state ;;
  v <- lift (py_append (errors s) (VStr msg)) ;;
  modify (set_errors v).

(** [self.state.completed_agents.append(name)]. *)
Definition append_completed (name : string) : M unit :=
  s <- get_state ;;
  v <- lift (py_append (completed_agents s) (VStr name)) ;;
  modify (set_completed_agents v).

End World.

(** A fresh driver state around [s]. *)
Definition start (s : PipelineState) : dstate := mkD s [] [] 0 0.

End Driver.

(* ===================================================================== *)
(** * orchestrator.py: the blocking driver *)
(* ===================================================================== *)

Module Orchestrator.
Import Py Eff State Driver.
Local Open Scope driver_scope.
Local Open Scope string_scope.

Definition AGENT_ORDER : list string :=
  [ "structuring"; "normalization"; "layout"; "human_review" ].

Section Run.

Variable run_agent : string -> nat -> pyval -> agent_out.
Variable now : nat -> string.
(** [HumanReviewAgent.generate_markdown_report]: the report's text, or the
    exception it ends with on a review whose parts have the wrong shape.
    The driver only writes the text to a file. *)
Variable generate_markdown_report : pyval -> string + str.
(** [self.output_dir]. *)
Variable output_dir : option string.

Definition state_manager : StateManager := new_manager output_dir.

Definition _save_checkpoint (filename : string) : M unit :=
  checkpoint now state_manager filename.

Definition _generate_markdown_report (review_data : pyval) : M unit :=
  md_content <- lift (generate_markdown_report review_data) ;;
  markdown state_manager md_content "review_report.md".

(** The body of the [try] of one attempt: [true] when it reaches
    [return True], [false] when it falls through. *)
Definition attempt_body (agent_name : string) : M bool :=
  if String.eqb agent_name "structuring" then
    s <- get_state ;;
    result <- invoke run_agent "structuring" (raw_text s) ;;
    ok <- lift (py_get result "success" VNone) ;;
    if truthy ok then
      modify (set_structured_v0 result) ;;
      _save_checkpoint "structured_v0.json" ;;
      sections <- lift (py_get result "sections" (VList [])) ;;
      _ <- lift (py_len sections) ;;
      ret true
    else ret false
  else if String.eqb agent_name "normalization" then
    s <- get_state ;;
    input <- lift (py_get (structured_v0 s) "extracted_fields" (VDict [])) ;;
    result <- invoke run_agent "normalization" input ;;
    ok <- lift (py_get result "success" VNone) ;;
    if truthy ok then
      modify (set_structured_v1 result) ;;
      _save_checkpoint "structured_v1_normalized.json" ;;
      issues <- lift (py_get result "normalization_issues" (VList [])) ;;
      _ <- lift (py_len issues) ;;
      ret true
    else ret false
  else if String.eqb agent_name "layout" then
    s <- get_state ;;
    input <- lift (py_get (structured_v1 s) "normalized_data" (VDict [])) ;;
    result <- invoke run_agent "layout" input ;;
    ok <- lift (py_get result "success" VNone) ;;
    if truthy ok then
      modify (set_db_ready result) ;;
      _save_checkpoint "db_ready.json" ;;
      metadata <- lift (py_get result "mapping_metadata" (VDict [])) ;;
      _ <- lift (py_get metadata "records_processed" (VInt 0)) ;;
      ret true
    else ret false
  else if String.eqb agent_name "human_review" then
    s <- get_state ;;
    result <- invoke run_agent "human_review" (db_ready s) ;;
    ok <- lift (py_get result "success" VNone) ;;
    if truthy ok then
      modify (set_review_report result) ;;
      _save_checkpoint "review_report.json" ;;
      _generate_markdown_report result ;;
      summary <- lift (py_get result "review_summary" (VDict [])) ;;
      _ <- lift (py_get summary "issues_count" (VInt 0)) ;;
      ret true
    else ret false
  else ret false.

(** The [for attempt in range(max_retries)] loop.  Between attempts the
    source computes the backoff and prints it; it does not sleep. *)
Fixpoint attempts (agent_name : string) (max_retries : nat) (todo : list nat)
  : M bool :=
  match todo with
  | [] => ret false
  | attempt :: rest =>
      modify (set_retry_count (VInt (Z.of_nat attempt + 1))) ;;
      done <- catch (attempt_body agent_name)
                    (fun e => append_error (agent_name ++ ": " ++ e) ;; ret false) ;;
      if (done : bool) then ret true
      else
        (if (attempt <? max_retries - 1)%nat
         then record (EvRetryNotice (2 * 2 ^ Z.of_nat attempt))
         else ret tt) ;;
        attempts agent_name max_retries rest
  end.

Definition _execute_agent (agent_name : string) : M bool :=
  let max_retries := MAX_RETRIES in
  attempts agent_name max_retries (seq 0 max_retries).

(** [self.output_dir / name]: a TypeError when no directory was given. *)
Definition under_output_dir (name : string) : M string :=
  match output_dir with
  | Some d => ret (join d name)
  | None => raise "unsupported operand type(s) for /: 'NoneType' and 'str'"
  end.

Definition _save_final_outputs : M unit :=
  s <- get_state ;;
  final state_manager (inl s) "pipeline_state.json" ;;
  final state_manager (inr (db_ready s)) "db_ready.json" ;;
  final state_manager (inr (review_report s)) "review_report.json" ;;
  _ <- under_output_dir "final" ;;
  ret tt.

(** The values [_print_summary] computes on its way. *)
Definition _print_summary : M unit :=
  s <- get_state ;;
  _ <- lift (py_len (completed_agents s)) ;;
  _ <- lift (py_len (errors s)) ;;
  (if truthy (structured_v0 s)
   then sections <- lift (py_get (structured_v0 s) "sections" (VList [])) ;;
        _ <- lift (py_len sections) ;; ret tt
   else ret tt) ;;
  (if truthy (structured_v1 s)
   then issues <- lift (py_get (structured_v1 s) "normalization_issues" (VList [])) ;;
        _ <- lift (py_len issues) ;; ret tt
   else ret tt) ;;
  (if truthy (db_ready s)
   then meta <- lift (py_get (db_ready s) "mapping_metadata" (VDict [])) ;;
        _ <- lift (py_get meta "records_processed" (VInt 0)) ;; ret tt
   else ret tt) ;;
  _ <- under_output_dir "checkpoints" ;;
  _ <- under_output_dir "final" ;;
  ret tt.

(** The [for agent_name in AGENT_ORDER] loop: [false] is the early
    [return False], [true] the normal end of the loop. *)
Fixpoint stages (todo : list string) : M bool :=
  match todo with
  | [] => ret true
  | agent_name :: rest =>
      modify (set_current_agent (VStr agent_name)) ;;
      modify (set_retry_count (VInt 0)) ;;
      success <- _execute_agent agent_name ;;
      if negb success then
        append_error ("Agent '" ++ agent_name ++ "' failed") ;;
        _save_checkpoint ("failed_" ++ agent_name ++ ".json") ;;
        ret false
      else
        append_completed agent_name ;;
        stages rest
  end.

Definition run_pipeline : M bool :=
  finished <- stages AGENT_ORDER ;;
  if (finished : bool) then
    _save_final_outputs ;;
    _print_summary ;;
    ret true
  else ret false.

End Run.

(** [Orchestrator.initialize] on a readable source file holding [text]:
    the state [run_pipeline] starts from (the raw checkpoint apart). *)
Definition initialized (s : PipelineState) (source : string) (text : string)
  : PipelineState :=
  set_current_agent (VStr "structuring")
   (set_raw_text (VStr text)
    (set_completed_agents (VList [])
     (set_errors (VList [])
      (set_retry_count (VInt 0)
       (set_current_agent (VStr "init")
        (set_source_file (VStr source) s)))))).

End Orchestrator.

(* ===================================================================== *)
(** * pipeline_runner.py: the event-driven driver *)
(* ===================================================================== *)

Module Runner.
Import Py Eff State Driver.
Local Open Scope driver_scope.
Local Open Scope string_scope.

(** An f-string, kept as its pieces: the text [str()] gives a value is not
    modelled. *)
Definition fstring (pieces : list pyval) : pyval := VList pieces.

(** What [_run_ocr_sync] comes to: every page converted and the markdown
    written, a failure ([False]), or an exception. *)
Inductive ocr_out : Type :=
| OcrOk (markdown : string)
| OcrFailed
| OcrRaised (msg : string).

Section Run.

Variable run_agent : string -> nat -> pyval -> agent_out.
Variable now : nat -> string.
Variable generate_markdown_report : pyval -> string + str.
Variable ocr : ocr_out.
(** [self.websocket] is set. *)
Variable websocket : bool.
(** [self.output_dir] and [self.pdf_path.stem]. *)
Variable output_dir : string.
Variable stem : string.

Definition sm : StateManager := new_manager (Some output_dir).

Definition md_path : string := join output_dir (stem ++ ".md").

(** [emit]: a failed send is logged and goes no further. *)
Definition emit (kind : string) (data : dict) : M unit :=
  if websocket then record (EvEmit kind data) else ret tt.

Definition emit_log (message : pyval) : M unit :=
  t <- read_clock now ;;
  emit "log" [("message", message); ("timestamp", VStr t)].

Definition _run_ocr_async : M bool :=
  match ocr with
  | OcrOk markdown =>
      (fun s => (inr true,
                 mkD (st s) (fs_write (files s) md_path (TextFile (txt markdown)))
                     (trace s ++ [EvWrite md_path]) (calls s) (ticks s)))
  | OcrFailed => ret false
  | OcrRaised msg => raise msg
  end.

(** [with open(md_path) as f: f.read()]. *)
Definition read_markdown : M string :=
  fun s => match fs_read (files s) md_path with
           | Some (TextFile content) => (inr (string_of_list_ascii content), s)
           | Some (JsonFile _) => (inl "not a text file", s)
           | None => (inl ("No such file or directory: " ++ md_path), s)
           end.

Definition _run_agent_async (name : string) (input_data : pyval) : M pyval :=
  invoke run_agent name input_data.

(** The loop of [_handle_agent_error] over [range(1, MAX_RETRIES + 1)]:
    notices and sleeps, then the error events; the agent is not called. *)
Fixpoint handle_attempts (agent_name : string) (error : pyval) (todo : list nat)
  : M unit :=
  match todo with
  | [] => ret tt
  | attempt :: rest =>
      (if (attempt <? MAX_RETRIES)%nat
       then
         let backoff := (INITIAL_BACKOFF * 2 ^ (Z.of_nat attempt - 1))%Z in
         emit_log (fstring [VStr "Agent '"; VStr agent_name;
                            VStr "' failed. Retrying in "; VInt backoff;
                            VStr "s..."]) ;;
         record (EvSleep backoff)
       else
         emit "step_error"
              [("step", VStr agent_name);
               ("message", fstring [VStr "Failed after "; VInt (Z.of_nat MAX_RETRIES);
                                    VStr " retries: "; error])] ;;
         emit "complete" [("success", VBool false); ("error", error)]) ;;
      handle_attempts agent_name error rest
  end.

Definition _handle_agent_error (agent_name : string) (error : pyval) : M unit :=
  handle_attempts agent_name error (seq 1 MAX_RETRIES).

(** What follows a failed stage: the handler, then [return False]. *)
Definition fail_stage (agent_name : string) (result : pyval) : M bool :=
  error <- lift (py_get result "error" VNone) ;;
  _handle_agent_error agent_name error ;;
  ret false.

Definition human_review_step : M bool :=
  emit "step_start" [("step", VStr "human_review"); ("name", VStr "Human Review")] ;;
  emit_log (VStr "Running Human Review Agent...") ;;
  s <- get_state ;;
  result <- _run_agent_async "human_review" (db_ready s) ;;
  ok <- lift (py_get result "success" VNone) ;;
  if negb (truthy ok) then fail_stage "human_review" result
  else
    modify (set_review_report result) ;;
    checkpoint now sm "review_report.json" ;;
    final sm (inr result) "review_report.json" ;;
    md_content <- lift (generate_markdown_report result) ;;
    markdown sm md_content "review_report.md" ;;
    summary <- lift (py_get result "review_summary" (VDict [])) ;;
    issues <- lift (py_get summary "issues_count" (VInt 0)) ;;
    emit "step_complete" [("step", VStr "human_review"); ("issues", issues)] ;;
    issues' <- lift (py_get summary "issues_count" (VInt 0)) ;;
    emit_log (fstring [VStr "Review: "; issues'; VStr " issues found"]) ;;
    emit "complete" [("success", VBool true); ("output_dir", VStr output_dir)] ;;
    emit_log (VStr "Pipeline completed successfully!") ;;
    ret true.

Definition layout_step : M bool :=
  emit "step_start" [("step", VStr "layout"); ("name", VStr "Layout")] ;;
  emit_log (VStr "Running Layout Agent...") ;;
  s <- get_state ;;
  input <- lift (py_get (structured_v1 s) "normalized_data" (VDict [])) ;;
  result <- _run_agent_async "layout" input ;;
  ok <- lift (py_get result "success" VNone) ;;
  if negb (truthy ok) then fail_stage "layout" result
  else
    modify (set_db_ready result) ;;
    checkpoint now sm "db_ready.json" ;;
    final sm (inr result) "db_ready.json" ;;
    emit "step_complete" [("step", VStr "layout")] ;;
    emit_log (VStr "Layout mapping complete") ;;
    human_review_step.

Definition normalization_step : M bool :=
  emit "step_start" [("step", VStr "normalization"); ("name", VStr "Normalization")] ;;
  emit_log (VStr "Running Normalization Agent...") ;;
  s <- get_state ;;
  input <- lift (py_get (structured_v0 s) "extracted_fields" (VDict [])) ;;
  result <- _run_agent_async "normalization" input ;;
  ok <- lift (py_get result "success" VNone) ;;
  if negb (truthy ok) then fail_stage "normalization" result
  else
    modify (set_structured_v1 result) ;;
    checkpoint now sm "structured_v1_normalized.json" ;;
    found <- lift (py_get result "normalization_issues" (VList [])) ;;
    issues <- lift (py_len found) ;;
    emit "step_complete"
         [("step", VStr "normalization"); ("issues", VInt (Z.of_nat issues))] ;;
    emit_log (fstring [VStr "Normalization: "; VInt (Z.of_nat issues);
                       VStr " issues found"]) ;;
    layout_step.

Definition structuring_step : M bool :=
  emit "step_start" [("step", VStr "structuring"); ("name", VStr "Structuring")] ;;
  emit_log (VStr "Running Structuring Agent...") ;;
  s <- get_state ;;
  result <- _run_agent_async "structuring" (raw_text s) ;;
  ok <- lift (py_get result "success" VNone) ;;
  if negb (truthy ok) then fail_stage "structuring" result
  else
    modify (set_structured_v0 result) ;;
    checkpoint now sm "structured_v0.json" ;;
    sections <- lift (py_get result "sections" (VList [])) ;;
    n <- lift (py_len sections) ;;
    emit "step_complete"
         [("step", VStr "structuring"); ("sections", VInt (Z.of_nat n))] ;;
    sections' <- lift (py_get result "sections" (VList [])) ;;
    n' <- lift (py_len sections') ;;
    emit_log (fstring [VStr "Structuring: "; VInt (Z.of_nat n');
                       VStr " sections extracted"]) ;;
    normalization_step.

(** The body of the [try] of [run]. *)
Definition run_body : M bool :=
  emit "step_start" [("step", VStr "ocr"); ("name", VStr "OCR")] ;;
  emit_log (VStr "Starting OCR conversion...") ;;
  success <- _run_ocr_async ;;
  if negb success then
    emit "step_error" [("step", VStr "ocr"); ("message", VStr "OCR failed")] ;;
    emit "complete" [("success", VBool false)] ;;
    ret false
  else
    emit "step_complete" [("step", VStr "ocr"); ("file", VStr md_path)] ;;
    emit_log (VStr "OCR completed successfully") ;;
    text <- read_markdown ;;
    modify (set_raw_text (VStr text)) ;;
    structuring_step.

Definition run : M bool :=
  catch run_body
        (fun e => emit "error" [("message", VStr e)] ;; ret false).

End Run.

(** The state a [PipelineRunner] is constructed with. *)
Definition constructed (t_created t_updated output_dir stem : string) : PipelineState :=
  set_source_file (VStr (join output_dir (stem ++ ".md")))
                  (new_state t_created t_updated).

End Runner.

(** What the theorems about the two drivers speak of. *)
Module Observed.
Import Py Eff State Driver.

(** An event other than a sleep. *)
Definition quiet (e : event) : bool := negb (is_sleep e).

(** The seconds slept, in order. *)
Definition sleeps (evs : list event) : list Z :=
  flat_map (fun e => match e with EvSleep n => [n] | _ => [] end) evs.

(** How often the agent [name] was invoked. *)
Definition agent_calls (name : string) (evs : list event) : nat :=
  List.length (filter (is_agent_call name) evs).

(** Some invocation of [name] returned a result whose success marker held. *)
Definition agent_succeeded (name : string) (evs : list event) : Prop :=
  exists input result,
    In (EvAgent name input (AgentReturn result)) evs /\
    success_marker result = true.

(** What the blocking driver does itself: it invokes an agent (one event,
    whatever goes on inside the call), announces a retry, writes a file. *)
Definition own_step (e : event) : bool :=
  match e with
  | EvAgent _ _ _ | EvRetryNotice _ | EvWrite _ => true
  | _ => false
  end.

(** [s'] comes after [s] by such steps. *)
Definition steps (s s' : dstate) : Prop :=
  exists evs, trace s' = trace s ++ evs /\ forallb own_step evs = true.

(** [s'] comes after [s] by events that are no sleeps. *)
Definition ext (s s' : dstate) : Prop :=
  exists evs, trace s' = trace s ++ evs /\ forallb quiet evs = true.

(** ... and with the same [completed_agents] and [current_agent]. *)
Definition keeps (s s' : dstate) : Prop :=
  completed_agents (st s') = completed_agents (st s) /\
  current_agent (st s') = current_agent (st s) /\
  ext s s'.

(** Every run of [c] relates the state before to the state after. *)
Definition respects (R : dstate -> dstate -> Prop) {A} (c : M A) : Prop :=
  forall s, R s (snd (c s)).

(** A computation that returns [True] only after [name] succeeded. *)
Definition true_after {A} (name : string) (c : M A) (yes : A) : Prop :=
  forall s, fst (c s) = inr yes -> agent_succeeded name (trace (snd (c s))).

(** The computation adds events among which each agent is invoked at most
    as often as it is listed in [names]. *)
Definition at_most (names : list string) {A} (c : M A) : Prop :=
  forall s, exists evs,
    trace (snd (c s)) = trace s ++ evs /\
    forall name, agent_calls name evs <= count_occ string_dec names name.

(** The computation invokes no agent. *)
Definition silent {A} (c : M A) : Prop :=
  forall s, exists evs,
    trace (snd (c s)) = trace s ++ evs /\
    forall name, agent_calls name evs = 0.

(** What the failure handler of the event-driven driver adds to the trace
    for the stage [agent_name], from clock reading [tick] on: per nominal
    retry a notice (when a socket is attached) and a sleep of 2 s, then
    4 s; then the two error events. *)
Definition backoff_events (now : nat -> string) (websocket : bool)
  (agent_name : string) (error : pyval) (tick : nat) : list event :=
  let notice (seconds : Z) (t : nat) :=
    EvEmit "log"
      [("message", Runner.fstring [VStr "Agent '"; VStr agent_name;
                                   VStr "' failed. Retrying in "; VInt seconds;
                                   VStr "s..."]);
       ("timestamp", VStr (now t))]%string in
  if websocket then
    [ notice 2%Z tick; EvSleep 2; notice 4%Z (S tick); EvSleep 4;
      EvEmit "step_error"
        [("step", VStr agent_name);
         ("message", Runner.fstring [VStr "Failed after "; VInt 3;
                                     VStr " retries: "; error])]%string;
      EvEmit "complete" [("success", VBool false); ("error", error)]%string ]
  else [ EvSleep 2; EvSleep 4 ].

(** An agent that reports failure every time. *)
Definition always_failing (name : string) (call : nat) (input : pyval) : agent_out :=
  AgentReturn (VDict [("success", VBool false); ("error", VStr "bad output")]%string).

(** An agent that reports success every time. *)
Definition always_succeeding (name : string) (call : nat) (input : pyval) : agent_out :=
  AgentReturn (VDict [("success", VBool true)]%string).

(** Agents of which the one of the normalization stage reports failure. *)
Definition normalization_fails (name : string) (call : nat) (input : pyval) : agent_out :=
  if String.eqb name "normalization" then always_failing name call input
  else always_succeeding name call input.

Definition fixed_clock (n : nat) : string := "2024-01-01T00:00:00"%string.

Definition no_report (review : pyval) : string + str := inr [].

End Observed.

(* ===================================================================== *)
(** * regolo_client.py: the seconds slept, a service for the examples *)
(* ===================================================================== *)

Module Budget.
Import Py Eff Client.

(** The seconds slept in all. *)
Definition total (seconds : list Z) : Z := fold_right Z.add 0%Z seconds.

(** A service that answers 503 after one network failure. *)
Definition down_then_unavailable (attempt : nat) : http_reply :=
  match attempt with
  | 0 => ConnectionFailed "connection refused"
  | _ => Response 503 (txt "Service Unavailable")
  end.

End Budget.

(* ===================================================================== *)
(** * regolo_client.py, agents/layout_agent.py: create_source_ref *)
(* ===================================================================== *)

Module SourceRef.
Import Py Eff.
Local Open Scope string_scope.

(** [x[:n]]: a str and a list are cut, a number, a bool or [None] cannot
    be subscripted; a dict refuses the slice as a key (its message is that
    of CPython up to 3.11). *)
Definition py_slice_to (x : pyval) (n : nat) : string + pyval :=
  match x with
  | VStr s => inr (VStr (substring 0 n s))
  | VList l => inr (VList (firstn n l))
  | VDict _ => inl "unhashable type: 'slice'"
  | _ => inl ("'" ++ type_name x ++ "' object is not subscriptable")
  end.

(** [create_source_ref(page, snippet)]; [snippet] defaults to [None]. *)
Definition create_source_ref (page : pyval) (snippet : pyval) : string + dict :=
  let ref := [("page", page)] in
  if truthy snippet then
    match py_slice_to snippet 100 with
    | inr cut => inr (dict_set ref "snippet" cut)
    | inl e => inl e
    end
  else inr ref.

End SourceRef.

(* ===================================================================== *)
(** * config.py and state_manager.py: where the files go *)
(* ===================================================================== *)

Module Config.
Import State.
Local Open Scope string_scope.

(** [get_checkpoint_path(output_dir, filename)]. *)
Definition get_checkpoint_path (output_dir filename : string) : string :=
  join (join output_dir "checkpoints") filename.

(** [get_final_path(output_dir, filename)]. *)
Definition get_final_path (output_dir filename : string) : string :=
  join (join output_dir "final") filename.

End Config.

Module Manager.
Import Py State.
Local Open Scope string_scope.

(** [StateManager.get_checkpoint_path(filename)]. *)
Definition get_checkpoint_path (self : StateManager) (filename : string)
  : option string :=
  match checkpoint_dir self with
  | Some dir => Some (join dir filename)
  | None => None
  end.

(** [StateManager.get_final_path(filename)]. *)
Definition get_final_path (self : StateManager) (filename : string)
  : option string :=
  match final_dir self with
  | Some dir => Some (join dir filename)
  | None => None
  end.

Fixpoint has_slash (s : string) : bool :=
  match s with
  | EmptyString => false
  | String c s' => Ascii.eqb c "/" || has_slash s'
  end.

(** A file name of one component, which [dir / name] puts inside [dir]
    under that very name: not empty, no separator, neither [.] nor [..]. *)
Definition plain_name (name : string) : bool :=
  negb (String.eqb name "") && negb (String.eqb name ".")
  && negb (String.eqb name "..") && negb (has_slash name).

End Manager.

(* ===================================================================== *)
(** * orchestrator.py: initialize, load_from_checkpoint *)
(* ===================================================================== *)

Module Lifecycle.
Import Py Eff State Driver Orchestrator.
Local Open Scope driver_scope.
Local Open Scope string_scope.

Section Run.

Variable now : nat -> string.
Variable output_dir : option string.
(** [open(source_file, "r", encoding="utf-8").read()]: the text of the
    file, or the message of the exception. *)
Variable read_text : string -> string + string.

(** [Orchestrator.initialize(source_file)]. *)
Definition initialize (source_file : string) : M bool :=
  modify (set_source_file (VStr source_file)) ;;
  modify (set_current_agent (VStr "init")) ;;
  modify (set_retry_count (VInt 0)) ;;
  modify (set_errors (VList [])) ;;
  modify (set_completed_agents (VList [])) ;;
  opened <- catch (text <- lift (read_text source_file) ;;
                   modify (set_raw_text (VStr text)) ;;
                   ret true)
                  (fun e => append_error ("Failed to read source file: " ++ e) ;;
                            ret false) ;;
  if (opened : bool) then
    modify (set_current_agent (VStr "structuring")) ;;
    _save_checkpoint now output_dir "raw_text.json" ;;
    ret true
  else ret false.

End Run.

(** [Orchestrator.load_from_checkpoint(checkpoint_file)] on an orchestrator
    whose state object is [current]: what it returns and the state object
    afterwards.  A loaded state is an object and as such true. *)
Definition load_from_checkpoint (output_dir : option string) (current : instance)
  (fs : store) (checkpoint_file : string) (t_created t_updated : string)
  : outcome (bool * instance) :=
  match load_checkpoint (new_manager output_dir) fs checkpoint_file
                        t_created t_updated with
  | Returned (Some state) => Returned (true, state)
  | Returned None => Returned (false, current)
  | Raised e msg => Raised e msg
  | InstanceDictReplaced => InstanceDictReplaced
  end.

(** A source file that can be read. *)
Definition readable (path : string) : string + string := inr "Mario Rossi".

End Lifecycle.

(* ===================================================================== *)
(** * Pre- and postconditions of driver computations *)
(* ===================================================================== *)

Module Hoare.
Import Py Eff State Driver.

(** [c], run from [s], ends in a state and with a value that satisfy [Q],
    or with an exception and in a state that satisfy [E]. *)
Definition wp {A} (c : M A) (Q : A -> dstate -> Prop)
  (E : string -> dstate -> Prop) (s : dstate) : Prop :=
  match c s with
  | (inr a, s') => Q a s'
  | (inl e, s') => E e s'
  end.

(** No exception leaves the computation. *)
Definition never {A} : A -> dstate -> Prop := fun _ _ => False.

(** The state object differs at most in [updated_at]. *)
Definition touched (x x' : PipelineState) : Prop :=
  x' = x \/ exists t, x' = set_updated_at (VStr t) x.

(** [errors] is what it was. *)
Definition same_errors (s s' : dstate) : Prop := errors (st s') = errors (st s).

(** The files are what they were. *)
Definition same_files (s s' : dstate) : Prop := files s' = files s.

(** A state as a run leaves it that failed at the normalization stage. *)
Definition failed_at_normalization : PipelineState :=
  set_completed_agents (VList [VStr "structuring"%string])
    (set_current_agent (VStr "normalization"%string)
       (new_state "t0"%string "t0"%string)).

End Hoare.

(* ===================================================================== *)
(** * What the properties of the event-driven driver speak of *)
(* ===================================================================== *)

Module Progress.
Import Py Eff State Driver.

(** The fields that keep the books of a run. *)
Definition bookkeeping (x : PipelineState)
  : pyval * pyval * pyval * pyval * pyval * pyval * pyval :=
  (source_file x, current_agent x, checkpoint_file x, retry_count x,
   errors x, completed_agents x, created_at x).

Definition unbooked (s s' : dstate) : Prop :=
  bookkeeping (st s') = bookkeeping (st s).

(** The names of the agents invoked, in order. *)
Definition invoked (evs : list event) : list string :=
  flat_map (fun e => match e with EvAgent name _ _ => [name] | _ => [] end) evs.

(** The computation adds events among which no agent is invoked. *)
Definition mute {A} (c : M A) : Prop :=
  forall s, exists evs, trace (snd (c s)) = trace s ++ evs /\ invoked evs = [].

(** The computation invokes the agents [names] in this order, one after the
    other, up to some point, and all of them when it returns [True]. *)
Definition in_order (names : list string) (c : M bool) : Prop :=
  forall s, exists evs,
    trace (snd (c s)) = trace s ++ evs /\
    (exists k, invoked evs = firstn k names) /\
    (fst (c s) = inr true -> invoked evs = names).

(** The computation does not return [True]. *)
Definition not_true (c : M bool) : Prop := forall s, fst (c s) <> inr true.

End Progress.

(* ===================================================================== *)
(** * agents/*.py: process *)
(* ===================================================================== *)

Module Agents.
Import Py Json Eff Client Structuring.
Local Open Scope string_scope.

(** The exceptions the [try] of [process] can meet, by class and culprit;
    their texts are those of the interpreter. *)
Inductive failure : Type :=
| KeyError (key : pyval)
| IndexError
| TypeError (culprit : pyval)
| AttributeError (culprit : pyval) (attribute : string)
| JSONDecodeError (text : str)
| RecursionError.

(** [x[key]] for a string key: only a dict can be asked. *)
Definition py_item (x : pyval) (key : string) : failure + pyval :=
  match x with
  | VDict d => match dict_get d key with
               | Some v => inr v
               | None => inl (KeyError (VStr key))
               end
  | _ => inl (TypeError x)
  end.

(** [x[0]]: the first element of a list, the first character of a str; a
    decoded dict has no key [0]. *)
Definition py_first (x : pyval) : failure + pyval :=
  match x with
  | VList (v :: _) => inr v
  | VList [] => inl IndexError
  | VStr (String c _) => inr (VStr (String c ""))
  | VStr EmptyString => inl IndexError
  | VDict _ => inl (KeyError (VInt 0))
  | _ => inl (TypeError x)
  end.

(** [x.get(key, default)]. *)
Definition get (x : pyval) (key : string) (default : pyval) : failure + pyval :=
  match x with
  | VDict d => inr (match dict_get d key with Some v => v | None => default end)
  | _ => inl (AttributeError x "get")
  end.

(** [message = response["choices"][0]["message"]] and
    [message.get("content") or message.get("reasoning_content", "")]. *)
Definition message_content (response : pyval) : failure + pyval :=
  match py_item response "choices" with
  | inl e => inl e
  | inr choices =>
  match py_first choices with
  | inl e => inl e
  | inr choice =>
  match py_item choice "message" with
  | inl e => inl e
  | inr message =>
  match get message "content" VNone with
  | inl e => inl e
  | inr content =>
      if truthy content then inr content
      else get message "reasoning_content" (VStr "")
  end end end end.

Definition transport_failure (error : string) : pyval :=
  VDict [("error", VStr error); ("success", VBool false)].

Definition empty_content : pyval :=
  VDict [("error", VStr "Empty response content from API"); ("success", VBool false)].

Section Process.

(** The service. *)
Variable http : nat -> http_reply.
(** [json.loads], as the interpreter has it: the value of a text, or the
    exception it raises on it (a JSONDecodeError; a RecursionError on a
    text nested too deeply). *)
Variable loads : str -> failure + pyval.
(** [str(e)] of an exception and [str(response)] of a value. *)
Variable describe : failure -> string.
Variable py_str : pyval -> string.

Definition parse_failure (response : pyval) (e : failure) : pyval :=
  VDict [("error", VStr ("Parse error: " ++ describe e));
         ("success", VBool false);
         ("raw_response", VStr (substring 0 500 (py_str response)))].

(** [result["success"] = True; return result]. *)
Definition flagged (response : pyval) (result : pyval) : pyval :=
  match result with
  | VDict d => VDict (dict_set d "success" (VBool true))
  | _ => parse_failure response (TypeError result)
  end.

(** The [try] of [StructuringAgent.process], [NormalizationAgent.process]
    and [HumanReviewAgent.process], which differ in the prompt only. *)
Definition parsed (response : pyval) : pyval :=
  match message_content response with
  | inl e => parse_failure response e
  | inr content =>
      if negb (truthy content) then empty_content
      else match content with
           | VStr c =>
               let content := _extract_json (txt c) in
               match loads content with
               | inr result => flagged response result
               | inl e => parse_failure response e
               end
           | _ => parse_failure response (AttributeError content "strip")
           end
  end.

(** [extract_json_from_text] of agents/layout_agent.py over [loads]: the
    two [except json.JSONDecodeError] catch that class only, any other
    exception of [json.loads] goes on to the caller. *)
Definition extract_json_from_text (text : str) : failure + pyval :=
  let text := strip text in
  let text := Layout.repair_json text in
  match loads text with
  | inr v => inr v
  | inl (JSONDecodeError _) =>
      match Re.search Layout.brace_span text with
      | Some caps =>
          match loads (Re.group 1 caps) with
          | inr v => inr v
          | inl (JSONDecodeError _) => inr Layout.sentinel
          | inl e => inl e
          end
      | None => inr Layout.sentinel
      end
  | inl e => inl e
  end.

(** The [try] of [LayoutAgent.process]. *)
Definition layout_parsed (response : pyval) : pyval :=
  match message_content response with
  | inl e => parse_failure response e
  | inr content =>
      if negb (truthy content) then empty_content
      else match content with
           | VStr c =>
               match extract_json_from_text (txt c) with
               | inl e => parse_failure response e
               | inr result =>
                   if negb (truthy result)
                   then VDict [("error", VStr "Could not parse JSON from response");
                               ("success", VBool false);
                               ("raw_response", VStr (substring 0 500 c))]
                   else flagged response result
               end
           | _ => parse_failure response (AttributeError content "strip")
           end
  end.

(** [response, error = self.client.call_with_retry(...)], [if error: ...],
    then the [try]; a missing response is [None]. *)
Definition process_with (body : pyval -> pyval) : pyval * list event :=
  let '((response, error), evs) := call_with_retry http None in
  let response := match response with Some v => v | None => VNone end in
  match error with
  | Some msg =>
      if negb (String.eqb msg "") then (transport_failure msg, evs)
      else (body response, evs)
  | None => (body response, evs)
  end.

Definition process : pyval * list event := process_with parsed.

Definition layout_process : pyval * list event := process_with layout_parsed.

End Process.

(** The parser of this file as [json.loads]. *)
Definition json_loads_or_raise (text : str) : failure + pyval :=
  match json_loads text with
  | Some v => inr v
  | None => inl (JSONDecodeError text)
  end.

(** A dict with a boolean [success], and an [error] text when that is
    [False]. *)
Definition flagged_result (r : pyval) : Prop :=
  exists d b,
    r = VDict d /\ dict_get d "success" = Some (VBool b) /\
    success_marker r = b /\
    (if b then True else exists msg, dict_get d "error" = Some (VStr msg)).

(** A reply wrapped in a fence, as the models tend to give it. *)
Definition fenced (label : string) (text : str) : str :=
  (txt "```" ++ txt label ++ nl :: text ++ nl :: txt "```")%list.

End Agents.

(* ===================================================================== *)
(** * pipeline_runner.py: the OCR of the pages *)
(* ===================================================================== *)

Module Ocr.
Import Py Eff State.

Definition lf : string := String "010" "".

(** [f"\n\n--- Page {page_num_1} ---\n\n{content}"]. *)
Definition page_block (page_num_1 : nat) (content : string) : string :=
  (lf ++ lf ++ "--- Page " ++ show_nat page_num_1 ++ " ---" ++ lf ++ lf ++ content)%string.

(** [all_text], [failed_pages], and the requests made. *)
Record progress : Type := mkProgress
  { all_text : list string;
    failed_pages : list nat;
    requests : list event }.

Section Convert.

(** Rendering the page to an image and encoding it works, or raises. *)
Variable renders : nat -> bool.
(** The exchange for a page at an attempt: the text the f-string puts for
    [content], or [None] when anything in the [try] raised (no connection,
    an error status, a body that is no JSON or lacks the path to the
    content). *)
Variable reply : nat -> nat -> option string.

(** The loop [for attempt in range(MAX_RETRIES)] for one page. *)
Fixpoint page_attempts (page_num : nat) (todo : list nat) (acc : progress)
  : progress :=
  match todo with
  | [] => acc
  | attempt :: rest =>
      let asked := requests acc ++ [EvHttp attempt] in
      match reply page_num attempt with
      | Some content =>
          mkProgress (all_text acc ++ [page_block (page_num + 1) content])
                     (failed_pages acc) asked
      | None =>
          if (attempt <? MAX_RETRIES - 1)%nat
          then page_attempts page_num rest
                 (mkProgress (all_text acc) (failed_pages acc) asked)
          else page_attempts page_num rest
                 (mkProgress (all_text acc) (failed_pages acc ++ [page_num + 1]) asked)
      end
  end.

(** The loop [for page_num in range(len(doc))]. *)
Fixpoint convert_pages (todo : list nat) (acc : progress) : progress :=
  match todo with
  | [] => acc
  | page_num :: rest =>
      convert_pages rest
        (if renders page_num
         then page_attempts page_num (seq 0 MAX_RETRIES) acc
         else mkProgress (all_text acc) (failed_pages acc ++ [page_num + 1])
                         (requests acc))
  end.

(** [_run_ocr_sync(output_path)] for a PDF that exists or not and, opened,
    has [pages] pages: what it returns, the files, and the requests. *)
Definition _run_ocr_sync (pdf_exists : bool) (pages : nat) (output_path : string)
  (fs : store) : bool * store * list event :=
  if negb pdf_exists then (false, fs, [])
  else
    let done := convert_pages (seq 0 pages) (mkProgress [] [] []) in
    (Nat.eqb (List.length (failed_pages done)) 0,
     fs_write fs output_path (TextFile (txt (String.concat "" (all_text done)))),
     requests done).

(** How many of the attempts [todo] a page takes: they stop with the
    first answer. *)
Fixpoint attempts_taken (page_num : nat) (todo : list nat) : nat :=
  match todo with
  | [] => 0
  | attempt :: rest =>
      S (match reply page_num attempt with
         | Some _ => 0
         | None => attempts_taken page_num rest
         end)
  end.

(** The requests made for a page: none when it cannot be rendered. *)
Definition asked (page_num : nat) : list event :=
  if renders page_num
  then map EvHttp (seq 0 (attempts_taken page_num (seq 0 MAX_RETRIES)))
  else [].

(** The first answer a page gets within the budget of attempts, if it can
    be rendered and gets one. *)
Definition first_answer (page_num : nat) : option string :=
  if renders page_num
  then fold_right (fun attempt later =>
                     match reply page_num attempt with
                     | Some content => Some content
                     | None => later
                     end)
                  None (seq 0 MAX_RETRIES)
  else None.

(** The blocks of the pages that got an answer, in page order. *)
Definition converted (pages : list nat) : list string :=
  flat_map (fun page_num => match first_answer page_num with
                            | Some content => [page_block (page_num + 1) content]
                            | None => []
                            end) pages.

(** The 1-based numbers of the pages that got none. *)
Definition unconverted (pages : list nat) : list nat :=
  flat_map (fun page_num => match first_answer page_num with
                            | Some _ => []
                            | None => [page_num + 1]
                            end) pages.

End Convert.

End Ocr.

(* ===================================================================== *)
(** * run_pipeline.py: show_summary, and main once the markdown is there *)
(* ===================================================================== *)

Module Cli.
Import Py Eff State Driver Orchestrator Lifecycle.
Local Open Scope driver_scope.
Local Open Scope string_scope.

(** [state.<name>] for a name that is no attribute of the class: the
    field, or an attribute set on the instance, or an AttributeError. *)
Definition get_attribute (obj : instance) (name : string) : string + pyval :=
  match get_field (fst obj) name with
  | Some v => inr v
  | None =>
      match dict_get (snd obj) name with
      | Some v => inr v
      | None => inl ("'PipelineState' object has no attribute '" ++ name ++ "'")
      end
  end.

(** A cell of the table: a text, or [str(v)] of a value. *)
Inductive cell : Type :=
| Text (s : string)
| Str (v : pyval).

(** What [Table.add_row] accepts unconverted: a str, or [None] for an empty
    cell. *)
Definition renderable (v : pyval) : string + cell :=
  match v with
  | VStr s => inr (Text s)
  | VNone => inr (Text "")
  | _ => inl ("unable to render " ++ type_name v
              ++ "; a string or other renderable object is required")
  end.

(** [x / name] for a decoded value [x]. *)
Definition truediv (x : pyval) (name : string) : string + string :=
  inl ("unsupported operand type(s) for /: '" ++ type_name x ++ "' and 'str'").

Definition then_ {A B} (r : string + A) (k : A -> string + B) : string + B :=
  match r with
  | inr a => k a
  | inl e => inl e
  end.

(** [show_summary(state)]: the rows of the table it prints. *)
Definition show_summary (state : instance) : string + list (string * cell) :=
  then_ (get_attribute state "source_file") (fun source =>
  then_ (renderable source) (fun source =>
  then_ (get_attribute state "output_dir") (fun output =>
  then_ (get_attribute state "completed_agents") (fun completed =>
  then_ (py_len completed) (fun n_completed =>
  then_ (get_attribute state "errors") (fun errs =>
  then_ (py_len errs) (fun n_errors =>
  let rows := [ ("Source", source); ("Output", Str output);
                ("Agents", Text (show_nat n_completed ++ "/4 completed"));
                ("Errors", Text (show_nat n_errors)) ] in
  then_ (get_attribute state "structured_v0") (fun v0 =>
  then_ (if truthy v0
         then then_ (py_get v0 "sections" (VList [])) (fun sections =>
              then_ (py_len sections) (fun n =>
              inr (rows ++ [("Sections", Text (show_nat n))])%list))
         else inr rows) (fun rows =>
  then_ (get_attribute state "structured_v1") (fun v1 =>
  then_ (if truthy v1
         then then_ (py_get v1 "normalization_issues" (VList [])) (fun issues =>
              then_ (py_len issues) (fun n =>
              inr (rows ++ [("Normalization Issues", Text (show_nat n))])%list))
         else inr rows) (fun rows =>
  then_ (get_attribute state "db_ready") (fun db =>
  then_ (if truthy db
         then then_ (py_get db "mapping_metadata" (VDict [])) (fun meta =>
              then_ (py_get meta "records_processed" (VInt 0)) (fun records =>
              inr (rows ++ [("Records", Str records)])%list))
         else inr rows) (fun rows =>
  then_ (get_attribute state "output_dir") (fun output =>
  then_ (truediv output "checkpoints") (fun _ =>
  then_ (get_attribute state "output_dir") (fun output =>
  then_ (truediv output "final") (fun _ =>
  inr rows))))))))))))))))).

(** The state object names the same source file. *)
Definition same_source (s s' : dstate) : Prop :=
  source_file (st s') = source_file (st s).

Definition no_output_dir : string :=
  "'PipelineState' object has no attribute 'output_dir'".

Section Main.

Variable run_agent : string -> nat -> pyval -> agent_out.
Variable now : nat -> string.
Variable generate_markdown_report : pyval -> string + str.
Variable read_text : string -> string + string.
(** [get_output_dir] gave a directory. *)
Variable output_dir : string.

(** [main] from [orchestrator = Orchestrator(output_dir)] on, for the
    markdown file at [md_path]: the exit status. *)
Definition main_agents (md_path : string) : M Z :=
  initialised <- initialize now (Some output_dir) read_text md_path ;;
  if negb initialised then ret 1%Z
  else
    finished <- run_pipeline run_agent now generate_markdown_report (Some output_dir) ;;
    if (finished : bool) then
      s <- get_state ;;
      _ <- lift (show_summary (s, [])) ;;
      ret 0%Z
    else ret 1%Z.

End Main.

End Cli.

(* ===================================================================== *)
(** * What one stage hands to the next *)
(* ===================================================================== *)

Module Handoff.
Import Py Eff State Driver.
Local Open Scope string_scope.

Definition is_agent (e : event) : bool :=
  match e with EvAgent _ _ _ => true | _ => false end.

(** An invocation of [name] returned [result], with a true success
    marker. *)
Definition produced (name : string) (result : pyval) (evs : list event) : Prop :=
  exists input,
    In (EvAgent name input (AgentReturn result)) evs /\ success_marker result = true.

(** What [name] may be invoked on, given what was invoked [before]:
    normalization on the [extracted_fields] of a result of structuring,
    layout on the [normalized_data] of a result of normalization, human
    review on a result of layout; structuring on anything. *)
Definition given (name : string) (input : pyval) (before : list event) : Prop :=
  if String.eqb name "normalization" then
    exists result, produced "structuring" result before /\
                   py_get result "extracted_fields" (VDict []) = inr input
  else if String.eqb name "layout" then
    exists result, produced "normalization" result before /\
                   py_get result "normalized_data" (VDict []) = inr input
  else if String.eqb name "human_review" then produced "layout" input before
  else True.

(** Every invocation among [evs] is on what the invocations before it
    allow. *)
Definition handed_over (evs : list event) : Prop :=
  forall before name input out after,
    evs = (before ++ EvAgent name input out :: after)%list -> given name input before.

(** The state holds, as the output of the stage [name], a result the agent
    returned with success. *)
Definition made (name : string) (s : dstate) : Prop :=
  if String.eqb name "structuring" then
    produced "structuring" (structured_v0 (st s)) (trace s)
  else if String.eqb name "normalization" then
    produced "normalization" (structured_v1 (st s)) (trace s)
  else if String.eqb name "layout" then
    produced "layout" (db_ready (st s)) (trace s)
  else True.

Definition flowing (done : list string) (s : dstate) : Prop :=
  handed_over (trace s) /\ forall name, In name done -> made name s.

(** The stage whose output [name] is invoked on. *)
Definition feeds (name : string) : option string :=
  if String.eqb name "normalization" then Some "structuring"
  else if String.eqb name "layout" then Some "normalization"
  else if String.eqb name "human_review" then Some "layout"
  else None.

Definition fed (name : string) (done : list string) : Prop :=
  match feeds name with
  | Some before => In before done
  | None => True
  end.

(** The stages [todo] can follow the stages [done]: each is new and fed. *)
Fixpoint chained (done todo : list string) : Prop :=
  match todo with
  | [] => True
  | name :: rest => ~ In name done /\ fed name done /\ chained (name :: done) rest
  end.

Definition outputs (x : PipelineState) : pyval * pyval * pyval :=
  (structured_v0 x, structured_v1 x, db_ready x).

(** No agent was invoked and no output of a stage was changed. *)
Definition calm (s s' : dstate) : Prop :=
  outputs (st s') = outputs (st s) /\
  exists evs, trace s' = (trace s ++ evs)%list /\ forallb (fun e => negb (is_agent e)) evs = true.

End Handoff.

(* ===================================================================== *)
(** * Properties *)
(* ===================================================================== *)

Import Py Json Re Eff.

(** ** state_manager.py *)

Section CheckpointStore.
Import State.
Local Open Scope string_scope.

Lemma fs_read_write (fs : store) (path : string) (f : file) :
  fs_read (fs_write fs path f) path = Some f.
Proof.
  induction fs as [|[p f'] fs IH]; simpl.
  - now rewrite String.eqb_refl.
  - destruct (String.eqb path p) eqn:E; simpl; rewrite E; auto.
Qed.

Lemma from_dict_to_dict (s : PipelineState) (t_created t_updated : string) :
  from_dict (to_dict s) t_created t_updated = Returned (s, []).
Proof. destruct s; reflexivity. Qed.

(** C9. [save_checkpoint] changes no field of the state it is given other
    than [updated_at]: [source_file], [current_agent], [checkpoint_file],
    [retry_count], [errors], [completed_agents], [raw_text], the four stage
    outputs and [created_at] are what they were, whatever the manager, the
    file name, the clock and the files. *)
Theorem save_checkpoint_frame
  (self : StateManager) (state : PipelineState) (filename now : string) (fs : store) :
  let state' := snd (fst (save_checkpoint self state filename now fs)) in
  source_file state' = source_file state /\
  current_agent state' = current_agent state /\
  checkpoint_file state' = checkpoint_file state /\
  retry_count state' = retry_count state /\
  errors state' = errors state /\
  completed_agents state' = completed_agents state /\
  raw_text state' = raw_text state /\
  structured_v0 state' = structured_v0 state /\
  structured_v1 state' = structured_v1 state /\
  db_ready state' = db_ready state /\
  review_report state' = review_report state /\
  created_at state' = created_at state.
Proof.
  unfold save_checkpoint.
  destruct (checkpoint_dir self); simpl; repeat split; reflexivity.
Qed.

(** *** [from_dict] *)

Lemma is_field_cases (k : string) :
  is_field k = true ->
  In k field_names.
Proof.
  unfold is_field. rewrite existsb_exists. intros [x [Hin Heq]].
  apply String.eqb_eq in Heq. now subst.
Qed.

Lemma get_set_same (s : PipelineState) (k : string) (v : pyval) :
  is_field k = true -> get_field (set_field s k v) k = Some v.
Proof.
  intros H. apply is_field_cases in H. simpl in H.
  repeat (destruct H as [<- | H]; [reflexivity|]). contradiction.
Qed.

Lemma get_set_other (s : PipelineState) (k k' : string) (v : pyval) :
  k <> k' -> get_field (set_field s k' v) k = get_field s k.
Proof.
  intros Hne. unfold set_field.
  repeat match goal with
  | |- context [if String.eqb k' ?c then _ else _] =>
      let E := fresh "E" in
      destruct (String.eqb k' c) eqn:E;
      [ apply String.eqb_eq in E; subst k'; unfold get_field;
        repeat match goal with
        | |- context [if String.eqb k ?d then _ else _] =>
            let F := fresh "F" in
            destruct (String.eqb k d) eqn:F;
            [ try reflexivity; apply String.eqb_eq in F; congruence | ]
        end; reflexivity
      | ]
  end.
  reflexivity.
Qed.

Lemma not_field_get (s : PipelineState) (k : string) :
  is_field k = false -> get_field s k = None.
Proof.
  unfold is_field, field_names, get_field. simpl. intros H.
  repeat match goal with
  | |- context [if String.eqb k ?d then _ else _] =>
      destruct (String.eqb k d); [simpl in H; discriminate|]
  end.
  reflexivity.
Qed.

Lemma dict_get_absent (d : dict) (k : string) :
  ~ In k (map fst d) -> dict_get d k = None.
Proof.
  induction d as [|[k' v] d IH]; simpl; auto.
  intros H. destruct (String.eqb k k') eqn:E.
  - apply String.eqb_eq in E. subst. tauto.
  - apply IH. tauto.
Qed.

(** The loop of [from_dict] over well-behaved items. *)
Lemma from_dict_items_fields (items : dict) :
  forall (s : PipelineState) (shadow : dict),
  (forall k v, In (k, v) items -> is_field k = true \/ hasattr k = false) ->
  NoDup (map fst items) ->
  exists s',
    from_dict_items items (s, shadow) = Returned (s', shadow) /\
    forall k, get_field s' k =
              match dict_get items k with
              | Some v => if is_field k then Some v else None
              | None => get_field s k
              end.
Proof.
  induction items as [|[key value] rest IH]; intros s shadow Hkeys Hnd.
  - exists s. split; reflexivity.
  - simpl in Hnd. inversion Hnd as [|? ? Hnotin Hnd']; subst.
    assert (Hrest : forall k v, In (k, v) rest -> is_field k = true \/ hasattr k = false)
      by (intros; eapply Hkeys; right; eauto).
    destruct (Hkeys key value (or_introl eq_refl)) as [Hf | Hno].
    + simpl. unfold hasattr. rewrite Hf. simpl.
      destruct (IH (set_field s key value) shadow Hrest Hnd') as [s' [Hrun Hget]].
      exists s'. split; [exact Hrun|].
      intros k. rewrite Hget. destruct (String.eqb k key) eqn:E.
      * apply String.eqb_eq in E. subst k.
        rewrite (dict_get_absent rest key Hnotin), Hf.
        now apply get_set_same.
      * apply String.eqb_neq in E.
        destruct (dict_get rest k); [reflexivity|].
        now apply get_set_other.
    + simpl. rewrite Hno.
      destruct (IH s shadow Hrest Hnd') as [s' [Hrun Hget]].
      exists s'. split; [exact Hrun|].
      intros k. rewrite Hget. destruct (String.eqb k key) eqn:E.
      * apply String.eqb_eq in E. subst k.
        rewrite (dict_get_absent rest key Hnotin).
        unfold hasattr in Hno. apply orb_false_iff in Hno. destruct Hno as [Hnf _].
        rewrite Hnf. now apply not_field_get.
      * reflexivity.
Qed.

(** C10, as the code has it. [from_dict] filters keys with [hasattr], which
    holds for every attribute of the object and not just for the fields.
    For every dict (keys distinct) none of whose keys names a non-field
    attribute (a method such as [to_dict], or an inherited attribute such as
    [__class__]), [from_dict] raises nothing and sets nothing but fields:
    a field present in the dict gets the dict's value, a field absent from
    it keeps its default, and the other keys are ignored. *)
Theorem from_dict_ignores_unknown_keys
  (data : dict) (t_created t_updated : string) :
  NoDup (map fst data) ->
  (forall k v, In (k, v) data -> is_field k = true \/ hasattr k = false) ->
  exists s,
    from_dict data t_created t_updated = Returned (s, []) /\
    forall k, is_field k = true ->
      get_field s k =
      match dict_get data k with
      | Some v => Some v
      | None => get_field (new_state t_created t_updated) k
      end.
Proof.
  intros Hnd Hkeys.
  destruct (from_dict_items_fields data (new_state t_created t_updated) [] Hkeys Hnd)
    as [s [Hrun Hget]].
  exists s. split; [exact Hrun|].
  intros k Hk. rewrite Hget, Hk. reflexivity.
Qed.

Lemma from_dict_ignores_unknown_keys_witness :
  exists s,
    from_dict partial_checkpoint "t0" "t1" = Returned (s, []) /\
    forall k, is_field k = true ->
      get_field s k =
      match dict_get partial_checkpoint k with
      | Some v => Some v
      | None => get_field (new_state "t0" "t1") k
      end.
Proof.
  apply (from_dict_ignores_unknown_keys partial_checkpoint "t0" "t1").
  - repeat constructor; simpl; intuition discriminate.
  - intros k v [H | [H | []]]; inversion H; subst; [left | right]; reflexivity.
Defined.

(** C10 as stated fails: a key that names no field is not always ignored.
    [__class__] passes the [hasattr] filter and [setattr] raises on it;
    [to_dict] passes it too and ends up set on the object, over the
    method. *)
Lemma from_dict_non_field_keys :
  is_field "__class__" = false /\
  from_dict [("__class__", VStr "PipelineState")] "t0" "t1"
    = Raised "TypeError" "__class__ must be set to a class, not 'str' object" /\
  is_field "to_dict" = false /\
  from_dict [("to_dict", VInt 1)] "t0" "t1"
    = Returned (new_state "t0" "t1", [("to_dict", VInt 1)]).
Proof. repeat split. Qed.

End CheckpointStore.

(** ** state_manager.py: the checkpoint as json.dump writes it *)

Section CheckpointCodec.
Import State Codec.
Local Open Scope string_scope.

Variable limit : pyobj -> option string.

Lemma dict_set_absent (d : dict) (k : string) (v : pyval) :
  ~ In k (map fst d) -> dict_set d k v = (d ++ [(k, v)])%list.
Proof.
  induction d as [|[k' v'] d IH]; cbn; [reflexivity|]. intros H.
  destruct (String.eqb_spec k k') as [->|Hne]; [tauto|].
  rewrite IH; tauto.
Qed.

Lemma existsb_eqb_in (k : string) (l : list string) :
  existsb (String.eqb k) l = true <-> In k l.
Proof.
  rewrite existsb_exists. split.
  - intros [x [Hin Heq]]. apply String.eqb_eq in Heq. now subst.
  - intros Hin. exists k. split; [exact Hin | apply String.eqb_refl].
Qed.

(** A plain object is read back as the value it is. *)
Lemma reread_plain : forall o : pyobj,
  plain o = true -> exists v, reread o = inr v /\ embed v = o.
Proof.
  fix IH 1. intros o.
  destruct o as [| b | z | m e | | negative | s | l | l | d | t];
    cbn [plain]; intros H; try discriminate H;
    try (eexists; split; reflexivity).
  - cbn [reread].
    match goal with
    | |- context [match ?items l with inl _ => _ | inr _ => _ end] =>
        assert (Hl : exists vs, items l = inr vs /\ map embed vs = l)
    end.
    { induction l as [|x rest IHl]; [exists []; split; reflexivity|].
      cbn [forallb] in H. apply andb_true_iff in H. destruct H as [Hx Hr].
      destruct (IH x Hx) as [v [Hv Ev]]. destruct (IHl Hr) as [vs [Hvs Evs]].
      exists (v :: vs). rewrite Hv, Hvs. split; [reflexivity|].
      cbn [map]. now rewrite Ev, Evs. }
    destruct Hl as [vs [Hvs Evs]]. exists (VList vs). rewrite Hvs.
    split; [reflexivity|]. cbn [embed]. now rewrite Evs.
  - cbn [reread]. apply andb_true_iff in H. destruct H as [Hall Hkeys].
    match goal with
    | |- context [match ?entries d [] with inl _ => _ | inr _ => _ end] =>
        assert (Hd : forall read : dict,
                  (forall k, In k (map fst read) ->
                             ~ In k (flat_map (fun kv => match str_key (fst kv) with
                                                         | Some s => [s]
                                                         | None => []
                                                         end) d)) ->
                  exists vs, entries d read = inr (read ++ vs)%list /\
                             map (fun kv => (KStr (fst kv), embed (snd kv))) vs = d)
    end.
    { induction d as [|[k x] rest IHd]; intros read Hfresh.
      - exists []. rewrite app_nil_r. split; reflexivity.
      - cbn [forallb fst snd] in Hall. apply andb_true_iff in Hall.
        destruct Hall as [Hx Hrest].
        destruct k as [s| | |]; cbn [str_key] in Hx; try discriminate Hx.
        cbn [flat_map fst str_key app distinct] in Hkeys, Hfresh.
        apply andb_true_iff in Hkeys. destruct Hkeys as [Hnew Hkeys].
        apply negb_true_iff in Hnew.
        destruct (IH x Hx) as [v [Hv Ev]]. rewrite Hv. cbn [key_text].
        assert (Hs : ~ In s (map fst read)).
        { intros Hin. apply (Hfresh s Hin). now left. }
        rewrite (dict_set_absent read s v Hs).
        destruct (IHd Hrest Hkeys (read ++ [(s, v)])%list) as [vs [Hvs Evs]].
        { intros k Hin Hk. rewrite map_app in Hin. apply in_app_or in Hin.
          destruct Hin as [Hin | [<- | []]].
          - apply (Hfresh k Hin). now right.
          - apply existsb_eqb_in in Hk. cbn [fst] in Hk. congruence. }
        exists ((s, v) :: vs). rewrite Hvs, <- app_assoc. split; [reflexivity|].
        cbn [map fst snd]. now rewrite Ev, Evs. }
    destruct (Hd [] (fun k Hin => match Hin with end)) as [vs [Hvs Evs]].
    exists (VDict vs). rewrite Hvs. split; [reflexivity|].
    cbn [embed]. now rewrite Evs.
Qed.

(** The document of a state whose fields can all be written. *)
Lemma reread_asdict (state : fields) :
  (forall k, In k field_names -> exists v, reread (state k) = inr v) ->
  reread (asdict state) = inr (VDict (to_dict (reloaded state))).
Proof.
  intros H. unfold asdict, reloaded, read_back, to_dict, field_names.
  cbn [map reread key_text].
  repeat match goal with
  | |- context [reread (state ?k)] =>
      let v := fresh "v" in let Hv := fresh "Hv" in
      destruct (H k) as [v Hv]; [cbn; tauto|]; rewrite !Hv
  end.
  reflexivity.
Qed.

Lemma reloaded_field (state : fields) (k : string) :
  In k field_names -> get_field (reloaded state) k = Some (read_back (state k)).
Proof.
  intros Hin. cbn in Hin.
  repeat (destruct Hin as [<- | Hin]; [reflexivity|]). contradiction.
Qed.

(** C8, as the code has it.  With a storage root configured and for every
    state object whose fields all hold plain objects (what [json.load]
    itself returns: [None], bools, ints, floats other than NaN, strs, lists
    of these and dicts of these under str keys) and which is within the
    limits of the interpreter, the save raises nothing, the load raises
    nothing and sets nothing but the fields, and the loaded state is equal,
    field for field, to the state object as the save left it: the state
    before the call with [updated_at] set to the time of the save. *)
Theorem plain_checkpoint_round_trip
  (dir : string) (state : fields) (filename now : string) (fs : store)
  (t_created t_updated : string) :
  (forall k, In k field_names -> plain (state k) = true) ->
  limit (asdict (assign state "updated_at" (OStr now))) = None ->
  let self := new_manager (Some dir) in
  exists state' fs' loaded,
    save_checkpoint limit self state filename now fs
      = inr (Some (join (join dir "checkpoints") filename), state', fs') /\
    (forall k, state' k = if String.eqb k "updated_at" then OStr now else state k) /\
    load_checkpoint self fs' filename t_created t_updated
      = Returned (Some (loaded, [])) /\
    forall k, In k field_names -> option_map embed (get_field loaded k) = Some (state' k).
Proof.
  intros Hplain Hlimit. cbv zeta.
  set (state' := assign state "updated_at" (OStr now)) in *.
  assert (Hplain' : forall k, In k field_names -> plain (state' k) = true).
  { intros k Hin. unfold state', assign.
    destruct (String.eqb k "updated_at"); [reflexivity | now apply Hplain]. }
  assert (Hread : forall k, In k field_names ->
                    reread (state' k) = inr (read_back (state' k)) /\
                    embed (read_back (state' k)) = state' k).
  { intros k Hin. destruct (reread_plain _ (Hplain' k Hin)) as [v [Hv Ev]].
    unfold read_back. rewrite Hv. split; [reflexivity | exact Ev]. }
  exists state', (fs_write fs (join (join dir "checkpoints") filename)
                          (JsonFile (VDict (to_dict (reloaded state'))))),
         (reloaded state').
  split; [|split; [|split]].
  - unfold save_checkpoint, new_manager. cbn [checkpoint_dir option_map]. fold state'.
    rewrite Hlimit. rewrite reread_asdict; [reflexivity|].
    intros k Hin. eexists. apply (Hread k Hin).
  - intros k. reflexivity.
  - unfold load_checkpoint, new_manager. cbn [checkpoint_dir option_map].
    rewrite fs_read_write. now rewrite from_dict_to_dict.
  - intros k Hin. rewrite (reloaded_field state' k Hin). cbn [option_map].
    f_equal. apply (Hread k Hin).
Qed.

End CheckpointCodec.

(** A freshly constructed state, in an interpreter that lets [json.dump]
    descend a hundred levels. *)
Lemma plain_checkpoint_round_trip_witness :
  exists state' fs' loaded,
    Codec.save_checkpoint (Codec.recursion_limit 100)
       (State.new_manager (Some "out"%string))
       (Codec.of_state (State.new_state "t0" "t0")) "raw_text.json" "t1" []
      = inr (Some (State.join (State.join "out" "checkpoints") "raw_text.json"),
             state', fs') /\
    (forall k, state' k = if String.eqb k "updated_at" then Codec.OStr "t1"
                          else Codec.of_state (State.new_state "t0" "t0") k) /\
    State.load_checkpoint (State.new_manager (Some "out"%string)) fs' "raw_text.json"
                          "t2" "t3"
      = State.Returned (Some (loaded, [])) /\
    forall k, In k State.field_names ->
      option_map Codec.embed (State.get_field loaded k) = Some (state' k).
Proof.
  apply (plain_checkpoint_round_trip (Codec.recursion_limit 100) "out"
           (Codec.of_state (State.new_state "t0" "t0"))
           "raw_text.json" "t1" [] "t2" "t3").
  - intros k Hin. cbn in Hin.
    repeat (destruct Hin as [<- | Hin]; [reflexivity|]). contradiction.
  - reflexivity.
Defined.

(** C8 as stated fails: a tuple and a dict with an int for a key are
    JSON-serializable, the save and the load raise nothing, but the tuple
    comes back as a list and the key as a str, so the loaded field is not
    equal to the one that was saved. *)
Lemma tuple_is_loaded_as_list :
  let self := State.new_manager (Some "out"%string) in
  let limit := Codec.recursion_limit 100 in
  (exists state' fs' loaded,
     Codec.save_checkpoint limit self Codec.with_tuple "failed_layout.json" "t1" []
       = inr (Some "out/checkpoints/failed_layout.json"%string, state', fs') /\
     State.load_checkpoint self fs' "failed_layout.json" "t2" "t3"
       = State.Returned (Some (loaded, [])) /\
     state' "errors"%string = Codec.OTuple [Codec.OStr "layout: boom"] /\
     State.errors loaded = VList [VStr "layout: boom"] /\
     Codec.embed (State.errors loaded) <> state' "errors"%string) /\
  (exists state' fs' loaded,
     Codec.save_checkpoint limit self Codec.with_int_key "structured_v0.json" "t1" []
       = inr (Some "out/checkpoints/structured_v0.json"%string, state', fs') /\
     State.load_checkpoint self fs' "structured_v0.json" "t2" "t3"
       = State.Returned (Some (loaded, [])) /\
     state' "structured_v0"%string = Codec.ODict [(Codec.KInt 1, Codec.OStr "first")] /\
     State.structured_v0 loaded = VDict [("1"%string, VStr "first")] /\
     Codec.embed (State.structured_v0 loaded) <> state' "structured_v0"%string).
Proof.
  cbv zeta. split; eexists; eexists; eexists.
  - split; [vm_compute; reflexivity|]. split; [vm_compute; reflexivity|].
    repeat split. discriminate.
  - split; [vm_compute; reflexivity|]. split; [vm_compute; reflexivity|].
    repeat split. discriminate.
Qed.

(** ** regolo_client.py *)

Section TransportRetry.
Import Client.

Lemma retry_loop_rate_limited (http : nat -> http_reply) (m : Z) :
  forall (n k len : nat) (content : str),
  (forall j, j < n -> exists msg, http (k + j) = ConnectionFailed msg) ->
  http (k + n) = Response 429 content ->
  (Z.of_nat (k + n) < m)%Z -> n < len ->
  retry_loop http m (seq k len)
    = ((None, Some rate_limit_message), retried k n ++ [EvHttp (k + n)]).
Proof.
  induction n as [|n IH]; intros k len content Hfail Hlim Hm Hlen.
  - destruct len as [|len]; [lia|]. simpl.
    rewrite Nat.add_0_r in Hlim. unfold chat. rewrite Hlim. simpl.
    now rewrite Nat.add_0_r.
  - destruct len as [|len]; [lia|]. simpl.
    destruct (Hfail 0 ltac:(lia)) as [msg Hmsg]. rewrite Nat.add_0_r in Hmsg.
    unfold chat at 1. rewrite Hmsg. simpl.
    replace (Z.of_nat k <? m - 1)%Z with true by (symmetry; apply Z.ltb_lt; lia).
    rewrite (IH (S k) len content).
    + replace (S k + n) with (k + S n) by lia. reflexivity.
    + intros j Hj. replace (S k + j) with (k + S j) by lia. apply Hfail. lia.
    + replace (S k + n) with (k + S n) by lia. exact Hlim.
    + lia.
    + lia.
Qed.

(** C3, as the code has it. A 429 answer is not retried: [_make_request]
    raises a plain [Exception] for it, which the second handler of
    [call_with_retry] turns into a terminal [(None, message)] at once.
    Whatever budget remains, after [n] network failures (each retried after
    its backoff sleep) a 429 answer ends the call with the rate-limit
    message: the trace stops at that exchange, with no sleep and no further
    exchange after it. *)
Theorem rate_limit_is_terminal
  (http : nat -> http_reply) (max_retries : option Z) (n : nat) (content : str) :
  (forall j, j < n -> exists msg, http j = ConnectionFailed msg) ->
  http n = Response 429%Z content ->
  (Z.of_nat n < retry_budget max_retries)%Z ->
  call_with_retry http max_retries
    = ((None, Some rate_limit_message), retried 0 n ++ [EvHttp n]).
Proof.
  intros Hfail Hlim Hn. unfold call_with_retry.
  apply (retry_loop_rate_limited http _ n 0 _ content); try assumption; lia.
Qed.

Lemma rate_limit_is_terminal_witness :
  call_with_retry down_then_limited None
    = ((None, Some rate_limit_message), retried 0 1 ++ [EvHttp 1]).
Proof.
  apply (rate_limit_is_terminal down_then_limited None 1 []).
  - intros j Hj. exists "connection reset"%string.
    destruct j; [reflexivity | lia].
  - reflexivity.
  - cbn. lia.
Defined.

(** C3 as stated fails: the first exchange is answered 429 with two of the
    three attempts left and the next answer would be a success, yet the call
    returns the terminal error after that one exchange, without sleeping. *)
Lemma rate_limit_not_retried :
  limited_once 0 = Response 429 [] /\
  _make_request (limited_once 1) = inr (VDict []) /\
  MAX_RETRIES = 3 /\
  call_with_retry limited_once None
    = ((None, Some rate_limit_message), [EvHttp 0]).
Proof. repeat split. Qed.

End TransportRetry.

(** ** agents/layout_agent.py: the order of the repair passes *)

Section RepairOrder.
Import Layout.

(** C5, as the code has it. [repair_json] trims the text, then removes line
    comments, then block comments, then trailing commas, then leading commas,
    then dangling keys, then requotes double- and single-quoted pairs, and
    only then strips the fence (a [```json] opener, a closing fence, a bare
    opener, a closing fence again) and trims; [extract_json_from_text] runs
    it on the trimmed text before the strict parse, the parse of the first
    brace-delimited span, and the empty dict. *)
Theorem repair_json_pass_order (text : str) :
  repair_json text =
    strip (strip_fence_close (strip_fence_open (strip_fence_close
      (strip_fence_json_open
        (requote_single (requote_double
          (remove_dangling_keys
            (remove_leading_commas (remove_trailing_commas
              (remove_block_comments (remove_line_comments
                (strip text)))))))))))) /\
  extract_json_from_text text =
    match json_loads (repair_json (strip text)) with
    | Some v => v
    | None =>
        match search brace_span (repair_json (strip text)) with
        | Some caps =>
            match json_loads (group 1 caps) with
            | Some v => v
            | None => sentinel
            end
        | None => sentinel
        end
    end.
Proof. split; reflexivity. Qed.

(** C5 as stated fails: with the fence stripped first, as documented, a
    comment after the closing fence keeps the fence from being at the end of
    the text, and the fence survives; the code removes the comment first and
    so strips the fence. *)
Lemma documented_order_differs :
  repair_json fenced_then_comment = quoted "{@a@: 1}" /\
  repair_json_documented_order fenced_then_comment = quoted "{@a@: 1}$```".
Proof. split; vm_compute; reflexivity. Qed.

End RepairOrder.

(** ** json.loads and surrounding blanks *)

Section JsonBlanks.

Ltac split_ifs H :=
  repeat match type of H with
         | context [if ?b then _ else _] => destruct b eqn:?
         end.

Ltac by_char c := destruct c as [[] [] [] [] [] [] [] []].

Lemma lex_top_lit_ok (c : ascii) (st : lstate) (toks : list token) :
  lex_top c = Some (st, toks) -> lit_ok st = true.
Proof.
  unfold lex_top. intros H. split_ifs H; inversion H; reflexivity.
Qed.

Lemma lex_step_lit_ok (st st' : lstate) (c : ascii) (toks : list token) :
  lit_ok st = true -> lex_step st c = Some (st', toks) -> lit_ok st' = true.
Proof.
  intros Hok H. destruct st as [|acc|acc|acc todo code|ns a|expect v]; simpl in H.
  - eapply lex_top_lit_ok; eauto.
  - split_ifs H; inversion H; reflexivity.
  - unfold lex_escape in H. split_ifs H; inversion H; reflexivity.
  - destruct (hex_val c); [|discriminate].
    destruct todo as [|[|todo]]; [discriminate| |].
    + split_ifs H; inversion H; reflexivity.
    + inversion H; reflexivity.
  - destruct ns; simpl in H; unfold finish_num in H;
      split_ifs H; try discriminate;
      try (inversion H; reflexivity);
      destruct (lex_top c) as [[st0 toks0]|] eqn:E; try discriminate;
      inversion H; subst; eapply lex_top_lit_ok; eauto.
  - destruct expect as [|x rest]; [discriminate|].
    destruct (Ascii.eqb c x); [|discriminate].
    simpl in Hok. apply andb_true_iff in Hok. destruct Hok as [_ Hrest].
    destruct rest; inversion H; subst; auto.
Qed.

(** A blank between tokens is one of the decoder's four blanks, and reads
    as nothing. *)
Lemma lex_top_space (c : ascii) (st : lstate) (toks : list token) :
  isspace c = true -> lex_top c = Some (st, toks) -> st = LTop /\ toks = [].
Proof.
  by_char c; intros Hs H; try discriminate Hs;
    vm_compute in H; try discriminate H; inversion H; auto.
Qed.

Lemma space_ends_number (c : ascii) :
  isspace c = true ->
  Ascii.eqb c "0" = false /\ is_digit c = false /\ Ascii.eqb c "I" = false /\
  Ascii.eqb c "." = false /\ is_e c = false /\
  Ascii.eqb c "+" = false /\ Ascii.eqb c "-" = false.
Proof. by_char c; intros H; try discriminate H; repeat split; reflexivity. Qed.

Lemma space_in_string (c : ascii) (acc : str) :
  isspace c = true ->
  lex_escape acc c = None /\ hex_val c = None /\
  Ascii.eqb c dq = false /\ Ascii.eqb c backslash = false.
Proof. by_char c; intros H; try discriminate H; repeat split; reflexivity. Qed.

(** Reading a blank, then ending, is the same as ending at once. *)
Lemma lex_step_space_end (st st' : lstate) (c : ascii) (toks rest : list token) :
  lit_ok st = true -> isspace c = true ->
  lex_step st c = Some (st', toks) -> lex_end st' = Some rest ->
  lex_end st = Some (toks ++ rest).
Proof.
  intros Hok Hs H Hend.
  destruct (space_ends_number c Hs) as [N0 [N1 [N2 [N3 [N4 [N5 N6]]]]]].
  destruct (space_in_string c [] Hs) as [_ [S1 [S2 S3]]].
  destruct st as [|acc|acc|acc todo code|ns a|expect v]; cbn [lex_step] in H.
  - destruct (lex_top_space c _ _ Hs H) as [-> ->]. exact Hend.
  - rewrite S2, S3 in H.
    destruct (nat_of_ascii c <=? 31); [discriminate|].
    inversion H; subst. discriminate Hend.
  - destruct (space_in_string c acc Hs) as [E _]. rewrite E in H. discriminate.
  - rewrite S1 in H. discriminate.
  - destruct ns; cbn [lex_num] in H; unfold finish_num in H;
      rewrite ?N0, ?N1, ?N2, ?N3, ?N4, ?N5, ?N6 in H; try discriminate;
      (destruct (lex_top c) as [[st0 toks0]|] eqn:E; [|discriminate];
       destruct (lex_top_space c _ _ Hs E) as [-> ->];
       inversion H; subst; cbn [lex_end] in Hend; inversion Hend; reflexivity).
  - destruct expect as [|x rest']; [discriminate|].
    destruct (Ascii.eqb c x) eqn:E; [|discriminate].
    apply Ascii.eqb_eq in E. subst x. cbn [lit_ok forallb] in Hok.
    unfold plain in Hok. rewrite Hs in Hok. discriminate.
Qed.

Lemma lex_spaces_end (w : str) :
  forallb isspace w = true ->
  forall st ts, lit_ok st = true -> lex st w = Some ts -> lex_end st = Some ts.
Proof.
  induction w as [|c w IH]; intros Hw st ts Hok H; [exact H|].
  simpl in Hw. apply andb_true_iff in Hw. destruct Hw as [Hc Hw].
  simpl in H.
  destruct (lex_step st c) as [[st' toks]|] eqn:Hstep; [|discriminate].
  destruct (lex st' w) as [rest|] eqn:Hrest; [|discriminate].
  inversion H; subst.
  eapply lex_step_space_end; eauto.
  eapply IH; eauto. eapply lex_step_lit_ok; eauto.
Qed.

(** Trailing blanks can be dropped from a text the scan accepts. *)
Lemma lex_drop_trailing_blanks (w : str) :
  forallb isspace w = true ->
  forall x st ts, lit_ok st = true -> lex st (x ++ w) = Some ts -> lex st x = Some ts.
Proof.
  intros Hw. induction x as [|c x IH]; intros st ts Hok H.
  - simpl in *. eapply lex_spaces_end; eauto.
  - simpl in *.
    destruct (lex_step st c) as [[st' toks]|] eqn:Hstep; [|discriminate].
    destruct (lex st' (x ++ w)) as [rest|] eqn:Hrest; [|discriminate].
    rewrite (IH st' rest); auto. eapply lex_step_lit_ok; eauto.
Qed.



(** *** [strip] *)

Lemma lstrip_split (s : str) :
  exists w, s = w ++ lstrip s /\ forallb isspace w = true.
Proof.
  induction s as [|c s [w [Hs Hw]]]; [exists []; auto|].
  simpl. destruct (isspace c) eqn:E.
  - exists (c :: w). simpl. rewrite E. split; [congruence | exact Hw].
  - exists []. auto.
Qed.




Lemma rstrip_split (s : str) :
  exists w, s = rstrip s ++ w /\ forallb isspace w = true.
Proof.
  unfold rstrip. destruct (lstrip_split (rev s)) as [w [Hs Hw]].
  exists (rev w). split.
  - rewrite <- rev_app_distr, <- Hs. now rewrite rev_involutive.
  - rewrite forallb_forall in *. intros x Hx. apply Hw. now apply in_rev.
Qed.




Lemma lex_lstrip (s : str) (ts : list token) :
  lex LTop s = Some ts -> lex LTop (lstrip s) = Some ts.
Proof.
  induction s as [|c s IH]; intros H; [exact H|].
  simpl. destruct (isspace c) eqn:E; [|exact H].
  simpl in H. destruct (lex_top c) as [[st toks]|] eqn:Htop; [|discriminate].
  destruct (lex_top_space c _ _ E Htop) as [-> ->].
  destruct (lex LTop s); [|discriminate]. simpl in H. auto.
Qed.

(** The scan does not see [strip]. *)
Lemma lex_strip (s : str) (ts : list token) :
  lex LTop s = Some ts -> lex LTop (strip s) = Some ts.
Proof.
  intros H. apply lex_lstrip in H. unfold strip.
  destruct (rstrip_split (lstrip s)) as [w [Hs Hw]].
  rewrite Hs in H. eapply lex_drop_trailing_blanks; eauto.
Qed.

Lemma json_loads_strip (s : str) (v : pyval) :
  json_loads s = Some v -> json_loads (strip s) = Some v.
Proof.
  unfold json_loads. destruct (lex LTop s) as [ts|] eqn:E; [|discriminate].
  now rewrite (lex_strip s _ E).
Qed.



End JsonBlanks.

(** ** The two extraction policies on clean JSON *)

Section CleanJson.
Import Layout Structuring.




(** C4.  The repair policy damages clean JSON: the text is valid JSON and
    the simple policy returns its value, but the line-comment pass of
    [repair_json], which does not know about string literals, cuts the text
    at the [//] inside the string; nothing parses any more, and the repair
    policy returns the empty dict. *)
Lemma repair_breaks_clean_json :
  json_loads url_object = Some (VDict [("url"%string, VStr "http://x.com")]) /\
  extract_and_parse url_object = Some (VDict [("url"%string, VStr "http://x.com")]) /\
  repair_json url_object = quoted "{@url@: @http:" /\
  extract_json_from_text url_object = VDict [].
Proof. repeat split; vm_compute; reflexivity. Qed.

(** C2. A text with no brace in it that is itself a JSON document is
    returned parsed, and the result is then no dict: a list, a number. *)
Lemma extract_without_braces :
  search brace_span (quoted "[1, 2]") = None /\
  extract_json_from_text (quoted "[1, 2]") = VList [VInt 1; VInt 2] /\
  search brace_span (quoted "42") = None /\
  extract_json_from_text (quoted "42") = VInt 42 /\
  extract_json_from_text (quoted "no json here") = sentinel.
Proof. repeat split; vm_compute; reflexivity. Qed.

End CleanJson.

(** ** The driver monad *)

Section DriverLogic.
Import State Driver Observed.

(** Rules for any reflexive, transitive relation on states. *)
Section Preorder.

Context {R : dstate -> dstate -> Prop}.
Hypothesis R_refl : forall s, R s s.
Hypothesis R_trans : forall s1 s2 s3, R s1 s2 -> R s2 s3 -> R s1 s3.

Lemma respects_ret {A} (a : A) : respects R (ret a).
Proof. intros s. apply R_refl. Qed.

Lemma respects_raise {A} (e : string) : respects R (@raise A e).
Proof. intros s. apply R_refl. Qed.

Lemma respects_lift {A} (r : string + A) : respects R (lift r).
Proof. intros s. apply R_refl. Qed.

Lemma respects_get_state : respects R get_state.
Proof. intros s. apply R_refl. Qed.

Lemma respects_bind {A B} (c : M A) (k : A -> M B) :
  respects R c -> (forall a, respects R (k a)) -> respects R (bind c k).
Proof.
  intros Hc Hk s. unfold bind. specialize (Hc s).
  destruct (c s) as [[e|a] s1]; simpl in *; [exact Hc|].
  eapply R_trans; [exact Hc | apply Hk].
Qed.

Lemma respects_catch {A} (c : M A) (h : string -> M A) :
  respects R c -> (forall e, respects R (h e)) -> respects R (catch c h).
Proof.
  intros Hc Hh s. unfold catch. specialize (Hc s).
  destruct (c s) as [[e|a] s1]; simpl in *; [|exact Hc].
  eapply R_trans; [exact Hc | apply Hh].
Qed.

Lemma respects_if {A} (b : bool) (c1 c2 : M A) :
  respects R c1 -> respects R c2 -> respects R (if b then c1 else c2).
Proof. destruct b; auto. Qed.

End Preorder.

(** Ways a sequence and a handler can have run. *)
Lemma bind_inv {A B} (c : M A) (k : A -> M B) (s : dstate) (r : string + B) (s' : dstate) :
  bind c k s = (r, s') ->
  (exists e, c s = (inl e, s') /\ r = inl e) \/
  (exists a s1, c s = (inr a, s1) /\ k a s1 = (r, s')).
Proof.
  unfold bind. destruct (c s) as [[e|a] s1]; intros H.
  - inversion H; subst. left. eauto.
  - right. eauto.
Qed.

Lemma catch_inv {A} (c : M A) (h : string -> M A) (s : dstate) (r : string + A) (s' : dstate) :
  catch c h s = (r, s') ->
  (exists a, c s = (inr a, s') /\ r = inr a) \/
  (exists e s1, c s = (inl e, s1) /\ h e s1 = (r, s')).
Proof.
  unfold catch. destruct (c s) as [[e|a] s1]; intros H.
  - right. eauto.
  - inversion H; subst. left. eauto.
Qed.

Lemma true_after_intro {A} (name : string) (c : M A) (yes : A) :
  (forall s s', c s = (inr yes, s') -> agent_succeeded name (trace s')) ->
  true_after name c yes.
Proof.
  intros H s Hr. apply (H s). destruct (c s) as [r s']. simpl in *. now subst.
Qed.

Lemma true_after_elim {A} {name : string} {c : M A} {yes : A} {s s' : dstate} :
  true_after name c yes -> c s = (inr yes, s') -> agent_succeeded name (trace s').
Proof. intros H Hc. specialize (H s). rewrite Hc in H. now apply H. Qed.

Lemma respects_elim {A} {R : dstate -> dstate -> Prop} {c : M A}
  {s : dstate} {r : string + A} {s' : dstate} :
  respects R c -> c s = (r, s') -> R s s'.
Proof. intros H Hc. specialize (H s). now rewrite Hc in H. Qed.

Lemma ext_refl (s : dstate) : ext s s.
Proof. exists []. split; [now rewrite app_nil_r | reflexivity]. Qed.

Lemma ext_same_trace (s s' : dstate) : trace s' = trace s -> ext s s'.
Proof. intros H. exists []. split; [now rewrite app_nil_r | reflexivity]. Qed.

Lemma ext_trans (s1 s2 s3 : dstate) : ext s1 s2 -> ext s2 s3 -> ext s1 s3.
Proof.
  intros [e1 [H1 Q1]] [e2 [H2 Q2]]. exists (e1 ++ e2). split.
  - now rewrite H2, H1, app_assoc.
  - rewrite forallb_app, Q1, Q2. reflexivity.
Qed.

Lemma keeps_refl (s : dstate) : keeps s s.
Proof. split; [reflexivity | split; [reflexivity | apply ext_refl]]. Qed.

Lemma keeps_trans (s1 s2 s3 : dstate) : keeps s1 s2 -> keeps s2 s3 -> keeps s1 s3.
Proof.
  intros [A1 [B1 C1]] [A2 [B2 C2]].
  split; [congruence | split; [congruence|]].
  eapply ext_trans; eauto.
Qed.

Lemma keeps_ext {A} (c : M A) : respects keeps c -> respects ext c.
Proof. intros H s. apply H. Qed.

Lemma ext_sleeps (s s' : dstate) : ext s s' -> sleeps (trace s') = sleeps (trace s).
Proof.
  intros [evs [-> Hq]]. unfold sleeps. rewrite flat_map_app.
  replace (flat_map _ evs) with (@nil Z); [now rewrite app_nil_r|].
  induction evs as [|e evs IH]; [reflexivity|].
  simpl in Hq. apply andb_true_iff in Hq. destruct Hq as [He Hq].
  simpl. rewrite <- (IH Hq). destruct e; try reflexivity. discriminate He.
Qed.

Lemma ext_succeeded (s s' : dstate) (name : string) :
  ext s s' -> agent_succeeded name (trace s) -> agent_succeeded name (trace s').
Proof.
  intros [evs [-> _]] [input [result [Hin Hok]]].
  exists input, result. split; [apply in_or_app; now left | exact Hok].
Qed.

Section Primitives.

Variable run_agent : string -> nat -> pyval -> agent_out.
Variable now : nat -> string.

Lemma keeps_modify (f : PipelineState -> PipelineState) :
  (forall x, completed_agents (f x) = completed_agents x /\
             current_agent (f x) = current_agent x) ->
  respects keeps (modify f).
Proof.
  intros Hf s. destruct (Hf (st s)) as [H1 H2].
  split; [exact H1 | split; [exact H2|]]. now apply ext_same_trace.
Qed.

Lemma ext_modify (f : PipelineState -> PipelineState) : respects ext (modify f).
Proof. intros s. now apply ext_same_trace. Qed.

Lemma keeps_record (e : event) : quiet e = true -> respects keeps (record e).
Proof.
  intros He s. split; [reflexivity | split; [reflexivity|]].
  exists [e]. simpl. now rewrite He.
Qed.

Lemma keeps_invoke (name : string) (input : pyval) :
  respects keeps (invoke run_agent name input).
Proof.
  intros s. unfold invoke.
  destruct (run_agent name (calls s) input) eqn:E; simpl;
    (split; [reflexivity | split; [reflexivity|]]);
    eexists; split; reflexivity.
Qed.

Lemma keeps_checkpoint (self : StateManager) (filename : string) :
  respects keeps (checkpoint now self filename).
Proof.
  intros s. unfold checkpoint, save_checkpoint.
  destruct (checkpoint_dir self) eqn:E; [|apply keeps_refl].
  unfold bind, read_clock. simpl.
  split; [reflexivity | split; [reflexivity|]].
  eexists; split; reflexivity.
Qed.

Lemma keeps_final (self : StateManager) (data : PipelineState + pyval)
  (filename : string) : respects keeps (final self data filename).
Proof.
  intros s. unfold final, save_final.
  destruct (final_dir self); simpl;
    (split; [reflexivity | split; [reflexivity|]]);
    eexists; split; reflexivity.
Qed.

Lemma keeps_markdown (self : StateManager) (content : str) (filename : string) :
  respects keeps (markdown self content filename).
Proof.
  intros s. unfold markdown, save_markdown_report.
  destruct (final_dir self); simpl;
    (split; [reflexivity | split; [reflexivity|]]);
    eexists; split; reflexivity.
Qed.

Lemma keeps_append_error (msg : string) : respects keeps (append_error msg).
Proof.
  unfold append_error.
  apply (respects_bind keeps_trans); [apply (respects_get_state keeps_refl)|].
  intros x. apply (respects_bind keeps_trans); [apply (respects_lift keeps_refl)|].
  intros v. apply keeps_modify. intros y. split; reflexivity.
Qed.

Lemma ext_append_completed (name : string) : respects ext (append_completed name).
Proof.
  unfold append_completed.
  apply (respects_bind ext_trans); [apply (respects_get_state ext_refl)|].
  intros x. apply (respects_bind ext_trans); [apply (respects_lift ext_refl)|].
  intros v. apply ext_modify.
Qed.

(** What a successful [errors.append] did. *)
Lemma append_error_done (msg : string) (s s' : dstate) :
  append_error msg s = (inr tt, s') ->
  exists l, errors (st s') = VList (l ++ [VStr msg]) /\
            completed_agents (st s') = completed_agents (st s) /\
            current_agent (st s') = current_agent (st s) /\
            trace s' = trace s.
Proof.
  unfold append_error, bind, get_state, lift, modify. simpl.
  destruct (errors (st s)); simpl; intros H; try discriminate.
  inversion H; subst; simpl. eauto.
Qed.

(** What a successful [completed_agents.append] did. *)
Lemma append_completed_done (name : string) (s s' : dstate) (r : string + unit) :
  append_completed name s = (r, s') ->
  (exists e, r = inl e /\ s' = s) \/
  (exists l, completed_agents (st s) = VList l /\
             completed_agents (st s') = VList (l ++ [VStr name]) /\
             current_agent (st s') = current_agent (st s) /\
             errors (st s') = errors (st s) /\
             trace s' = trace s).
Proof.
  unfold append_completed, bind, get_state, lift, modify. simpl.
  destruct (completed_agents (st s)) eqn:E; simpl; intros H;
    inversion H; subst; simpl; eauto.
  right. exists l. auto.
Qed.

(** A checkpoint write never raises and leaves these fields alone. *)
Lemma checkpoint_done (self : StateManager) (filename : string) (s : dstate) :
  let s' := snd (checkpoint now self filename s) in
  fst (checkpoint now self filename s) = inr tt /\
  errors (st s') = errors (st s).
Proof.
  unfold checkpoint, save_checkpoint.
  destruct (checkpoint_dir self); simpl; auto.
Qed.

End Primitives.

End DriverLogic.

(** The steps that need no thought. *)
Ltac frame_with refl trans leaf :=
  repeat first
    [ assumption
    | match goal with H : forall _, Observed.respects _ _ |- _ => apply H end
    | apply (respects_ret refl)
    | apply (respects_raise refl)
    | apply (respects_lift refl)
    | apply (respects_get_state refl)
    | leaf
    | apply respects_if
    | apply (respects_catch trans); [|intro]
    | apply (respects_bind trans); [|intro] ].

Ltac keeps_leaf :=
  first
    [ apply keeps_invoke
    | apply keeps_checkpoint
    | apply keeps_final
    | apply keeps_markdown
    | apply keeps_append_error
    | apply keeps_record; reflexivity
    | apply keeps_modify; intro; split; reflexivity ].

Ltac frame := frame_with keeps_refl keeps_trans keeps_leaf.

(** ** orchestrator.py *)

Section BlockingDriver.
Import State Driver Orchestrator Observed.
Local Open Scope string_scope.

Variable run_agent : string -> nat -> pyval -> agent_out.
Variable now : nat -> string.
Variable generate_markdown_report : pyval -> string + str.
Variable output_dir : option string.

#[local] Abbreviation attempt_body' := (attempt_body run_agent now generate_markdown_report output_dir).
#[local] Abbreviation attempts' := (attempts run_agent now generate_markdown_report output_dir).
#[local] Abbreviation execute' := (_execute_agent run_agent now generate_markdown_report output_dir).
#[local] Abbreviation stages' := (stages run_agent now generate_markdown_report output_dir).
#[local] Abbreviation run_pipeline' := (run_pipeline run_agent now generate_markdown_report output_dir).

Lemma keeps_attempt_body (agent_name : string) : respects keeps (attempt_body' agent_name).
Proof.
  unfold attempt_body, _save_checkpoint, _generate_markdown_report. frame.
Qed.

Lemma keeps_attempts (agent_name : string) (max_retries : nat) (todo : list nat) :
  respects keeps (attempts' agent_name max_retries todo).
Proof.
  induction todo as [|attempt rest IH]; simpl; [apply (respects_ret keeps_refl)|].
  pose proof (keeps_attempt_body agent_name). frame.
Qed.

Lemma keeps_execute_agent (agent_name : string) : respects keeps (execute' agent_name).
Proof. apply keeps_attempts. Qed.

Lemma success_marker_get (result ok : pyval) :
  py_get result "success" VNone = inr ok -> truthy ok = true ->
  success_marker result = true.
Proof.
  destruct result; simpl; try discriminate. intros H Ht. inversion H; subst.
  destruct (dict_get d "success"); auto.
Qed.

Lemma true_after_bind {A B} (name : string) (c : M A) (k : A -> M B) (yes : B) :
  (forall a, true_after name (k a) yes) -> true_after name (bind c k) yes.
Proof.
  intros Hk s. unfold bind. specialize (fun a => Hk a).
  destruct (c s) as [[e|a] s1]; simpl; [discriminate | apply Hk].
Qed.

(** The shape of every stage: invoke, test the marker, go on or give up. *)
Lemma true_after_guard (name : string) (input : pyval) (tail : pyval -> M bool) :
  (forall result, respects keeps (tail result)) ->
  true_after name
    (result <- invoke run_agent name input ;;
     ok <- lift (py_get result "success" VNone) ;;
     if truthy ok then tail result else ret false)%driver
    true.
Proof.
  intros Htail s. unfold bind, invoke, lift.
  destruct (run_agent name (calls s) input) as [result|msg] eqn:E; simpl;
    [|discriminate].
  destruct (py_get result "success" VNone) as [e|ok] eqn:G; simpl; [discriminate|].
  destruct (truthy ok) eqn:T; [|discriminate].
  intros _. eapply ext_succeeded; [apply Htail|].
  exists input, result. simpl. split.
  - apply in_or_app. right. left. reflexivity.
  - eapply success_marker_get; eauto.
Qed.

Lemma true_after_attempt_body (agent_name : string) :
  true_after agent_name (attempt_body' agent_name) true.
Proof.
  unfold attempt_body.
  repeat match goal with
  | |- context [String.eqb agent_name ?lit] =>
      let E := fresh "E" in
      destruct (String.eqb agent_name lit) eqn:E;
      [ apply String.eqb_eq in E; subst agent_name;
        first [ apply true_after_guard
              | apply true_after_bind; intro; apply true_after_guard
              | apply true_after_bind; intro; apply true_after_bind; intro;
                apply true_after_guard ];
        intro; unfold _save_checkpoint, _generate_markdown_report; frame
      | ]
  end.
  intros s H. unfold ret in H. simpl in H. discriminate H.
Qed.

Lemma true_after_attempts (agent_name : string) (max_retries : nat) (todo : list nat) :
  true_after agent_name (attempts' agent_name max_retries todo) true.
Proof.
  induction todo as [|attempt rest IH]; apply true_after_intro; intros s s' Hrun;
    [discriminate Hrun|].
  cbn [attempts] in Hrun.
  apply bind_inv in Hrun. destruct Hrun as [[e [_ He]] | [u [s1 [_ Hrun]]]];
    [discriminate He|].
  apply bind_inv in Hrun. destruct Hrun as [[e [_ He]] | [done [s2 [Hbody Hrun]]]];
    [discriminate He|].
  destruct done.
  - inversion Hrun; subst.
    apply catch_inv in Hbody. destruct Hbody as [[a [Hbody Ha]] | [e [s3 [_ Hh]]]].
    + inversion Ha; subst. eapply true_after_elim; [apply true_after_attempt_body|].
      exact Hbody.
    + apply bind_inv in Hh. destruct Hh as [[e' [_ He']] | [u' [s4 [_ Hh]]]];
        [discriminate He' | discriminate Hh].
  - apply bind_inv in Hrun. destruct Hrun as [[e [_ He]] | [u' [s3 [_ Hrun]]]];
      [discriminate He|].
    eapply true_after_elim; [exact IH | exact Hrun].
Qed.

Lemma true_after_execute_agent (agent_name : string) :
  true_after agent_name (execute' agent_name) true.
Proof. apply true_after_attempts. Qed.

Lemma modify_inv (f : PipelineState -> PipelineState) (s : dstate)
  (r : string + unit) (s' : dstate) :
  modify f s = (r, s') ->
  r = inr tt /\ s' = mkD (f (st s)) (files s) (trace s) (calls s) (ticks s).
Proof. unfold modify. intros H. inversion H. auto. Qed.

(** The stage loop, from a state whose [completed_agents] lists [done]. *)
Lemma stages_spec (todo : list string) :
  forall (done : list string) (s : dstate) (r : string + bool) (s' : dstate),
  completed_agents (st s) = VList (map VStr done) ->
  (forall name, In name done -> agent_succeeded name (trace s)) ->
  stages' todo s = (r, s') ->
  (exists done', completed_agents (st s') = VList (map VStr done') /\
                 forall name, In name done' -> agent_succeeded name (trace s')) /\
  (r = inr true -> completed_agents (st s') = VList (map VStr (done ++ todo))) /\
  (r = inr false ->
   exists k, k < List.length todo /\
     current_agent (st s') = VStr (nth k todo "") /\
     completed_agents (st s') = VList (map VStr (done ++ firstn k todo)) /\
     exists l, errors (st s') = VList l /\ l <> []).
Proof.
  induction todo as [|agent_name rest IH]; intros done s r s' Hdone Hinv Hrun.
  - inversion Hrun; subst. rewrite app_nil_r.
    split; [eauto|]. split; [auto | discriminate].
  - cbn [stages] in Hrun.
    apply bind_inv in Hrun. destruct Hrun as [[e [Hm _]] | [u [s0 [Hm Hrun]]]];
      [apply modify_inv in Hm; destruct Hm; discriminate|].
    apply modify_inv in Hm. destruct Hm as [_ ->].
    apply bind_inv in Hrun. destruct Hrun as [[e [Hm _]] | [u' [s1 [Hm Hrun]]]];
      [apply modify_inv in Hm; destruct Hm; discriminate|].
    apply modify_inv in Hm. destruct Hm as [_ ->]. cbn [st files trace calls ticks] in Hrun.
    assert (Hpre : forall s2, keeps
              (mkD (set_retry_count (VInt 0) (set_current_agent (VStr agent_name) (st s)))
                   (files s) (trace s) (calls s) (ticks s)) s2 ->
              completed_agents (st s2) = VList (map VStr done) /\
              current_agent (st s2) = VStr agent_name /\
              forall name, In name done -> agent_succeeded name (trace s2)).
    { intros s2 [Hc [Hcur [evs [Htr _]]]]. simpl in *.
      split; [congruence|]. split; [exact Hcur|].
      intros name Hin. destruct (Hinv name Hin) as [i [res [Hi Hs]]].
      exists i, res. rewrite Htr. split; [apply in_or_app; now left | exact Hs]. }
    apply bind_inv in Hrun. destruct Hrun as [[e [Hex ->]] | [success [s2 [Hex Hrun]]]].
    + apply (respects_elim (keeps_execute_agent agent_name)) in Hex.
      destruct (Hpre _ Hex) as [Hc [_ Hs]].
      split; [eauto|]. split; discriminate.
    + pose proof (respects_elim (keeps_execute_agent agent_name) Hex) as Hk.
      destruct (Hpre _ Hk) as [Hc [Hcur Hs]].
      destruct success; cbn [negb] in Hrun.
      * pose proof (true_after_elim (true_after_execute_agent agent_name) Hex) as Hok.
        apply bind_inv in Hrun.
        destruct Hrun as [[e [Happ ->]] | [u2 [s3 [Happ Hrun]]]];
          apply append_completed_done in Happ;
          destruct Happ as [[e' [He' ->]] | [l [Hl [Hl' [Hcur' [Herr' Htr']]]]]];
          try discriminate He'.
        -- split; [eauto|]. split; discriminate.
        -- split; [|split; discriminate].
           exists (done ++ [agent_name])%list. split.
           ++ rewrite Hl', map_app. simpl. congruence.
           ++ intros name Hin. rewrite Htr'.
              apply in_app_or in Hin. destruct Hin as [Hin | [<- | []]]; auto.
        -- assert (Hd3 : completed_agents (st s3) = VList (map VStr (done ++ [agent_name])%list))
             by (rewrite Hl', map_app; simpl; congruence).
           assert (Hinv3 : forall name, In name (done ++ [agent_name])%list ->
                                        agent_succeeded name (trace s3)).
           { intros name Hin. rewrite Htr'.
             apply in_app_or in Hin. destruct Hin as [Hin | [<- | []]]; auto. }
           destruct (IH _ _ _ _ Hd3 Hinv3 Hrun) as [Hinv' [Hyes Hno]].
           split; [exact Hinv'|]. split.
           ++ intros Hr. rewrite (Hyes Hr), <- app_assoc. reflexivity.
           ++ intros Hr. destruct (Hno Hr) as [k [Hk' [Hcurk [Hck Herrk]]]].
              exists (S k). cbn [List.length nth firstn]. split; [lia|].
              split; [exact Hcurk|]. split; [|exact Herrk].
              rewrite Hck, <- app_assoc. reflexivity.
      * apply bind_inv in Hrun.
        destruct Hrun as [[e [Happ ->]] | [[] [s3 [Happ Hrun]]]].
        -- apply (respects_elim (keeps_append_error _)) in Happ.
           destruct Happ as [Hc3 [_ [evs [Htr _]]]].
           split; [|split; discriminate].
           exists done. split; [congruence|].
           intros name Hin. destruct (Hs name Hin) as [i [res [Hi Hm]]].
           exists i, res. rewrite Htr. split; [apply in_or_app; now left | exact Hm].
        -- apply append_error_done in Happ.
           destruct Happ as [l [Hl [Hc3 [Hcur3 Htr3]]]].
           apply bind_inv in Hrun. unfold _save_checkpoint in Hrun.
           pose proof (checkpoint_done now (state_manager output_dir)
                         ("failed_" ++ agent_name ++ ".json") s3) as [Hok4 Herr4].
           destruct Hrun as [[e [Hcp _]] | [[] [s4 [Hcp Hrun]]]];
             [rewrite Hcp in Hok4; discriminate Hok4|].
           rewrite Hcp in Herr4. cbn [snd] in Herr4.
           apply (respects_elim (keeps_checkpoint now _ _)) in Hcp.
           destruct Hcp as [Hc4 [Hcur4 [evs [Htr4 _]]]].
           inversion Hrun; subst r s'.
           split; [|split; [discriminate|]].
           ++ exists done. split; [congruence|].
              intros name Hin. destruct (Hs name Hin) as [i [res [Hi Hm]]].
              exists i, res. rewrite Htr4, Htr3.
              split; [apply in_or_app; now left | exact Hm].
           ++ intros _. exists 0. cbn [List.length nth firstn]. split; [lia|].
              split; [congruence|]. split; [rewrite app_nil_r; congruence|].
              exists (l ++ [VStr ("Agent '" ++ agent_name ++ "' failed")])%list.
              split; [congruence|]. intros Hnil. apply app_eq_nil in Hnil.
              destruct Hnil as [_ Hnil]. discriminate Hnil.
Qed.

Lemma keeps_under_output_dir (name : string) :
  respects keeps (under_output_dir output_dir name).
Proof.
  unfold under_output_dir. destruct output_dir;
    [apply (respects_ret keeps_refl) | apply (respects_raise keeps_refl)].
Qed.

Lemma keeps_save_final_outputs :
  respects keeps (_save_final_outputs output_dir).
Proof.
  unfold _save_final_outputs. pose proof keeps_under_output_dir. frame.
Qed.

Lemma keeps_print_summary : respects keeps (_print_summary output_dir).
Proof.
  unfold _print_summary. pose proof keeps_under_output_dir. frame.
Qed.

Ltac ext_leaf :=
  first
    [ apply ext_modify
    | apply ext_append_completed
    | apply keeps_ext; first [ apply keeps_execute_agent
                             | apply keeps_save_final_outputs
                             | apply keeps_print_summary
                             | keeps_leaf ] ].

Lemma ext_stages (todo : list string) : respects ext (stages' todo).
Proof.
  induction todo as [|agent_name rest IH]; cbn [stages];
    [apply (respects_ret ext_refl)|].
  unfold _save_checkpoint. frame_with ext_refl ext_trans ext_leaf.
Qed.

Lemma ext_run_pipeline : respects ext run_pipeline'.
Proof.
  unfold run_pipeline. pose proof (ext_stages AGENT_ORDER).
  frame_with ext_refl ext_trans ext_leaf.
Qed.

(** C1, as the code has it.  A run of the blocking driver from a state in
    which nothing is completed yet (what [initialize] leaves; the run
    itself does not empty the list): when it returns [True],
    [completed_agents] is exactly
    the four stage names in their fixed order; when it returns [False],
    the stage it stopped at is the k-th for some k, [completed_agents] is
    exactly the names of the stages before it, and [errors] is not empty;
    and in every case each name in [completed_agents] belongs to a stage
    that was invoked during the run and returned a result whose success
    marker held. *)
Theorem run_pipeline_stage_order (s0 : PipelineState) (r : string + bool) (s' : dstate) :
  completed_agents s0 = VList [] ->
  run_pipeline' (start s0) = (r, s') ->
  (r = inr true -> completed_agents (st s') = VList (map VStr AGENT_ORDER)) /\
  (r = inr false ->
   exists k, k < List.length AGENT_ORDER /\
     current_agent (st s') = VStr (nth k AGENT_ORDER "") /\
     completed_agents (st s') = VList (map VStr (firstn k AGENT_ORDER)) /\
     exists l, errors (st s') = VList l /\ l <> []) /\
  (forall name l, completed_agents (st s') = VList l -> In (VStr name) l ->
                  agent_succeeded name (trace s')).
Proof.
  intros Hinit Hrun. unfold run_pipeline in Hrun.
  apply bind_inv in Hrun.
  assert (Hnone : forall name, In name (@nil string) ->
                               agent_succeeded name (trace (start s0)))
    by (intros name []).
  destruct Hrun as [[e [Hst ->]] | [finished [s1 [Hst Hrun]]]].
  - destruct (stages_spec AGENT_ORDER [] (start s0) _ _ Hinit Hnone Hst)
      as [[done' [Hd Hs]] _].
    split; [discriminate|]. split; [discriminate|].
    intros name l Hl Hin. rewrite Hd in Hl. injection Hl as <-.
    apply in_map_iff in Hin. destruct Hin as [x [Hx Hin]]. injection Hx as ->. auto.
  - destruct (stages_spec AGENT_ORDER [] (start s0) _ _ Hinit Hnone Hst)
      as [[done' [Hd Hs]] [Hyes Hno]].
    destruct finished.
    + assert (Hk : keeps s1 s').
      { revert Hrun. apply respects_elim.
        pose proof keeps_save_final_outputs. pose proof keeps_print_summary. frame. }
      destruct Hk as [Hc [_ Hext]].
      split; [|split].
      * intros _. rewrite Hc. now apply Hyes.
      * intros ->. exfalso.
        apply bind_inv in Hrun. destruct Hrun as [[e [_ He]] | [u [s2 [_ Hrun]]]];
          [discriminate He|].
        apply bind_inv in Hrun. destruct Hrun as [[e [_ He]] | [u' [s3 [_ Hrun]]]];
          [discriminate He | discriminate Hrun].
      * intros name l Hl Hin. rewrite Hc, Hd in Hl. injection Hl as <-.
        apply in_map_iff in Hin. destruct Hin as [x [Hx Hin]]. injection Hx as ->.
        eapply ext_succeeded; [exact Hext | auto].
    + inversion Hrun; subst r s'.
      split; [discriminate|]. split.
      * intros _. now apply Hno.
      * intros name l Hl Hin. rewrite Hd in Hl. injection Hl as <-.
        apply in_map_iff in Hin. destruct Hin as [x [Hx Hin]]. injection Hx as ->. auto.
Qed.

Lemma steps_refl (s : dstate) : steps s s.
Proof. exists []. split; [now rewrite app_nil_r | reflexivity]. Qed.

Lemma steps_trans (s1 s2 s3 : dstate) : steps s1 s2 -> steps s2 s3 -> steps s1 s3.
Proof.
  intros [e1 [H1 Q1]] [e2 [H2 Q2]]. exists (e1 ++ e2)%list. split.
  - now rewrite H2, H1, app_assoc.
  - rewrite forallb_app, Q1, Q2. reflexivity.
Qed.

Lemma steps_modify (f : PipelineState -> PipelineState) : respects steps (modify f).
Proof. intros s. exists []. split; [apply (eq_sym (app_nil_r _)) | reflexivity]. Qed.

Lemma steps_record (e : event) : own_step e = true -> respects steps (record e).
Proof. intros He s. exists [e]. split; [reflexivity|]. cbn. now rewrite He. Qed.

Lemma steps_invoke (name : string) (input : pyval) :
  respects steps (invoke run_agent name input).
Proof.
  intros s. unfold invoke.
  destruct (run_agent name (calls s) input); eexists; split; reflexivity.
Qed.

Lemma steps_checkpoint (self : StateManager) (filename : string) :
  respects steps (checkpoint now self filename).
Proof.
  intros s. unfold checkpoint, save_checkpoint.
  destruct (checkpoint_dir self); [|apply steps_refl].
  eexists; split; reflexivity.
Qed.

Lemma steps_final (self : StateManager) (data : PipelineState + pyval)
  (filename : string) : respects steps (final self data filename).
Proof.
  intros s. unfold final, save_final.
  destruct (final_dir self); eexists; split; reflexivity.
Qed.

Lemma steps_markdown (self : StateManager) (content : str) (filename : string) :
  respects steps (markdown self content filename).
Proof.
  intros s. unfold markdown, save_markdown_report.
  destruct (final_dir self); eexists; split; reflexivity.
Qed.

Ltac steps_leaf :=
  first
    [ apply steps_invoke
    | apply steps_checkpoint
    | apply steps_final
    | apply steps_markdown
    | apply steps_record; reflexivity
    | apply steps_modify ].

Ltac steps_frame := frame_with steps_refl steps_trans steps_leaf.

Lemma steps_attempts (agent_name : string) (max_retries : nat) (todo : list nat) :
  respects steps (attempts' agent_name max_retries todo).
Proof.
  induction todo as [|attempt rest IH]; cbn [attempts];
    [apply (respects_ret steps_refl)|].
  unfold attempt_body, _save_checkpoint, _generate_markdown_report, append_error.
  steps_frame.
Qed.

Lemma steps_stages (todo : list string) : respects steps (stages' todo).
Proof.
  induction todo as [|agent_name rest IH]; cbn [stages];
    [apply (respects_ret steps_refl)|].
  pose proof (steps_attempts agent_name MAX_RETRIES (seq 0 MAX_RETRIES)).
  unfold _execute_agent, _save_checkpoint, append_error, append_completed.
  steps_frame.
Qed.

Lemma steps_no_sleep (evs : list event) :
  forallb own_step evs = true -> sleeps evs = [].
Proof.
  induction evs as [|e evs IH]; [reflexivity|]. cbn [forallb].
  intros H. apply andb_true_iff in H. destruct H as [He H].
  unfold sleeps in *. cbn [flat_map]. rewrite (IH H).
  destruct e; try reflexivity. discriminate He.
Qed.

(** X. The blocking driver adds no sleep of its own.  What a run of
    [run_pipeline] does, besides updating its state, is a sequence of
    steps of three kinds: an agent is invoked, a retry is announced, a
    file is written.  No step is a sleep: between two attempts of a stage
    and between two stages the driver does not wait.  (What an agent does
    during its invocation, the backoff of its transport included, is inside
    that one step.) *)
Theorem orchestrator_adds_no_sleep (s : dstate) :
  exists evs,
    trace (snd (run_pipeline' s)) = (trace s ++ evs)%list /\
    forallb own_step evs = true /\
    sleeps evs = [].
Proof.
  assert (H : respects steps run_pipeline').
  { unfold run_pipeline, _save_final_outputs, _print_summary, under_output_dir.
    pose proof (steps_stages AGENT_ORDER). destruct output_dir; steps_frame. }
  destruct (H s) as [evs [Ht Hq]]. exists evs.
  split; [exact Ht|]. split; [exact Hq | now apply steps_no_sleep].
Qed.

End BlockingDriver.

Section BlockingDriverRuns.
Import State Driver Orchestrator Observed.
Local Open Scope string_scope.

Lemma run_pipeline_stage_order_witness :
  let s0 := initialized (new_state "t0" "t0") "doc.md" "Mario Rossi" in
  let res := run_pipeline always_succeeding fixed_clock no_report (Some "out") (start s0) in
  (fst res = inr true ->
   completed_agents (st (snd res)) = VList (map VStr AGENT_ORDER)) /\
  (fst res = inr false ->
   exists k, k < List.length AGENT_ORDER /\
     current_agent (st (snd res)) = VStr (nth k AGENT_ORDER "") /\
     completed_agents (st (snd res)) = VList (map VStr (firstn k AGENT_ORDER)) /\
     exists l, errors (st (snd res)) = VList l /\ l <> []) /\
  (forall name l, completed_agents (st (snd res)) = VList l -> In (VStr name) l ->
                  agent_succeeded name (trace (snd res))).
Proof.
  cbv zeta.
  apply (run_pipeline_stage_order always_succeeding fixed_clock no_report (Some "out")
           (initialized (new_state "t0" "t0") "doc.md" "Mario Rossi")).
  - reflexivity.
  - apply surjective_pairing.
Defined.

(** C1 as stated fails for a run that does not start from an initialised
    state.  A first run fails at normalization and leaves [structuring]
    completed; a second run on the same orchestrator (or on one that has
    loaded the checkpoint of the first) starts again at the first stage,
    returns [True], and lists [structuring] twice. *)
Lemma second_run_repeats_a_stage :
  let s0 := initialized (new_state "t0" "t0") "doc.md" "Mario Rossi" in
  let first := run_pipeline normalization_fails fixed_clock no_report (Some "out")
                            (start s0) in
  let second := run_pipeline always_succeeding fixed_clock no_report (Some "out")
                             (snd first) in
  fst first = inr false /\
  completed_agents (st (snd first)) = VList [VStr "structuring"] /\
  fst second = inr true /\
  completed_agents (st (snd second))
    = VList (map VStr ("structuring" :: AGENT_ORDER)) /\
  completed_agents (st (snd second)) <> VList (map VStr AGENT_ORDER).
Proof.
  cbv zeta.
  split; [vm_compute; reflexivity|]. split; [vm_compute; reflexivity|].
  split; [vm_compute; reflexivity|].
  assert (H : completed_agents
                (st (snd (run_pipeline always_succeeding fixed_clock no_report
                            (Some "out")
                            (snd (run_pipeline normalization_fails fixed_clock no_report
                                    (Some "out")
                                    (start (initialized (new_state "t0" "t0") "doc.md"
                                                        "Mario Rossi")))))))
              = VList (map VStr ("structuring" :: AGENT_ORDER)))
    by (vm_compute; reflexivity).
  split; [exact H|]. rewrite H. discriminate.
Qed.

(** C6. A stage whose agent fails every time is invoked [MAX_RETRIES] times;
    between the attempts the driver announces the backoff (2 s, then 4 s)
    and goes straight on: no sleep is in the trace. *)
Lemma stage_retries_do_not_sleep :
  let failed := AgentReturn (VDict [("success", VBool false); ("error", VStr "bad output")]) in
  let res := _execute_agent always_failing fixed_clock no_report (Some "out")
                            "structuring" (start (new_state "t0" "t0")) in
  fst res = inr false /\
  trace (snd res) =
    [ EvAgent "structuring" (VStr "") failed; EvRetryNotice 2;
      EvAgent "structuring" (VStr "") failed; EvRetryNotice 4;
      EvAgent "structuring" (VStr "") failed ] /\
  sleeps (trace (snd res)) = [].
Proof. cbv zeta. repeat split. Qed.

End BlockingDriverRuns.

(** ** pipeline_runner.py *)

Section EventDriver.
Import State Driver Orchestrator Runner Observed.
Local Open Scope string_scope.

Variable run_agent : string -> nat -> pyval -> agent_out.
Variable now : nat -> string.
Variable generate_markdown_report : pyval -> string + str.
Variable ocr : ocr_out.
Variable websocket : bool.
Variable output_dir : string.
Variable stem : string.

Lemma agent_calls_app (name : string) (e1 e2 : list event) :
  agent_calls name (e1 ++ e2) = agent_calls name e1 + agent_calls name e2.
Proof. unfold agent_calls. now rewrite filter_app, length_app. Qed.

(** *** Computations that invoke no agent *)

Lemma silent_same_trace {A} (c : M A) :
  (forall s, trace (snd (c s)) = trace s) -> silent c.
Proof.
  intros H s. exists []. rewrite H, app_nil_r. split; reflexivity.
Qed.

Lemma silent_ret {A} (a : A) : silent (ret a).
Proof. now apply silent_same_trace. Qed.

Lemma silent_raise {A} (e : string) : silent (@raise A e).
Proof. now apply silent_same_trace. Qed.

Lemma silent_lift {A} (r : string + A) : silent (lift r).
Proof. now apply silent_same_trace. Qed.

Lemma silent_get_state : silent get_state.
Proof. now apply silent_same_trace. Qed.

Lemma silent_modify (f : PipelineState -> PipelineState) : silent (modify f).
Proof. now apply silent_same_trace. Qed.

Lemma silent_read_clock : silent (read_clock now).
Proof. now apply silent_same_trace. Qed.

Lemma silent_record (e : event) :
  (forall name, is_agent_call name e = false) -> silent (record e).
Proof.
  intros He s. exists [e]. split; [reflexivity|].
  intros name. unfold agent_calls. simpl. now rewrite He.
Qed.

Lemma silent_bind {A B} (c : M A) (k : A -> M B) :
  silent c -> (forall a, silent (k a)) -> silent (bind c k).
Proof.
  intros Hc Hk s. unfold bind. destruct (Hc s) as [e1 [H1 N1]].
  destruct (c s) as [[e|a] s1]; simpl in *; [eauto|].
  destruct (Hk a s1) as [e2 [H2 N2]].
  exists (e1 ++ e2)%list. split; [now rewrite H2, H1, app_assoc|].
  intros name. now rewrite agent_calls_app, N1, N2.
Qed.

Lemma silent_if {A} (b : bool) (c1 c2 : M A) :
  silent c1 -> silent c2 -> silent (if b then c1 else c2).
Proof. destruct b; auto. Qed.

Lemma silent_write {A} (f : dstate -> option string * store) (a : A) :
  silent (fun s => let '(path, fs') := f s in
                   (inr a, mkD (st s) fs'
                               (trace s ++ match path with Some p => [EvWrite p] | None => [] end)
                               (calls s) (ticks s))).
Proof.
  intros s. destruct (f s) as [[p|] fs']; simpl;
    eexists; (split; [reflexivity|]); intros name; reflexivity.
Qed.

Lemma silent_final (self : StateManager) (data : PipelineState + pyval) (filename : string) :
  silent (final self data filename).
Proof. apply (silent_write (fun s => save_final self data filename (files s))). Qed.

Lemma silent_markdown (self : StateManager) (content : str) (filename : string) :
  silent (markdown self content filename).
Proof.
  apply (silent_write (fun s => save_markdown_report self content filename (files s))).
Qed.

Lemma silent_checkpoint (self : StateManager) (filename : string) :
  silent (checkpoint now self filename).
Proof.
  unfold checkpoint. destruct (checkpoint_dir self) as [dir|] eqn:E; [|apply silent_ret].
  apply silent_bind; [apply silent_read_clock|]. intros t s.
  unfold save_checkpoint. rewrite E. simpl.
  eexists; (split; [reflexivity|]); intros name; reflexivity.
Qed.

Lemma silent_emit (kind : string) (data : dict) : silent (emit websocket kind data).
Proof.
  unfold emit. destruct websocket; [|apply silent_ret].
  apply silent_record. reflexivity.
Qed.

Lemma silent_emit_log (message : pyval) : silent (emit_log now websocket message).
Proof.
  unfold emit_log. apply silent_bind; [apply silent_read_clock|].
  intros t. apply silent_emit.
Qed.

Ltac quiet_steps :=
  repeat match goal with
  | |- silent (bind _ _) => apply silent_bind; [|intro]
  | |- silent (if _ then _ else _) => apply silent_if
  | |- silent _ =>
      first
        [ assumption
        | apply silent_ret | apply silent_raise | apply silent_lift
        | apply silent_get_state | apply silent_modify | apply silent_read_clock
        | apply silent_emit | apply silent_emit_log | apply silent_checkpoint
        | apply silent_final | apply silent_markdown
        | apply silent_record; reflexivity
        | match goal with H : forall _, _ |- _ => apply H end ]
  end.

Lemma silent_handle_attempts (agent_name : string) (error : pyval) (todo : list nat) :
  silent (handle_attempts now websocket agent_name error todo).
Proof.
  induction todo as [|attempt rest IH]; cbn [handle_attempts]; quiet_steps.
Qed.

Lemma silent_fail_stage (agent_name : string) (result : pyval) :
  silent (fail_stage now websocket agent_name result).
Proof.
  unfold fail_stage, _handle_agent_error.
  pose proof (silent_handle_attempts agent_name). quiet_steps.
Qed.

Lemma silent_run_ocr : silent (_run_ocr_async ocr output_dir stem).
Proof.
  unfold _run_ocr_async. destruct ocr as [markdown| |msg];
    [|apply silent_ret | apply silent_raise].
  intros s. exists [EvWrite (md_path output_dir stem)].
  split; [reflexivity|]. intros name. reflexivity.
Qed.

Lemma silent_read_markdown : silent (read_markdown output_dir stem).
Proof.
  apply silent_same_trace. intros s. unfold read_markdown.
  destruct (fs_read (files s) (md_path output_dir stem)) as [[doc|content]|]; reflexivity.
Qed.

(** *** Counting invocations *)

Lemma silent_at_most {A} (names : list string) (c : M A) : silent c -> at_most names c.
Proof.
  intros H s. destruct (H s) as [evs [Ht Hn]]. exists evs. split; [exact Ht|].
  intros name. rewrite Hn. lia.
Qed.

Lemma at_most_bind {A B} (l1 l2 : list string) (c : M A) (k : A -> M B) :
  at_most l1 c -> (forall a, at_most l2 (k a)) -> at_most (l1 ++ l2) (bind c k).
Proof.
  intros Hc Hk s. unfold bind. destruct (Hc s) as [e1 [H1 N1]].
  destruct (c s) as [[e|a] s1]; simpl in *.
  - exists e1. split; [exact H1|]. intros name.
    rewrite count_occ_app. specialize (N1 name). lia.
  - destruct (Hk a s1) as [e2 [H2 N2]].
    exists (e1 ++ e2)%list. split; [now rewrite H2, H1, app_assoc|].
    intros name. rewrite agent_calls_app, count_occ_app.
    specialize (N1 name). specialize (N2 name). lia.
Qed.

Lemma at_most_invoke (name : string) (input : pyval) :
  at_most [name] (invoke run_agent name input).
Proof.
  intros s. unfold invoke.
  exists [EvAgent name input (run_agent name (calls s) input)]. split.
  - destruct (run_agent name (calls s) input); reflexivity.
  - intros n. unfold agent_calls. simpl.
    destruct (string_dec name n) as [->|Hne].
    + rewrite String.eqb_refl. simpl. lia.
    + destruct (String.eqb name n) eqn:E; [|simpl; lia].
      apply String.eqb_eq in E. contradiction.
Qed.

Lemma at_most_then {A B} (names : list string) (c : M A) (k : A -> M B) :
  silent c -> (forall a, at_most names (k a)) -> at_most names (bind c k).
Proof.
  intros Hc Hk. apply (at_most_bind [] names); [now apply silent_at_most | exact Hk].
Qed.

Lemma at_most_call {B} (name : string) (names : list string) (input : pyval)
  (k : pyval -> M B) :
  (forall a, at_most names (k a)) ->
  at_most (name :: names) (bind (_run_agent_async run_agent name input) k).
Proof.
  intros Hk. apply (at_most_bind [name] names); [apply at_most_invoke | exact Hk].
Qed.

Lemma at_most_if {A} (names : list string) (b : bool) (c1 c2 : M A) :
  at_most names c1 -> at_most names c2 -> at_most names (if b then c1 else c2).
Proof. destruct b; auto. Qed.

Lemma at_most_catch {A} (names : list string) (c : M A) (h : string -> M A) :
  at_most names c -> (forall e, silent (h e)) -> at_most names (catch c h).
Proof.
  intros Hc Hh s. unfold catch. destruct (Hc s) as [e1 [H1 N1]].
  destruct (c s) as [[e|a] s1]; simpl in *; [|eauto].
  destruct (Hh e s1) as [e2 [H2 N2]].
  exists (e1 ++ e2)%list. split; [now rewrite H2, H1, app_assoc|].
  intros name. rewrite agent_calls_app, N2. specialize (N1 name). lia.
Qed.

Ltac count_steps :=
  repeat match goal with
  | |- at_most _ (bind (_run_agent_async _ _ _) _) => apply at_most_call; intro
  | |- at_most _ (bind _ _) => apply at_most_then; [solve [quiet_steps] | intro]
  | |- at_most _ (if _ then _ else _) => apply at_most_if
  | |- at_most _ _ =>
      first [ assumption | apply silent_at_most; solve [quiet_steps] ]
  end.

#[local] Abbreviation human_review_step' :=
  (human_review_step run_agent now generate_markdown_report websocket output_dir).
#[local] Abbreviation layout_step' :=
  (layout_step run_agent now generate_markdown_report websocket output_dir).
#[local] Abbreviation normalization_step' :=
  (normalization_step run_agent now generate_markdown_report websocket output_dir).
#[local] Abbreviation structuring_step' :=
  (structuring_step run_agent now generate_markdown_report websocket output_dir).
#[local] Abbreviation run' :=
  (run run_agent now generate_markdown_report ocr websocket output_dir stem).

Lemma at_most_human_review : at_most ["human_review"] human_review_step'.
Proof.
  unfold human_review_step. pose proof silent_fail_stage. count_steps.
Qed.

Lemma at_most_layout : at_most ["layout"; "human_review"] layout_step'.
Proof.
  unfold layout_step. pose proof silent_fail_stage.
  pose proof at_most_human_review. count_steps.
Qed.

Lemma at_most_normalization :
  at_most ["normalization"; "layout"; "human_review"] normalization_step'.
Proof.
  unfold normalization_step. pose proof silent_fail_stage.
  pose proof at_most_layout. count_steps.
Qed.

Lemma at_most_structuring : at_most AGENT_ORDER structuring_step'.
Proof.
  unfold structuring_step, AGENT_ORDER. pose proof silent_fail_stage.
  pose proof at_most_normalization. count_steps.
Qed.

Lemma at_most_run : at_most AGENT_ORDER run'.
Proof.
  unfold run. apply at_most_catch.
  - unfold run_body. pose proof silent_run_ocr. pose proof silent_read_markdown.
    pose proof at_most_structuring. count_steps.
  - intros e. quiet_steps.
Qed.

Lemma agent_order_once (name : string) : count_occ string_dec AGENT_ORDER name <= 1.
Proof.
  unfold AGENT_ORDER. cbn [count_occ].
  repeat match goal with
  | |- context [string_dec ?a ?b] => destruct (string_dec a b)
  end; subst; try congruence; lia.
Qed.

(** What the failure handler does after a stage returned a dict without a
    true success marker. *)
Lemma fail_stage_backs_off (agent_name : string) (d : dict) (s : dstate) :
  let error := match dict_get d "error" with Some v => v | None => VNone end in
  let res := fail_stage now websocket agent_name (VDict d) s in
  fst res = inr false /\
  trace (snd res) = (trace s ++ backoff_events now websocket agent_name error (ticks s))%list.
Proof.
  cbv zeta. unfold fail_stage, _handle_agent_error, backoff_events.
  destruct websocket; simpl; rewrite <- ?app_assoc; split; reflexivity.
Qed.

(** C7. In the event-driven driver no stage is invoked twice: whatever the
    agents, the OCR step and the clock do, each agent is called at most once
    in a run. A stage that fails goes to the failure handler, which returns
    [False] after adding to the trace the retry notices (when a socket is
    attached), the sleeps of the backoff schedule (2 s, then 4 s) and the
    error events, and among them no agent call. *)
Theorem failed_stage_is_not_reinvoked (s0 : PipelineState) :
  (forall name, agent_calls name (trace (snd (run' (start s0)))) <= 1) /\
  (forall agent_name d s,
     let error := match dict_get d "error" with Some v => v | None => VNone end in
     let res := fail_stage now websocket agent_name (VDict d) s in
     fst res = inr false /\
     trace (snd res)
       = (trace s ++ backoff_events now websocket agent_name error (ticks s))%list) /\
  (forall agent_name error tick,
     sleeps (backoff_events now websocket agent_name error tick) = [2; 4]%Z /\
     forall name,
       agent_calls name (backoff_events now websocket agent_name error tick) = 0).
Proof.
  split; [|split].
  - intros name. destruct (at_most_run (start s0)) as [evs [Ht Hn]].
    rewrite Ht. simpl. specialize (Hn name).
    pose proof (agent_order_once name). lia.
  - intros agent_name d s. apply fail_stage_backs_off.
  - intros agent_name error tick. unfold backoff_events.
    destruct websocket; split; reflexivity.
Qed.

End EventDriver.

(** ** regolo_client.py: what a call with retries does on every service *)

Section TransportShape.
Import Client Budget Observed.

Variable http : nat -> http_reply.

Lemma retried_step (k n : nat) :
  retried k (S n)
    = EvHttp k :: EvSleep (INITIAL_BACKOFF * 2 ^ Z.of_nat k) :: retried (S k) n.
Proof. reflexivity. Qed.

(** The loop from attempt [k] on, [len] attempts before the budget [m]
    ends: it stops at some attempt [k + n], having slept after each of
    the [n] attempts before, all of which raised a RequestException. *)
Lemma retry_loop_shape (m : Z) :
  forall (len k : nat), 0 < len -> Z.of_nat (k + len) = m ->
  exists n, n < len /\
    snd (retry_loop http m (seq k len)) = retried k n ++ [EvHttp (k + n)] /\
    (forall j, j < n -> exists msg, chat (http (k + j)) = inl (RequestException msg)) /\
    match chat (http (k + n)) with
    | inr response => fst (retry_loop http m (seq k len)) = (Some response, None)
    | inl (RequestException msg) =>
        Z.of_nat (k + n) = (m - 1)%Z /\
        fst (retry_loop http m (seq k len)) = (None, Some msg)
    | inl (PlainException msg) =>
        fst (retry_loop http m (seq k len)) = (None, Some msg)
    end.
Proof.
  induction len as [|len IH]; intros k Hlen Hm; [lia|].
  cbn [seq retry_loop].
  destruct (chat (http k)) as [[msg|msg]|response] eqn:E.
  - destruct (Z.of_nat k <? m - 1)%Z eqn:Hk.
    + apply Z.ltb_lt in Hk.
      destruct (IH (S k)) as [n [Hn [Hev [Hbefore Hlast]]]]; [lia|lia|].
      exists (S n). split; [lia|].
      replace (k + S n) with (S k + n) by lia.
      destruct (retry_loop http m (seq (S k) len)) as [r evs] eqn:R.
      cbn [fst snd] in *. split; [|split].
      * rewrite retried_step, Hev. reflexivity.
      * intros [|j] Hj.
        -- rewrite Nat.add_0_r. eauto.
        -- replace (k + S j) with (S k + j) by lia. apply Hbefore. lia.
      * exact Hlast.
    + apply Z.ltb_ge in Hk. exists 0. rewrite Nat.add_0_r, E.
      cbn [fst snd]. repeat split; try lia; try reflexivity.
  - exists 0. rewrite Nat.add_0_r, E. cbn [fst snd].
    repeat split; try lia; try reflexivity.
  - exists 0. rewrite Nat.add_0_r, E. cbn [fst snd].
    repeat split; try lia; try reflexivity.
Qed.

Lemma retry_budget_nonzero (max_retries : option Z) : retry_budget max_retries <> 0%Z.
Proof.
  unfold retry_budget, MAX_RETRIES. destruct max_retries as [n|]; [|discriminate].
  destruct (Z.eqb_spec n 0); [discriminate | assumption].
Qed.

(** A budget below zero: the loop has no turn. *)
Lemma call_with_retry_unentered (max_retries : option Z) :
  (retry_budget max_retries < 0)%Z ->
  call_with_retry http max_retries
    = ((None, Some "Max retries exceeded"%string), []).
Proof.
  intros H. unfold call_with_retry.
  destruct (retry_budget max_retries); try lia. reflexivity.
Qed.

(** A budget above zero: the loop as [retry_loop_shape] has it. *)
Lemma call_with_retry_entered (max_retries : option Z) :
  (0 < retry_budget max_retries)%Z ->
  exists n, (Z.of_nat n < retry_budget max_retries)%Z /\
    snd (call_with_retry http max_retries) = retried 0 n ++ [EvHttp n] /\
    (forall j, j < n -> exists msg, chat (http j) = inl (RequestException msg)) /\
    match chat (http n) with
    | inr response => fst (call_with_retry http max_retries) = (Some response, None)
    | inl (RequestException msg) =>
        Z.of_nat n = (retry_budget max_retries - 1)%Z /\
        fst (call_with_retry http max_retries) = (None, Some msg)
    | inl (PlainException msg) =>
        fst (call_with_retry http max_retries) = (None, Some msg)
    end.
Proof.
  intros H. unfold call_with_retry.
  destruct (retry_loop_shape (retry_budget max_retries)
              (Z.to_nat (retry_budget max_retries)) 0)
    as [n [Hn Hrest]]; [lia | lia |].
  exists n. split; [lia | exact Hrest].
Qed.

(** X. Whatever the service does, a call with retries whose budget
    ([max_retries], or [MAX_RETRIES] when that is [None] or zero) is above
    zero ends at some attempt [k] within the budget: it has made the
    exchanges 0..k in order and slept [INITIAL_BACKOFF * 2^j] seconds after
    each attempt [j < k], all of which raised a RequestException; it
    returns the response of attempt [k] and no error, or the message of the
    exception of attempt [k] and no response: any other exception at once,
    a RequestException only when [k] was the last attempt of the budget.
    The return after the loop, with the text [Max retries exceeded], is
    reached for a negative [max_retries] only, and then without any
    exchange or sleep. *)
Theorem call_with_retry_outcome (max_retries : option Z) :
  let budget := retry_budget max_retries in
  ((budget < 0)%Z /\
   call_with_retry http max_retries
     = ((None, Some "Max retries exceeded"%string), [])) \/
  ((0 < budget)%Z /\
   exists k, (Z.of_nat k < budget)%Z /\
     snd (call_with_retry http max_retries) = retried 0 k ++ [EvHttp k] /\
     (forall j, j < k -> exists msg, chat (http j) = inl (RequestException msg)) /\
     match chat (http k) with
     | inr response =>
         fst (call_with_retry http max_retries) = (Some response, None)
     | inl (RequestException msg) =>
         Z.of_nat k = (budget - 1)%Z /\
         fst (call_with_retry http max_retries) = (None, Some msg)
     | inl (PlainException msg) =>
         fst (call_with_retry http max_retries) = (None, Some msg)
     end).
Proof.
  cbv zeta. pose proof (retry_budget_nonzero max_retries) as Hnz.
  destruct (Z.lt_trichotomy (retry_budget max_retries) 0) as [Hneg | [H0 | Hpos]];
    [left | contradiction | right].
  - split; [exact Hneg | now apply call_with_retry_unentered].
  - split; [exact Hpos | now apply call_with_retry_entered].
Qed.

Lemma sleeps_app (e1 e2 : list event) : sleeps (e1 ++ e2) = sleeps e1 ++ sleeps e2.
Proof. unfold sleeps. apply flat_map_app. Qed.

Lemma sleeps_retried (n : nat) :
  forall k, sleeps (retried k n)
            = map (fun j => INITIAL_BACKOFF * 2 ^ Z.of_nat j)%Z (seq k n).
Proof.
  induction n as [|n IH]; intros k; [reflexivity|].
  rewrite retried_step. cbn [sleeps flat_map seq map app].
  f_equal. apply IH.
Qed.

Lemma total_backoff (n : nat) :
  forall k, total (map (fun j => INITIAL_BACKOFF * 2 ^ Z.of_nat j)%Z (seq k n))
            = (INITIAL_BACKOFF * 2 ^ Z.of_nat k * (2 ^ Z.of_nat n - 1))%Z.
Proof.
  unfold INITIAL_BACKOFF.
  induction n as [|n IH]; intros k; cbn [seq map total fold_right].
  - change (2 ^ Z.of_nat 0)%Z with 1%Z. lia.
  - fold (total (map (fun j => (2 * 2 ^ Z.of_nat j)%Z) (seq (S k) n))).
    rewrite IH. rewrite !Nat2Z.inj_succ, !Z.pow_succ_r by lia. lia.
Qed.

(** X. The seconds a call with retries sleeps are the exponential schedule
    [INITIAL_BACKOFF * 2^j] for j = 0, 1, ..., one term per failed attempt
    that is retried, and at most [budget - 1] terms (none for a budget
    below zero): their sum is at most
    [INITIAL_BACKOFF * (2^(budget - 1) - 1)], that is 6 seconds with the
    default budget of three attempts, whatever the service does. *)
Theorem call_with_retry_sleeps (max_retries : option Z) :
  let evs := snd (call_with_retry http max_retries) in
  let budget := retry_budget max_retries in
  let retries := Z.max 0 (budget - 1) in
  (exists k, (Z.of_nat k <= retries)%Z /\
     sleeps evs = map (fun j => INITIAL_BACKOFF * 2 ^ Z.of_nat j)%Z (seq 0 k)) /\
  (total (sleeps evs) <= INITIAL_BACKOFF * (2 ^ retries - 1))%Z /\
  (total (sleeps (snd (call_with_retry http None))) <= 6)%Z.
Proof.
  cbv zeta.
  assert (H : forall m, exists k, (Z.of_nat k <= Z.max 0 (retry_budget m - 1))%Z /\
            sleeps (snd (call_with_retry http m))
              = map (fun j => INITIAL_BACKOFF * 2 ^ Z.of_nat j)%Z (seq 0 k) /\
            (total (sleeps (snd (call_with_retry http m)))
             <= INITIAL_BACKOFF * (2 ^ Z.max 0 (retry_budget m - 1) - 1))%Z).
  { intros m. pose proof (retry_budget_nonzero m) as Hnz.
    destruct (Z.lt_trichotomy (retry_budget m) 0) as [Hneg | [H0 | Hpos]];
      [|contradiction|].
    - rewrite (call_with_retry_unentered m Hneg). exists 0. cbn [snd sleeps flat_map].
      replace (Z.max 0 (retry_budget m - 1)) with 0%Z by lia.
      repeat split; try reflexivity; try lia.
    - destruct (call_with_retry_entered m Hpos) as [n [Hn [Hev _]]].
      exists n. split; [lia|].
      assert (Hs : sleeps (snd (call_with_retry http m))
                   = map (fun j => INITIAL_BACKOFF * 2 ^ Z.of_nat j)%Z (seq 0 n)).
      { rewrite Hev, sleeps_app, sleeps_retried. cbn [sleeps flat_map]. apply app_nil_r. }
      split; [exact Hs|]. rewrite Hs, total_backoff.
      change (2 ^ Z.of_nat 0)%Z with 1%Z. unfold INITIAL_BACKOFF.
      assert ((2 ^ Z.of_nat n <= 2 ^ Z.max 0 (retry_budget m - 1))%Z)
        by (apply Z.pow_le_mono_r; lia).
      lia. }
  destruct (H max_retries) as [k [Hk [Hs Hb]]].
  split; [exists k; split; assumption|]. split; [exact Hb|].
  destruct (H None) as [k' [_ [_ Hb']]]. exact Hb'.
Qed.

(** X. A response with an error status (400 or above) or with an empty
    body ends the call at once, at whatever attempt it arrives and whatever
    budget remains: after the retried network failures before it, no sleep
    follows and no further exchange is made, and the call returns the
    message [_make_request] raised and no response. *)
Theorem error_response_is_terminal
  (max_retries : option Z) (n : nat) (status_code : Z) (content : str) :
  (forall j, j < n -> exists msg, http j = ConnectionFailed msg) ->
  http n = Response status_code content ->
  (400 <= status_code)%Z \/ content = [] ->
  (Z.of_nat n < retry_budget max_retries)%Z ->
  exists msg,
    _make_request (http n) = inl (PlainException msg) /\
    call_with_retry http max_retries
      = ((None, Some msg), retried 0 n ++ [EvHttp n]).
Proof.
  intros Hdown Hn Herr Hlt.
  assert (Hplain : exists msg, chat (http n) = inl (PlainException msg)).
  { unfold chat, _make_request. rewrite Hn.
    destruct (status_code =? 401)%Z; [eauto|].
    destruct (status_code =? 429)%Z; [eauto|].
    destruct (status_code >=? 400)%Z eqn:E; [eauto|].
    destruct Herr as [H| ->]; [|eauto].
    rewrite Z.geb_leb in E. apply Z.leb_gt in E. lia. }
  destruct Hplain as [msg Hmsg]. exists msg. split; [exact Hmsg|].
  destruct (call_with_retry_entered max_retries ltac:(lia))
    as [k [Hk [Hev [Hbefore Hlast]]]].
  assert (k = n).
  { destruct (Nat.lt_trichotomy k n) as [Hlt'|[->|Hgt]]; [|reflexivity|].
    - destruct (Hdown k Hlt') as [m' Hm']. unfold chat, _make_request in Hlast.
      rewrite Hm' in Hlast. destruct Hlast as [Hlast _]. lia.
    - destruct (Hbefore n Hgt) as [m' Hm']. congruence. }
  subst k. rewrite Hmsg in Hlast.
  destruct (call_with_retry http max_retries) as [r evs]. cbn [fst snd] in *.
  congruence.
Qed.

End TransportShape.

(** A 503 that arrives after one network failure, with two attempts of the
    three left. *)
Lemma error_response_is_terminal_witness :
  exists msg,
    Client._make_request (Budget.down_then_unavailable 1) = inl (Client.PlainException msg) /\
    Client.call_with_retry Budget.down_then_unavailable None
      = ((None, Some msg), Client.retried 0 1 ++ [EvHttp 1]).
Proof.
  apply (error_response_is_terminal Budget.down_then_unavailable None 1 503
           (txt "Service Unavailable")).
  - intros j Hj. assert (j = 0) as -> by lia. eexists. reflexivity.
  - reflexivity.
  - left. lia.
  - cbn. lia.
Defined.

(** ** create_source_ref *)

Section SourceRefs.
Import SourceRef.
Local Open Scope string_scope.

Lemma substring_prefix (n : nat) :
  forall s, prefix (substring 0 n s) s = true /\
            String.length (substring 0 n s) = Nat.min n (String.length s).
Proof.
  induction n as [|n IH]; intros [|c s]; cbn; auto.
  destruct (IH s) as [Hp Hl]. rewrite Hp, Hl.
  destruct (ascii_dec c c); [auto|congruence].
Qed.

(** X. A source reference always records the page.  Without a snippet
    ([None], or the empty string) it records nothing else; with a snippet
    it records the first 100 characters of it, the whole snippet when that
    is no longer than 100: what is stored is a prefix of the snippet of
    length [min 100 (len snippet)].  No exception is raised on a [str] or
    on [None]. *)
Theorem create_source_ref_truncates (page : pyval) (snippet : string) :
  create_source_ref page VNone = inr [("page", page)] /\
  exists ref,
    create_source_ref page (VStr snippet) = inr ref /\
    dict_get ref "page" = Some page /\
    dict_get ref "snippet"
      = (if String.eqb snippet "" then None
         else Some (VStr (substring 0 100 snippet))) /\
    prefix (substring 0 100 snippet) snippet = true /\
    String.length (substring 0 100 snippet) = Nat.min 100 (String.length snippet).
Proof.
  split; [reflexivity|].
  destruct (substring_prefix 100 snippet) as [Hp Hl].
  unfold create_source_ref, py_slice_to, truthy.
  destruct (String.eqb snippet "") eqn:E; cbn [negb].
  - exists [("page", page)]. repeat split; auto.
  - exists [("page", page); ("snippet", VStr (substring 0 100 snippet))].
    repeat split; auto.
Qed.

End SourceRefs.

(** ** state_manager.py: files side by side *)

Section CheckpointFiles.
Import State Manager.
Local Open Scope string_scope.

Lemma fs_read_write_other (fs : store) (p q : string) (f : file) :
  q <> p -> fs_read (fs_write fs p f) q = fs_read fs q.
Proof.
  intros Hne. induction fs as [|[p' f'] fs IH]; cbn.
  - destruct (String.eqb_spec q p); [contradiction|reflexivity].
  - destruct (String.eqb_spec p p') as [->|Hpp']; cbn.
    + destruct (String.eqb_spec q p'); [contradiction|reflexivity].
    + destruct (String.eqb_spec q p'); [reflexivity|exact IH].
Qed.

Lemma append_assoc (a b c : string) : ((a ++ b) ++ c = a ++ (b ++ c))%string.
Proof. induction a as [|x a IH]; cbn; [reflexivity|]. now rewrite IH. Qed.

Lemma append_cancel (a b c : string) : (a ++ b = a ++ c)%string -> b = c.
Proof. induction a as [|x a IH]; cbn; intros H; [exact H|]. injection H. exact IH. Qed.

Lemma join_cancel (dir f g : string) : join dir f = join dir g -> f = g.
Proof.
  unfold join. intros H. apply append_cancel in H. cbn in H. now injection H.
Qed.

Lemma checkpoint_not_final (dir f g : string) :
  join (join dir "checkpoints") f <> join (join dir "final") g.
Proof.
  unfold join. rewrite !append_assoc. intros H. apply append_cancel in H.
  cbn in H. discriminate.
Qed.

(** X. Checkpoints saved under different names do not disturb each other:
    after [state1] is saved as [name1] and then [state2] as [name2], each
    of the two loads back as it was saved (with the time of its own save in
    [updated_at]).  The names are file names of one component. *)
Theorem checkpoints_do_not_interfere
  (dir name1 name2 now1 now2 : string) (state1 state2 : PipelineState) (fs : store)
  (t_created t_updated : string) :
  plain_name name1 = true -> plain_name name2 = true -> name1 <> name2 ->
  let self := new_manager (Some dir) in
  let fs1 := snd (save_checkpoint self state1 name1 now1 fs) in
  let fs2 := snd (save_checkpoint self state2 name2 now2 fs1) in
  load_checkpoint self fs2 name1 t_created t_updated
    = Returned (Some (set_updated_at (VStr now1) state1, [])) /\
  load_checkpoint self fs2 name2 t_created t_updated
    = Returned (Some (set_updated_at (VStr now2) state2, [])).
Proof.
  intros _ _ Hne. cbv zeta. unfold load_checkpoint, save_checkpoint, new_manager.
  cbn [checkpoint_dir option_map snd]. split.
  - rewrite fs_read_write_other, fs_read_write.
    + now rewrite from_dict_to_dict.
    + intros H. apply join_cancel in H. contradiction.
  - rewrite fs_read_write. now rewrite from_dict_to_dict.
Qed.

(** X. What is saved as a final output or as the markdown report never
    changes what a checkpoint loads as, even under the same file name
    ([db_ready.json] and [review_report.json] are written to both places):
    the two directories are apart. *)
Theorem final_outputs_leave_checkpoints
  (dir name final_name : string) (data : PipelineState + pyval) (content : str)
  (fs : store) (t_created t_updated : string) :
  plain_name name = true -> plain_name final_name = true ->
  let self := new_manager (Some dir) in
  load_checkpoint self (snd (save_final self data final_name fs)) name
                  t_created t_updated
    = load_checkpoint self fs name t_created t_updated /\
  load_checkpoint self (snd (save_markdown_report self content final_name fs)) name
                  t_created t_updated
    = load_checkpoint self fs name t_created t_updated.
Proof.
  intros _ _. cbv zeta.
  unfold load_checkpoint, save_final, save_markdown_report, new_manager.
  cbn [checkpoint_dir final_dir option_map snd].
  split; rewrite fs_read_write_other; auto using checkpoint_not_final.
Qed.

(** X. [load_checkpoint] returns [None] in exactly two cases: no storage
    root is configured, or no file of that name is among the checkpoints.
    A file that is there is never skipped: it loads as a state, or the call
    raises (a file that is no JSON, a JSON document that is no object, a
    key that [setattr] refuses). *)
Theorem load_checkpoint_none_iff
  (self : StateManager) (fs : store) (filename t_created t_updated : string) :
  load_checkpoint self fs filename t_created t_updated = Returned None
  <-> match get_checkpoint_path self filename with
      | None => True
      | Some path => fs_read fs path = None
      end.
Proof.
  unfold load_checkpoint, get_checkpoint_path.
  destruct (checkpoint_dir self) as [dir|]; [|tauto].
  destruct (fs_read fs (join dir filename)) as [f|]; [|tauto].
  split; [|discriminate].
  destruct f as [doc|content].
  - destruct doc; try discriminate.
    destruct (from_dict d t_created t_updated); discriminate.
  - destruct (json_loads content) as [doc|]; [|discriminate].
    destruct doc; try discriminate.
    destruct (from_dict d t_created t_updated); discriminate.
Qed.

(** X. The paths the getters give are the paths the writers use: a
    checkpoint is written to [get_checkpoint_path(filename)], a final output
    and the markdown report to [get_final_path(filename)], and these are
    the paths [config.get_checkpoint_path] and [config.get_final_path]
    compute from the storage root; after the write the file is there.
    Without a storage root all five return [None] and no file changes. *)
Theorem writers_use_getter_paths
  (output_dir : option string) (state : PipelineState) (data : PipelineState + pyval)
  (content : str) (filename now : string) (fs : store) :
  let self := new_manager output_dir in
  let saved := save_checkpoint self state filename now fs in
  let final := save_final self data filename fs in
  let report := save_markdown_report self content filename fs in
  fst (fst saved) = get_checkpoint_path self filename /\
  fst final = get_final_path self filename /\
  fst report = get_final_path self filename /\
  match output_dir with
  | Some dir =>
      get_checkpoint_path self filename = Some (Config.get_checkpoint_path dir filename) /\
      get_final_path self filename = Some (Config.get_final_path dir filename) /\
      (exists doc, fs_read (snd saved) (Config.get_checkpoint_path dir filename)
                   = Some (JsonFile doc)) /\
      (exists doc, fs_read (snd final) (Config.get_final_path dir filename)
                   = Some (JsonFile doc)) /\
      fs_read (snd report) (Config.get_final_path dir filename) = Some (TextFile content)
  | None =>
      get_checkpoint_path self filename = None /\
      get_final_path self filename = None /\
      snd saved = fs /\ snd final = fs /\ snd report = fs
  end.
Proof.
  cbv zeta. destruct output_dir as [dir|]; cbn.
  - unfold Config.get_checkpoint_path, Config.get_final_path.
    rewrite !fs_read_write. repeat split; eauto.
  - repeat split.
Qed.

(** X. [to_dict] lists exactly the thirteen fields, in the order of their
    declaration, each with the value the state holds; and [from_dict] undoes
    it: [PipelineState.from_dict(state.to_dict())] is a state equal to
    [state], with no attribute besides. *)
Theorem to_dict_from_dict (s : PipelineState) (t_created t_updated : string) :
  map fst (to_dict s) = field_names /\
  (forall k, dict_get (to_dict s) k = get_field s k) /\
  from_dict (to_dict s) t_created t_updated = Returned (s, []).
Proof.
  split; [reflexivity|]. split; [|apply from_dict_to_dict].
  intros k. unfold to_dict, get_field. cbn [dict_get].
  repeat (destruct (String.eqb k _); [reflexivity|]). reflexivity.
Qed.

End CheckpointFiles.

(** Two checkpoints of one run. *)
Lemma checkpoints_do_not_interfere_witness :
  let self := State.new_manager (Some "out"%string) in
  let s1 := State.new_state "t0" "t0" in
  let s2 := State.set_raw_text (VStr "Mario Rossi") s1 in
  let fs1 := snd (State.save_checkpoint self s1 "raw_text.json" "t1" []) in
  let fs2 := snd (State.save_checkpoint self s2 "structured_v0.json" "t2" fs1) in
  State.load_checkpoint self fs2 "raw_text.json" "t3" "t4"
    = State.Returned (Some (State.set_updated_at (VStr "t1") s1, [])) /\
  State.load_checkpoint self fs2 "structured_v0.json" "t3" "t4"
    = State.Returned (Some (State.set_updated_at (VStr "t2") s2, [])).
Proof.
  apply (checkpoints_do_not_interfere "out" "raw_text.json" "structured_v0.json"
           "t1" "t2"); [reflexivity | reflexivity | discriminate].
Defined.

(** The layout stage writes [db_ready.json] to both directories. *)
Lemma final_outputs_leave_checkpoints_witness :
  let self := State.new_manager (Some "out"%string) in
  let fs := snd (State.save_checkpoint self (State.new_state "t0" "t0")
                                      "db_ready.json" "t1" []) in
  State.load_checkpoint self
      (snd (State.save_final self (inr (VDict [])) "db_ready.json" fs))
      "db_ready.json" "t2" "t3"
    = State.load_checkpoint self fs "db_ready.json" "t2" "t3" /\
  State.load_checkpoint self
      (snd (State.save_markdown_report self [] "db_ready.json" fs))
      "db_ready.json" "t2" "t3"
    = State.load_checkpoint self fs "db_ready.json" "t2" "t3".
Proof.
  apply (final_outputs_leave_checkpoints "out" "db_ready.json" "db_ready.json");
    reflexivity.
Defined.

(** ** Rules for pre- and postconditions *)

Section WpRules.
Import State Driver Observed Hoare.

Lemma wp_ret {A} (a : A) Q E s : Q a s -> wp (ret a) Q E s.
Proof. exact (fun H => H). Qed.

Lemma wp_raise {A} (e : string) (Q : A -> dstate -> Prop) E s :
  E e s -> wp (@raise A e) Q E s.
Proof. exact (fun H => H). Qed.

Lemma wp_lift {A} (r : string + A) Q E s :
  match r with inr a => Q a s | inl e => E e s end -> wp (lift r) Q E s.
Proof. unfold wp, lift. destruct r; exact (fun H => H). Qed.

Lemma wp_get_state Q E s : Q (st s) s -> wp get_state Q E s.
Proof. exact (fun H => H). Qed.

Lemma wp_modify (f : PipelineState -> PipelineState) Q E s :
  Q tt (mkD (f (st s)) (files s) (trace s) (calls s) (ticks s)) ->
  wp (modify f) Q E s.
Proof. exact (fun H => H). Qed.

Lemma wp_record (ev : event) Q E s :
  Q tt (mkD (st s) (files s) (trace s ++ [ev]) (calls s) (ticks s)) ->
  wp (record ev) Q E s.
Proof. exact (fun H => H). Qed.

Lemma wp_bind {A B} (c : M A) (k : A -> M B) Q E s :
  wp c (fun a s' => wp (k a) Q E s') E s -> wp (bind c k) Q E s.
Proof. unfold wp, bind. destruct (c s) as [[e|a] s']; exact (fun H => H). Qed.

Lemma wp_catch {A} (c : M A) (h : string -> M A) Q E s :
  wp c Q (fun e s' => wp (h e) Q E s') s -> wp (catch c h) Q E s.
Proof. unfold wp, catch. destruct (c s) as [[e|a] s']; exact (fun H => H). Qed.

Lemma wp_conseq {A} (c : M A) (Q Q' : A -> dstate -> Prop)
  (E E' : string -> dstate -> Prop) s :
  wp c Q E s ->
  (forall a s', Q a s' -> Q' a s') -> (forall e s', E e s' -> E' e s') ->
  wp c Q' E' s.
Proof. unfold wp. destruct (c s) as [[e|a] s']; auto. Qed.

Lemma wp_respects {A} (R : dstate -> dstate -> Prop) (c : M A) Q E s :
  respects R c ->
  (forall a s', R s s' -> Q a s') -> (forall e s', R s s' -> E e s') ->
  wp c Q E s.
Proof.
  intros HR HQ HE. unfold wp. specialize (HR s).
  destruct (c s) as [[e|a] s']; auto.
Qed.

Lemma wp_elim {A} (c : M A) Q E s r s' :
  wp c Q E s -> c s = (r, s') ->
  match r with inr a => Q a s' | inl e => E e s' end.
Proof. unfold wp. intros H Hc. rewrite Hc in H. exact H. Qed.

Section Primitives.

Variable run_agent : string -> nat -> pyval -> agent_out.
Variable now : nat -> string.

Lemma wp_invoke (name : string) (input : pyval) Q E s :
  (let out := run_agent name (calls s) input in
   let s' := mkD (st s) (files s) (trace s ++ [EvAgent name input out])
                 (S (calls s)) (ticks s) in
   match out with
   | AgentReturn result => Q result s'
   | AgentRaise msg => E msg s'
   end) ->
  wp (invoke run_agent name input) Q E s.
Proof.
  unfold wp, invoke. cbv zeta.
  destruct (run_agent name (calls s) input); exact (fun H => H).
Qed.

Lemma wp_checkpoint (self : StateManager) (filename : string) Q E s :
  match checkpoint_dir self with
  | None => Q tt s
  | Some dir =>
      let state := set_updated_at (VStr (now (ticks s))) (st s) in
      Q tt (mkD state
                (fs_write (files s) (join dir filename) (JsonFile (VDict (to_dict state))))
                (trace s ++ [EvWrite (join dir filename)]) (calls s) (S (ticks s)))
  end ->
  wp (checkpoint now self filename) Q E s.
Proof.
  unfold wp, checkpoint, save_checkpoint.
  destruct (checkpoint_dir self) as [dir|]; exact (fun H => H).
Qed.

Lemma wp_final (self : StateManager) (data : PipelineState + pyval)
  (filename : string) Q E s :
  Q tt (mkD (st s) (snd (save_final self data filename (files s)))
            (trace s ++ match fst (save_final self data filename (files s)) with
                        | Some p => [EvWrite p]
                        | None => []
                        end)
            (calls s) (ticks s)) ->
  wp (final self data filename) Q E s.
Proof.
  unfold wp, final. destruct (save_final self data filename (files s)) as [path fs'].
  exact (fun H => H).
Qed.

Lemma wp_markdown (self : StateManager) (content : str) (filename : string) Q E s :
  Q tt (mkD (st s) (snd (save_markdown_report self content filename (files s)))
            (trace s ++ match fst (save_markdown_report self content filename (files s)) with
                        | Some p => [EvWrite p]
                        | None => []
                        end)
            (calls s) (ticks s)) ->
  wp (markdown self content filename) Q E s.
Proof.
  unfold wp, markdown.
  destruct (save_markdown_report self content filename (files s)) as [path fs'].
  exact (fun H => H).
Qed.

Lemma wp_append_error (msg : string) Q E s :
  (exists l, errors (st s) = VList l) ->
  (forall l, errors (st s) = VList l ->
     Q tt (mkD (set_errors (VList (l ++ [VStr msg])) (st s))
               (files s) (trace s) (calls s) (ticks s))) ->
  wp (append_error msg) Q E s.
Proof.
  intros [l Hl] H. unfold wp, append_error, bind, get_state, lift, modify. cbn [st].
  rewrite Hl. cbn [py_append]. now apply H.
Qed.

Lemma wp_append_completed (name : string) Q E s :
  (exists l, completed_agents (st s) = VList l) ->
  (forall l, completed_agents (st s) = VList l ->
     Q tt (mkD (set_completed_agents (VList (l ++ [VStr name])) (st s))
               (files s) (trace s) (calls s) (ticks s))) ->
  wp (append_completed name) Q E s.
Proof.
  intros [l Hl] H. unfold wp, append_completed, bind, get_state, lift, modify. cbn [st].
  rewrite Hl. cbn [py_append]. now apply H.
Qed.

End Primitives.

End WpRules.

(** One step of a computation, and the case analysis its outcome needs. *)
Ltac wp_step :=
  lazymatch goal with
  | |- Hoare.wp (Driver.bind _ _) _ _ _ => apply wp_bind
  | |- Hoare.wp (Driver.ret _) _ _ _ => apply wp_ret
  | |- Hoare.wp (Driver.raise _) _ _ _ => apply wp_raise
  | |- Hoare.wp (Driver.lift _) _ _ _ => apply wp_lift
  | |- Hoare.wp Driver.get_state _ _ _ => apply wp_get_state
  | |- Hoare.wp (Driver.modify _) _ _ _ => apply wp_modify
  | |- Hoare.wp (Driver.record _) _ _ _ => apply wp_record
  | |- Hoare.wp (Driver.catch _ _) _ _ _ => apply wp_catch
  | |- Hoare.wp (Driver.invoke _ _ _) _ _ _ => apply wp_invoke; cbv zeta
  | |- Hoare.wp (Driver.checkpoint _ _ _) _ _ _ => apply wp_checkpoint
  | |- Hoare.wp (Driver.final _ _ _) _ _ _ => apply wp_final
  | |- Hoare.wp (Driver.markdown _ _ _) _ _ _ => apply wp_markdown
  | |- Hoare.wp (if ?b then _ else _) _ _ _ => destruct b eqn:?
  | |- match State.checkpoint_dir (State.new_manager ?o) with Some _ => _ | None => _ end =>
      lazymatch o with
      | Some _ => idtac
      | None => idtac
      | _ => destruct o
      end; cbn [State.checkpoint_dir State.new_manager option_map]
  | |- match ?r with inl _ => _ | inr _ => _ end => destruct r eqn:?
  | |- match ?r with AgentReturn _ => _ | AgentRaise _ => _ end => destruct r eqn:?
  end; cbv beta;
  cbn [Driver.st Driver.files Driver.trace Driver.calls Driver.ticks].

Ltac wp_run := repeat wp_step.

(** ** orchestrator.py: the storage root, resuming, restarting *)

Section BlockingDriverFiles.
Import State Driver Orchestrator Lifecycle Observed Hoare.
Local Open Scope string_scope.

Variable run_agent : string -> nat -> pyval -> agent_out.
Variable now : nat -> string.
Variable generate_markdown_report : pyval -> string + str.

Lemma wp_intro {A} (c : M A) Q E s :
  (forall r s', c s = (r, s') ->
                match r with inr a => Q a s' | inl e => E e s' end) ->
  wp c Q E s.
Proof. intros H. unfold wp. specialize (H (fst (c s)) (snd (c s))).
  destruct (c s) as [[e|a] s']; apply H; reflexivity. Qed.

Lemma wp_any {A} (c : M A) (Q : A -> dstate -> Prop) (E : string -> dstate -> Prop) s :
  (forall a s', Q a s') -> (forall e s', E e s') -> wp c Q E s.
Proof. intros HQ HE. unfold wp. destruct (c s) as [[e|a] s']; auto. Qed.

(** What follows the loop over the stages ends with [True] or raises. *)
Lemma wp_after_stages (output_dir : option string) (s : dstate) :
  wp (_save_final_outputs output_dir ;; _print_summary output_dir ;; ret true)%driver
     (fun b _ => b = true) (fun _ _ => True) s.
Proof.
  apply wp_bind. apply wp_any; [|auto]. intros _ s1.
  apply wp_bind. apply wp_any; [|auto]. intros _ s2. reflexivity.
Qed.

Lemma same_files_refl (s : dstate) : same_files s s.
Proof. reflexivity. Qed.

Lemma same_files_trans (s1 s2 s3 : dstate) :
  same_files s1 s2 -> same_files s2 s3 -> same_files s1 s3.
Proof. unfold same_files. congruence. Qed.

Lemma files_modify (f : PipelineState -> PipelineState) :
  respects same_files (modify f).
Proof. intros s. reflexivity. Qed.

Lemma files_record (e : event) : respects same_files (record e).
Proof. intros s. reflexivity. Qed.

Lemma files_invoke (name : string) (input : pyval) :
  respects same_files (invoke run_agent name input).
Proof. intros s. unfold invoke. destruct (run_agent name (calls s) input); reflexivity. Qed.

Lemma files_checkpoint (filename : string) :
  respects same_files (checkpoint now (new_manager None) filename).
Proof. intros s. reflexivity. Qed.

Lemma files_final (data : PipelineState + pyval) (filename : string) :
  respects same_files (final (new_manager None) data filename).
Proof. intros s. reflexivity. Qed.

Lemma files_markdown (content : str) (filename : string) :
  respects same_files (markdown (new_manager None) content filename).
Proof. intros s. reflexivity. Qed.

Ltac files_leaf :=
  first [ apply files_modify | apply files_record | apply files_invoke
        | apply files_checkpoint | apply files_final | apply files_markdown ].

Ltac files_frame := frame_with same_files_refl same_files_trans files_leaf.

Lemma files_attempts (agent_name : string) (max_retries : nat) (todo : list nat) :
  respects same_files
    (attempts run_agent now generate_markdown_report None agent_name max_retries todo).
Proof.
  induction todo as [|attempt rest IH]; cbn [attempts];
    [apply (respects_ret same_files_refl)|].
  unfold attempt_body, append_error, _save_checkpoint, _generate_markdown_report,
    state_manager.
  files_frame.
Qed.

Lemma files_stages (todo : list string) :
  respects same_files (stages run_agent now generate_markdown_report None todo).
Proof.
  induction todo as [|agent_name rest IH]; cbn [stages];
    [apply (respects_ret same_files_refl)|].
  pose proof files_attempts.
  unfold _execute_agent, append_error, append_completed, _save_checkpoint, state_manager.
  files_frame.
Qed.

Lemma files_run_pipeline :
  respects same_files (run_pipeline run_agent now generate_markdown_report None).
Proof.
  unfold run_pipeline. pose proof (files_stages AGENT_ORDER).
  unfold _save_final_outputs, _print_summary, under_output_dir, state_manager.
  files_frame.
Qed.

(** X. An orchestrator built without an output directory (the default of
    its constructor) never returns [True] from [run_pipeline] and never
    writes a file: the run ends as the loop over the stages ends, except
    that when all four stages have succeeded it raises the TypeError of
    [None / 'final'] while reporting where the final outputs went. *)
Theorem run_pipeline_needs_output_dir (s : dstate) :
  let res := run_pipeline run_agent now generate_markdown_report None s in
  fst res <> inr true /\
  files (snd res) = files s /\
  match fst (stages run_agent now generate_markdown_report None AGENT_ORDER s) with
  | inr true =>
      fst res = inl "unsupported operand type(s) for /: 'NoneType' and 'str'"
  | other => fst res = other
  end.
Proof.
  cbv zeta.
  assert (H : fst (run_pipeline run_agent now generate_markdown_report None s)
              = match fst (stages run_agent now generate_markdown_report None
                                  AGENT_ORDER s) with
                | inr true =>
                    inl "unsupported operand type(s) for /: 'NoneType' and 'str'"
                | other => other
                end).
  { unfold run_pipeline. unfold bind at 1.
    destruct (stages run_agent now generate_markdown_report None AGENT_ORDER s)
      as [[e|[|]] s1]; reflexivity. }
  rewrite H. split; [|split; [apply files_run_pipeline|]];
  destruct (fst (stages run_agent now generate_markdown_report None AGENT_ORDER s))
    as [e|[|]]; try discriminate; reflexivity.
Qed.

Lemma stages_failed_checkpoint (dir : string) (todo : list string) :
  forall s,
  wp (stages run_agent now generate_markdown_report (Some dir) todo)
     (fun b s' => b = false ->
        exists name, In name todo /\
          current_agent (st s') = VStr name /\
          fs_read (files s')
                  (join (join dir "checkpoints") ("failed_" ++ name ++ ".json"))
            = Some (JsonFile (VDict (to_dict (st s')))))
     (fun _ _ => True) s.
Proof.
  induction todo as [|agent_name rest IH]; intros s; cbn [stages].
  - apply wp_ret. discriminate.
  - do 4 wp_step. apply wp_bind.
    apply (wp_respects keeps); [apply keeps_execute_agent | | auto].
    intros success s1 [_ [Hcur _]]. cbn [st current_agent set_retry_count
                                          set_current_agent] in Hcur.
    destruct success; cbn [negb].
    + apply wp_bind. apply wp_any; [|auto]. intros _ s2.
      eapply wp_conseq; [apply IH | | auto].
      intros b s' H Hb. destruct (H Hb) as [name [Hin Hrest]].
      exists name. split; [now right | exact Hrest].
    + apply wp_bind.
      apply (wp_respects keeps); [apply keeps_append_error | | auto].
      intros _ s2 [_ [Hcur2 _]].
      unfold _save_checkpoint, state_manager. wp_run.
      cbn [checkpoint_dir new_manager option_map]. intros _.
      exists agent_name. split; [now left|]. cbn [st files current_agent set_updated_at].
      split; [congruence | apply fs_read_write].
Qed.

(** X. A run that returns [False] leaves a checkpoint named after the
    stage it failed at, [failed_<stage>.json], and that stage is the one
    [current_agent] names; [load_from_checkpoint] of that file, on any
    orchestrator over the same storage root, returns [True] and installs a
    state equal to the state the failed run ended with. *)
Theorem failed_run_can_be_reloaded
  (dir : string) (s s' : dstate) (current : instance) (t_created t_updated : string) :
  run_pipeline run_agent now generate_markdown_report (Some dir) s = (inr false, s') ->
  exists name,
    In name AGENT_ORDER /\
    current_agent (st s') = VStr name /\
    load_from_checkpoint (Some dir) current (files s')
                         ("failed_" ++ name ++ ".json") t_created t_updated
      = Returned (true, (st s', [])).
Proof.
  intros Hrun. unfold run_pipeline in Hrun. apply bind_inv in Hrun.
  destruct Hrun as [[e [_ He]] | [finished [s1 [Hst Hrun]]]]; [discriminate He|].
  destruct finished.
  - pose proof (wp_elim _ _ _ _ _ _ (wp_after_stages (Some dir) s1) Hrun) as H.
    discriminate H.
  - inversion Hrun; subst s'.
    pose proof (wp_elim _ _ _ _ _ _ (stages_failed_checkpoint dir AGENT_ORDER s) Hst) as H.
    destruct (H eq_refl) as [name [Hin [Hcur Hfile]]].
    exists name. split; [exact Hin|]. split; [exact Hcur|].
    unfold load_from_checkpoint, load_checkpoint.
    cbn [checkpoint_dir new_manager option_map].
    rewrite Hfile, from_dict_to_dict. reflexivity.
Qed.

Section AnyRoot.

Variable output_dir : option string.

Lemma stages_append (todo : list string) :
  forall (l : list pyval) (s : dstate),
  completed_agents (st s) = VList l ->
  wp (stages run_agent now generate_markdown_report output_dir todo)
     (fun b s' => b = true ->
        completed_agents (st s') = VList (l ++ map VStr todo) /\
        forall name, In name todo -> agent_succeeded name (trace s'))
     (fun _ _ => True) s.
Proof.
  induction todo as [|agent_name rest IH]; intros l s Hl; cbn [stages].
  - apply wp_ret. intros _. rewrite app_nil_r. split; [exact Hl | intros name []].
  - do 4 wp_step. apply wp_bind. apply wp_intro. intros [e|success] s1 Hex; [exact I|].
    pose proof (respects_elim (keeps_execute_agent run_agent now generate_markdown_report
                                 output_dir agent_name) Hex) as [Hc _].
    cbn [st completed_agents set_retry_count set_current_agent] in Hc.
    destruct success; cbn [negb].
    + pose proof (true_after_elim
                    (true_after_execute_agent run_agent now generate_markdown_report
                       output_dir agent_name) Hex) as Hok.
      apply wp_bind. apply wp_intro. intros [e|[]] s2 Happ; [exact I|].
      apply append_completed_done in Happ.
      destruct Happ as [[e [He _]] | [l' [Hl1 [Hl2 [_ [_ Htr]]]]]]; [discriminate He|].
      assert (l' = l) by congruence. subst l'.
      apply wp_intro. intros [e|b] s3 Hrest; [exact I|].
      pose proof (wp_elim _ _ _ _ _ _ (IH _ _ Hl2) Hrest) as H. cbv beta in H.
      pose proof (respects_elim (ext_stages run_agent now generate_markdown_report
                                   output_dir rest) Hrest) as Hext.
      intros Hb. destruct (H Hb) as [Hdone Hsucc]. split.
      * rewrite Hdone, <- app_assoc. reflexivity.
      * intros name [<- | Hin]; [|now apply Hsucc].
        eapply ext_succeeded; [exact Hext|]. rewrite Htr. exact Hok.
    + do 2 (apply wp_bind; apply wp_any; [|auto]; intros ? ?).
      apply wp_ret. discriminate.
Qed.

(** X. [run_pipeline] starts at the first stage whatever the state says is
    completed: a run that returns [True] has invoked every one of the four
    stages with success during that run, and has appended the four names
    to what [completed_agents] held before.  After [load_from_checkpoint]
    of a failed run, no stage is skipped and the names of the stages
    completed earlier are listed twice. *)
Theorem run_pipeline_restarts_from_first_stage
  (s0 : PipelineState) (l : list pyval) (s' : dstate) :
  completed_agents s0 = VList l ->
  run_pipeline run_agent now generate_markdown_report output_dir (start s0)
    = (inr true, s') ->
  completed_agents (st s') = VList (l ++ map VStr AGENT_ORDER) /\
  forall name, In name AGENT_ORDER -> agent_succeeded name (trace s').
Proof.
  intros Hl Hrun. unfold run_pipeline in Hrun. apply bind_inv in Hrun.
  destruct Hrun as [[e [_ He]] | [finished [s1 [Hst Hrun]]]]; [discriminate He|].
  destruct finished; [|discriminate Hrun].
  pose proof (wp_elim _ _ _ _ _ _ (stages_append AGENT_ORDER l (start s0) Hl) Hst) as H.
  destruct (H eq_refl) as [Hdone Hsucc].
  assert (Hk : keeps s1 s').
  { revert Hrun. apply respects_elim.
    pose proof (keeps_save_final_outputs output_dir).
    pose proof (keeps_print_summary output_dir). frame. }
  destruct Hk as [Hc [_ Hext]]. split; [congruence|].
  intros name Hin. eapply ext_succeeded; [exact Hext | now apply Hsucc].
Qed.

End AnyRoot.

End BlockingDriverFiles.

Lemma failed_run_can_be_reloaded_witness :
  let res := Orchestrator.run_pipeline Observed.always_failing Observed.fixed_clock
               Observed.no_report (Some "out"%string)
               (Driver.start (State.new_state "t0" "t0")) in
  exists name,
    In name Orchestrator.AGENT_ORDER /\
    State.current_agent (Driver.st (snd res)) = VStr name /\
    Lifecycle.load_from_checkpoint (Some "out"%string)
        (State.new_state "t5" "t6", []) (Driver.files (snd res))
        ("failed_" ++ name ++ ".json") "t7" "t8"
      = State.Returned (true, (Driver.st (snd res), [])).
Proof.
  cbv zeta.
  apply (failed_run_can_be_reloaded Observed.always_failing Observed.fixed_clock
           Observed.no_report "out"
           (Driver.start (State.new_state "t0" "t0"))).
  vm_compute. reflexivity.
Defined.

Lemma run_pipeline_restarts_from_first_stage_witness :
  let res := Orchestrator.run_pipeline Observed.always_succeeding Observed.fixed_clock
               Observed.no_report (Some "out"%string)
               (Driver.start Hoare.failed_at_normalization) in
  State.completed_agents (Driver.st (snd res))
    = VList ([VStr "structuring"%string] ++ map VStr Orchestrator.AGENT_ORDER) /\
  forall name, In name Orchestrator.AGENT_ORDER ->
               Observed.agent_succeeded name (Driver.trace (snd res)).
Proof.
  cbv zeta.
  apply (run_pipeline_restarts_from_first_stage Observed.always_succeeding
           Observed.fixed_clock Observed.no_report (Some "out"%string)
           Hoare.failed_at_normalization [VStr "structuring"%string]).
  - reflexivity.
  - vm_compute. reflexivity.
Defined.

(** ** orchestrator.py: how often a stage is invoked *)

Section BlockingDriverCounts.
Import State Driver Orchestrator Observed.
Local Open Scope string_scope.

Variable run_agent : string -> nat -> pyval -> agent_out.
Variable now : nat -> string.
Variable generate_markdown_report : pyval -> string + str.
Variable output_dir : option string.

Ltac hush :=
  repeat match goal with
  | |- silent (bind _ _) => apply silent_bind; [|intro]
  | |- silent (if _ then _ else _) => apply silent_if
  | |- silent (match ?o with Some _ => _ | None => _ end) => destruct o
  | |- silent _ =>
      first
        [ assumption
        | apply silent_ret | apply silent_raise | apply silent_lift
        | apply silent_get_state | apply silent_modify | apply silent_read_clock
        | apply silent_checkpoint | apply silent_final | apply silent_markdown
        | apply silent_record; reflexivity ]
  end.

Ltac tally :=
  repeat match goal with
  | |- at_most (_ :: _) (bind (invoke _ _ _) _) => apply at_most_call; intro
  | |- at_most _ (bind _ _) => apply at_most_then; [solve [hush] | intro]
  | |- at_most _ (if _ then _ else _) => apply at_most_if
  | |- at_most _ _ => first [ assumption | apply silent_at_most; solve [hush] ]
  end.

Lemma at_most_attempt_body (agent_name : string) :
  at_most [agent_name]
    (attempt_body run_agent now generate_markdown_report output_dir agent_name).
Proof.
  unfold attempt_body, _save_checkpoint, _generate_markdown_report.
  repeat match goal with
  | |- at_most _ (if String.eqb ?a ?b then _ else _) =>
      destruct (String.eqb_spec a b) as [->|_]
  end; tally.
Qed.

Lemma at_most_attempts (agent_name : string) (max_retries : nat) (todo : list nat) :
  at_most (repeat agent_name (List.length todo))
    (attempts run_agent now generate_markdown_report output_dir
              agent_name max_retries todo).
Proof.
  induction todo as [|attempt rest IH]; cbn [attempts List.length repeat].
  - apply silent_at_most. hush.
  - apply at_most_then; [hush | intros _].
    apply (at_most_bind [agent_name] (repeat agent_name (List.length rest))).
    + apply at_most_catch; [apply at_most_attempt_body|].
      intros e. unfold append_error. hush.
    + intros done. tally.
Qed.

(** The names of [todo], each as often as a stage may be attempted. *)
Lemma at_most_stages (todo : list string) :
  at_most (flat_map (fun name => repeat name MAX_RETRIES) todo)
    (stages run_agent now generate_markdown_report output_dir todo).
Proof.
  induction todo as [|agent_name rest IH]; cbn [stages flat_map].
  - apply silent_at_most. hush.
  - do 2 (apply at_most_then; [hush | intros _]).
    apply at_most_bind; [apply (at_most_attempts agent_name MAX_RETRIES (seq 0 MAX_RETRIES))|].
    intros success. unfold append_error, append_completed, _save_checkpoint. tally.
Qed.

Lemma at_most_run_pipeline :
  at_most (flat_map (fun name => repeat name MAX_RETRIES) AGENT_ORDER)
    (run_pipeline run_agent now generate_markdown_report output_dir).
Proof.
  unfold run_pipeline.
  rewrite <- (app_nil_r (flat_map _ AGENT_ORDER)).
  apply at_most_bind; [apply at_most_stages|].
  intros finished. apply silent_at_most.
  unfold _save_final_outputs, _print_summary, under_output_dir. hush.
Qed.

Lemma count_occ_repeated (k : nat) (l : list string) (x : string) :
  count_occ string_dec (flat_map (fun name => repeat name k) l) x
  = k * count_occ string_dec l x.
Proof.
  induction l as [|y l IH]; cbn [flat_map count_occ]; [lia|].
  rewrite count_occ_app, IH.
  destruct (string_dec y x) as [->|Hne].
  - rewrite count_occ_repeat_eq by reflexivity. lia.
  - rewrite count_occ_repeat_neq by congruence. lia.
Qed.

(** X. The blocking driver invokes a stage at most [MAX_RETRIES] times in a
    run, whatever the agents return or raise: among the events a run adds
    to the trace there are at most three invocations of each of the four
    agents, twelve in all, and none of anything else; one call of
    [_execute_agent] adds at most three invocations of its stage and none
    of another. *)
Theorem stage_attempts_are_bounded (s : dstate) (agent_name : string) :
  (exists evs,
     trace (snd (run_pipeline run_agent now generate_markdown_report output_dir s))
       = (trace s ++ evs)%list /\
     forall name,
       agent_calls name evs <= MAX_RETRIES /\
       (~ In name AGENT_ORDER -> agent_calls name evs = 0)) /\
  (exists evs,
     trace (snd (_execute_agent run_agent now generate_markdown_report output_dir
                                agent_name s))
       = (trace s ++ evs)%list /\
     agent_calls agent_name evs <= MAX_RETRIES /\
     forall name, name <> agent_name -> agent_calls name evs = 0).
Proof.
  split.
  - destruct (at_most_run_pipeline s) as [evs [Ht Hn]]. exists evs.
    split; [exact Ht|]. intros name. specialize (Hn name).
    rewrite count_occ_repeated in Hn. split.
    + pose proof (agent_order_once name). nia.
    + intros Hout. rewrite (proj1 (count_occ_not_In string_dec _ _) Hout) in Hn. lia.
  - destruct (at_most_attempts agent_name MAX_RETRIES (seq 0 MAX_RETRIES) s)
      as [evs [Ht Hn]].
    exists evs. split; [exact Ht|]. split.
    + specialize (Hn agent_name). rewrite count_occ_repeat_eq in Hn by reflexivity.
      exact Hn.
    + intros name Hne. specialize (Hn name).
      rewrite count_occ_repeat_neq in Hn by congruence. lia.
Qed.

End BlockingDriverCounts.

(** ** orchestrator.py: no exception leaves a stage *)

Section BlockingDriverSafe.
Import State Driver Orchestrator Observed Hoare.
Local Open Scope string_scope.

Variable run_agent : string -> nat -> pyval -> agent_out.
Variable now : nat -> string.
Variable generate_markdown_report : pyval -> string + str.
Variable output_dir : option string.

Lemma same_errors_refl (s : dstate) : same_errors s s.
Proof. reflexivity. Qed.

Lemma same_errors_trans (s1 s2 s3 : dstate) :
  same_errors s1 s2 -> same_errors s2 s3 -> same_errors s1 s3.
Proof. unfold same_errors. congruence. Qed.

Lemma errors_modify (f : PipelineState -> PipelineState) :
  (forall x, errors (f x) = errors x) -> respects same_errors (modify f).
Proof. intros H s. apply H. Qed.

Lemma errors_record (e : event) : respects same_errors (record e).
Proof. intros s. reflexivity. Qed.

Lemma errors_invoke (name : string) (input : pyval) :
  respects same_errors (invoke run_agent name input).
Proof. intros s. unfold invoke. destruct (run_agent name (calls s) input); reflexivity. Qed.

Lemma errors_checkpoint (self : StateManager) (filename : string) :
  respects same_errors (checkpoint now self filename).
Proof. intros s. apply (checkpoint_done now self filename s). Qed.

Lemma errors_markdown (self : StateManager) (content : str) (filename : string) :
  respects same_errors (markdown self content filename).
Proof.
  intros s. unfold markdown. destruct (save_markdown_report _ _ _ _). reflexivity.
Qed.

Ltac errors_leaf :=
  first [ apply errors_invoke | apply errors_checkpoint | apply errors_markdown
        | apply errors_record | apply errors_modify; intro; reflexivity ].

(** The body of the [try] leaves [errors] alone, however it ends. *)
Lemma errors_attempt_body (agent_name : string) :
  respects same_errors
    (attempt_body run_agent now generate_markdown_report output_dir agent_name).
Proof.
  unfold attempt_body, _save_checkpoint, _generate_markdown_report.
  frame_with same_errors_refl same_errors_trans errors_leaf.
Qed.

Lemma attempts_safe (agent_name : string) (max_retries : nat) (todo : list nat) :
  forall (s : dstate) (l : list pyval),
  errors (st s) = VList l ->
  wp (attempts run_agent now generate_markdown_report output_dir
               agent_name max_retries todo)
     (fun _ s' => exists added, errors (st s') = VList (l ++ added))
     never s.
Proof.
  induction todo as [|attempt rest IH]; intros s l Hl; cbn [attempts].
  - apply wp_ret. exists []. now rewrite app_nil_r.
  - apply wp_bind, wp_modify. apply wp_bind.
    assert (Hk : forall (done : bool) (s1 : dstate) (added : list pyval),
              errors (st s1) = VList (l ++ added) ->
              wp (if done then ret true
                  else ((if (attempt <? max_retries - 1)%nat
                         then record (EvRetryNotice (2 * 2 ^ Z.of_nat attempt))
                         else ret tt) ;;
                        attempts run_agent now generate_markdown_report output_dir
                                 agent_name max_retries rest)%driver)
                 (fun _ s' => exists added', errors (st s') = VList (l ++ added'))
                 never s1).
    { intros done s1 added H1. destruct done; [apply wp_ret; eauto|].
      apply wp_bind.
      assert (Hrest : forall s2, errors (st s2) = VList (l ++ added) ->
                wp (attempts run_agent now generate_markdown_report output_dir
                             agent_name max_retries rest)
                   (fun _ s' => exists added', errors (st s') = VList (l ++ added'))
                   never s2).
      { intros s2 H2. eapply wp_conseq; [apply (IH s2 _ H2) | | intros e s' []].
        intros b s' [more Hmore]. exists (added ++ more)%list.
        now rewrite app_assoc. }
      destruct (attempt <? max_retries - 1)%nat;
        [apply wp_record | apply wp_ret]; apply Hrest; exact H1. }
    apply wp_catch.
    apply (wp_respects same_errors); [apply errors_attempt_body | |].
    + intros done s1 H1. apply (Hk done s1 []).
      rewrite app_nil_r. unfold same_errors in H1.
      cbn [st errors set_retry_count] in H1. congruence.
    + intros e s1 H1. unfold same_errors in H1.
      cbn [st errors set_retry_count] in H1.
      apply wp_bind. apply wp_append_error; [exists l; congruence|].
      intros l' Hl'. apply wp_ret.
      apply (Hk false _ [VStr (agent_name ++ ": " ++ e)]). cbn [st errors set_errors].
      f_equal. f_equal. congruence.
Qed.

(** X. No exception leaves [_execute_agent]: whatever the stage, whatever
    its agent and the report writer return or raise, and with or without a
    storage root, from every state whose [errors] is a list the call
    returns [True] or [False].  What is raised during an attempt is caught
    by the [try] and noted: [errors] is afterwards the list it was, with
    entries appended at its end. *)
Theorem execute_agent_never_raises (agent_name : string) (s : dstate) (l : list pyval) :
  errors (st s) = VList l ->
  let res := _execute_agent run_agent now generate_markdown_report output_dir
                            agent_name s in
  (exists b, fst res = inr b) /\
  exists added, errors (st (snd res)) = VList (l ++ added).
Proof.
  intros Hl. cbv zeta. unfold _execute_agent.
  pose proof (attempts_safe agent_name MAX_RETRIES (seq 0 MAX_RETRIES) s l Hl) as H.
  unfold wp in H.
  destruct (attempts run_agent now generate_markdown_report output_dir agent_name
              MAX_RETRIES (seq 0 MAX_RETRIES) s) as [[e|b] s'];
    [destruct H|]. split; [exists b; reflexivity | exact H].
Qed.

End BlockingDriverSafe.

(** The agents raise on every call: three entries are noted. *)
Lemma execute_agent_never_raises_witness :
  let res := Orchestrator._execute_agent (fun _ _ _ => AgentRaise "connection lost")
               Observed.fixed_clock Observed.no_report (Some "out"%string)
               "structuring"%string (Driver.start (State.new_state "t0" "t0")) in
  (exists b, fst res = inr b) /\
  exists added, State.errors (Driver.st (snd res)) = VList ([] ++ added).
Proof.
  apply (execute_agent_never_raises (fun _ _ _ => AgentRaise "connection lost")
           Observed.fixed_clock Observed.no_report (Some "out"%string)
           "structuring"%string (Driver.start (State.new_state "t0" "t0")) []).
  reflexivity.
Defined.

(** ** orchestrator.py: initialize *)

Section Initialising.
Import State Driver Orchestrator Lifecycle Observed Hoare.
Local Open Scope string_scope.

Variable run_agent : string -> nat -> pyval -> agent_out.
Variable now : nat -> string.
Variable generate_markdown_report : pyval -> string + str.
Variable output_dir : option string.
Variable read_text : string -> string + string.

(** X. [initialize] returns [False] exactly when the source file cannot
    be read.  Whatever the state object held before, it then holds the path
    in [source_file], zero in [retry_count] and no completed stage; when
    the file could be read also the text in [raw_text], no error and
    [structuring] as the current stage, and once [True] is returned the
    raw checkpoint is on disk (without a storage root [True] is returned
    and no file is written); after [False] one error, which carries the
    message of the failure, [init] as the current stage, and no file has
    been written. *)
Theorem initialize_resets (path : string) (s : dstate) :
  let res := initialize now output_dir read_text path s in
  let x := st (snd res) in
  source_file x = VStr path /\
  retry_count x = VInt 0 /\
  completed_agents x = VList [] /\
  match read_text path with
  | inr text =>
      fst res <> inr false /\
      raw_text x = VStr text /\
      errors x = VList [] /\
      current_agent x = VStr "structuring" /\
      touched (initialized (st s) path text) x /\
      match output_dir with
      | Some dir =>
          fst res = inr true ->
          fs_read (files (snd res)) (Config.get_checkpoint_path dir "raw_text.json")
            = Some (JsonFile (VDict (to_dict x)))
      | None => fst res = inr true /\ files (snd res) = files s
      end
  | inl e =>
      fst res = inr false /\
      raw_text x = raw_text (st s) /\
      errors x = VList [VStr ("Failed to read source file: " ++ e)] /\
      current_agent x = VStr "init" /\
      files (snd res) = files s
  end.
Proof.
  cbv zeta. unfold initialize, _save_checkpoint, state_manager, checkpoint.
  destruct (read_text path) as [e|text] eqn:R; destruct output_dir as [dir|];
    cbn -[String.append fs_read fs_write to_dict].
  all: repeat split; try reflexivity; try discriminate.
  - right. eexists. reflexivity.
  - intros _. apply fs_read_write.
  - left. reflexivity.
Qed.

Lemma initialize_lists (s s1 : dstate) (path : string) :
  initialize now output_dir read_text path s = (inr true, s1) ->
  errors (st s1) = VList [] /\ completed_agents (st s1) = VList [].
Proof.
  unfold initialize, _save_checkpoint, state_manager, checkpoint.
  destruct (read_text path) as [e|text]; destruct output_dir as [dir|];
    cbn -[String.append fs_read fs_write to_dict]; intros H;
    inversion H; subst; split; reflexivity.
Qed.

(** The order of the stages after a run from a state with no completed
    stage. *)
Lemma run_pipeline_order (s : dstate) (r : string + bool) (s' : dstate) :
  completed_agents (st s) = VList [] ->
  run_pipeline run_agent now generate_markdown_report output_dir s = (r, s') ->
  (r = inr true -> completed_agents (st s') = VList (map VStr AGENT_ORDER)) /\
  (r = inr false ->
   exists k, k < List.length AGENT_ORDER /\
     current_agent (st s') = VStr (nth k AGENT_ORDER "") /\
     completed_agents (st s') = VList (map VStr (firstn k AGENT_ORDER)) /\
     exists l, errors (st s') = VList l /\ l <> []).
Proof.
  intros Hinit Hrun. unfold run_pipeline in Hrun. apply bind_inv in Hrun.
  assert (Hnone : forall name, In name (@nil string) -> agent_succeeded name (trace s))
    by (intros name []).
  destruct Hrun as [[e [Hst ->]] | [finished [s1 [Hst Hrun]]]];
    [split; discriminate|].
  destruct (stages_spec run_agent now generate_markdown_report output_dir
              AGENT_ORDER [] s _ _ Hinit Hnone Hst) as [_ [Hyes Hno]].
  destruct finished.
  - assert (Hk : keeps s1 s').
    { revert Hrun. apply respects_elim.
      pose proof (keeps_save_final_outputs output_dir).
      pose proof (keeps_print_summary output_dir). frame. }
    destruct Hk as [Hc _]. split.
    + intros _. rewrite Hc. now apply Hyes.
    + intros ->. exfalso.
      pose proof (wp_elim _ _ _ _ _ _ (wp_after_stages output_dir s1) Hrun) as H.
      discriminate H.
  - inversion Hrun; subst r s'. split; [discriminate|]. intros _. now apply Hno.
Qed.

End Initialising.

Section InitialisedRuns.
Import State Driver Orchestrator Lifecycle Observed Hoare.
Local Open Scope string_scope.

Variable run_agent : string -> nat -> pyval -> agent_out.
Variable now : nat -> string.
Variable generate_markdown_report : pyval -> string + str.
Variable output_dir : option string.
Variable read_text : string -> string + string.

(** X. [initialize] followed by [run_pipeline], as the command line runs
    them, whatever the state of the orchestrator held before: once
    [initialize] has returned [True], a run that returns [True] leaves
    exactly the four stage names, in order, in [completed_agents], and a
    run that returns [False] stopped at some stage k and leaves exactly
    the names of the stages before it there, that stage as the current one,
    and an error recorded. *)
Theorem initialize_then_run_pipeline
  (path : string) (s s1 s2 : dstate) (r : string + bool) :
  initialize now output_dir read_text path s = (inr true, s1) ->
  run_pipeline run_agent now generate_markdown_report output_dir s1 = (r, s2) ->
  (r = inr true -> completed_agents (st s2) = VList (map VStr AGENT_ORDER)) /\
  (r = inr false ->
   exists k, k < List.length AGENT_ORDER /\
     current_agent (st s2) = VStr (nth k AGENT_ORDER "") /\
     completed_agents (st s2) = VList (map VStr (firstn k AGENT_ORDER)) /\
     exists l, errors (st s2) = VList l /\ l <> []).
Proof.
  intros Hinit Hrun.
  destruct (initialize_lists now output_dir read_text _ _ _ Hinit) as [He Hc].
  exact (run_pipeline_order run_agent now generate_markdown_report output_dir
           _ _ _ Hc Hrun).
Qed.

End InitialisedRuns.

(** A readable source and agents that fail: the run stops at the first
    stage. *)
Lemma initialize_then_run_pipeline_witness :
  let s1 := snd (Lifecycle.initialize Observed.fixed_clock (Some "out"%string)
                   Lifecycle.readable "doc.md"
                   (Driver.start (State.new_state "t0" "t0"))) in
  let res := Orchestrator.run_pipeline Observed.always_failing Observed.fixed_clock
               Observed.no_report (Some "out"%string) s1 in
  (fst res = inr true ->
   State.completed_agents (Driver.st (snd res))
     = VList (map VStr Orchestrator.AGENT_ORDER)) /\
  (fst res = inr false ->
   exists k, k < List.length Orchestrator.AGENT_ORDER /\
     State.current_agent (Driver.st (snd res))
       = VStr (nth k Orchestrator.AGENT_ORDER ""%string) /\
     State.completed_agents (Driver.st (snd res))
       = VList (map VStr (firstn k Orchestrator.AGENT_ORDER)) /\
     exists l, State.errors (Driver.st (snd res)) = VList l /\ l <> []).
Proof.
  cbv zeta.
  eapply (initialize_then_run_pipeline Observed.always_failing Observed.fixed_clock
            Observed.no_report (Some "out"%string) Lifecycle.readable
            "doc.md" (Driver.start (State.new_state "t0" "t0"))).
  - vm_compute. reflexivity.
  - apply surjective_pairing.
Defined.

(** ** pipeline_runner.py: exceptions, bookkeeping, the order of the stages *)

Section EventDriverRuns.
Import State Driver Orchestrator Runner Observed Progress.
Local Open Scope string_scope.

Variable run_agent : string -> nat -> pyval -> agent_out.
Variable now : nat -> string.
Variable generate_markdown_report : pyval -> string + str.
Variable ocr : ocr_out.
Variable websocket : bool.
Variable output_dir : string.
Variable stem : string.

#[local] Abbreviation run_body' :=
  (run_body run_agent now generate_markdown_report ocr websocket output_dir stem).
#[local] Abbreviation runner' :=
  (run run_agent now generate_markdown_report ocr websocket output_dir stem).

(** X. No exception leaves [run]: whatever the OCR step, the agents and
    the report writer do, it returns [True] or [False].  An exception
    raised anywhere on the way is answered with [False] after one [error]
    event that carries its message (when a socket is attached); no
    [complete] event follows it. *)
Theorem run_never_raises (s : dstate) :
  (exists b, fst (runner' s) = inr b) /\
  match run_body' s with
  | (inr b, s1) => runner' s = (inr b, s1)
  | (inl e, s1) =>
      fst (runner' s) = inr false /\
      trace (snd (runner' s))
        = (trace s1 ++ if websocket then [EvEmit "error" [("message", VStr e)]] else [])%list
  end.
Proof.
  unfold run, catch. destruct (run_body' s) as [[e|b] s1].
  - unfold emit. destruct websocket; cbn.
    + split; [eexists; reflexivity|]. split; reflexivity.
    + split; [eexists; reflexivity|]. split; [reflexivity | now rewrite app_nil_r].
  - split; [eexists; reflexivity | reflexivity].
Qed.

(** *** Bookkeeping *)

Lemma unbooked_refl (s : dstate) : unbooked s s.
Proof. reflexivity. Qed.

Lemma unbooked_trans (s1 s2 s3 : dstate) :
  unbooked s1 s2 -> unbooked s2 s3 -> unbooked s1 s3.
Proof. unfold unbooked. congruence. Qed.

Lemma unbooked_modify (f : PipelineState -> PipelineState) :
  (forall x, bookkeeping (f x) = bookkeeping x) -> respects unbooked (modify f).
Proof. intros H s. apply H. Qed.

Lemma unbooked_same_state {A} (c : M A) :
  (forall s, st (snd (c s)) = st s) -> respects unbooked c.
Proof. intros H s. unfold unbooked. now rewrite H. Qed.

Lemma unbooked_invoke (name : string) (input : pyval) :
  respects unbooked (invoke run_agent name input).
Proof.
  apply unbooked_same_state. intros s. unfold invoke.
  destruct (run_agent name (calls s) input); reflexivity.
Qed.

Lemma unbooked_checkpoint (self : StateManager) (filename : string) :
  respects unbooked (checkpoint now self filename).
Proof.
  intros s. unfold checkpoint, save_checkpoint.
  destruct (checkpoint_dir self); reflexivity.
Qed.

Lemma unbooked_final (self : StateManager) (data : PipelineState + pyval)
  (filename : string) : respects unbooked (final self data filename).
Proof.
  apply unbooked_same_state. intros s. unfold final.
  destruct (save_final self data filename (files s)). reflexivity.
Qed.

Lemma unbooked_markdown (self : StateManager) (content : str) (filename : string) :
  respects unbooked (markdown self content filename).
Proof.
  apply unbooked_same_state. intros s. unfold markdown.
  destruct (save_markdown_report self content filename (files s)). reflexivity.
Qed.

Lemma unbooked_emit (kind : string) (data : dict) :
  respects unbooked (emit websocket kind data).
Proof. apply unbooked_same_state. intros s. unfold emit. destruct websocket; reflexivity. Qed.

Lemma unbooked_emit_log (message : pyval) :
  respects unbooked (emit_log now websocket message).
Proof.
  apply unbooked_same_state. intros s. unfold emit_log, emit, bind, read_clock.
  destruct websocket; reflexivity.
Qed.

Lemma unbooked_record (e : event) : respects unbooked (record e).
Proof. apply unbooked_same_state. reflexivity. Qed.

Lemma unbooked_run_ocr : respects unbooked (_run_ocr_async ocr output_dir stem).
Proof.
  apply unbooked_same_state. intros s. unfold _run_ocr_async.
  destruct ocr; reflexivity.
Qed.

Lemma unbooked_read_markdown : respects unbooked (read_markdown output_dir stem).
Proof.
  apply unbooked_same_state. intros s. unfold read_markdown.
  destruct (fs_read (files s) (md_path output_dir stem)) as [[doc|content]|]; reflexivity.
Qed.

Ltac unbooked_leaf :=
  first
    [ apply unbooked_invoke | apply unbooked_checkpoint | apply unbooked_final
    | apply unbooked_markdown | apply unbooked_emit_log | apply unbooked_emit
    | apply unbooked_record | apply unbooked_run_ocr | apply unbooked_read_markdown
    | apply unbooked_modify; intro; reflexivity ].

Ltac unbooked_frame := frame_with unbooked_refl unbooked_trans unbooked_leaf.

Lemma unbooked_handle_attempts (agent_name : string) (error : pyval) (todo : list nat) :
  respects unbooked (handle_attempts now websocket agent_name error todo).
Proof.
  induction todo as [|attempt rest IH]; cbn [handle_attempts]; unbooked_frame.
Qed.

Lemma unbooked_run : respects unbooked runner'.
Proof.
  pose proof unbooked_handle_attempts.
  unfold run, run_body, structuring_step, normalization_step, layout_step,
    human_review_step, fail_stage, _handle_agent_error, _run_agent_async.
  unbooked_frame.
Qed.

(** X. The event-driven driver keeps no books: a run leaves [source_file],
    [current_agent], [checkpoint_file], [retry_count], [errors],
    [completed_agents] and [created_at] as they were, whether stages
    succeed or fail; on the state a [PipelineRunner] is constructed with,
    [current_agent] is still [init] and [completed_agents] and [errors] are
    still empty after the run, and so in every checkpoint it wrote. *)
Theorem run_keeps_no_books (s : dstate) (t_created t_updated : string) :
  bookkeeping (st (snd (runner' s))) = bookkeeping (st s) /\
  let built := start (constructed t_created t_updated output_dir stem) in
  current_agent (st (snd (runner' built))) = VStr "init" /\
  completed_agents (st (snd (runner' built))) = VList [] /\
  errors (st (snd (runner' built))) = VList [].
Proof.
  split; [apply unbooked_run|]. cbv zeta.
  pose proof (unbooked_run (start (constructed t_created t_updated output_dir stem))) as H.
  unfold unbooked, bookkeeping in H. cbn [st start] in H.
  inversion H. repeat split; reflexivity.
Qed.

(** *** The order of the invocations *)

Lemma invoked_app (e1 e2 : list event) : invoked (e1 ++ e2) = (invoked e1 ++ invoked e2)%list.
Proof. unfold invoked. apply flat_map_app. Qed.

Lemma mute_of_silent {A} (c : M A) : silent c -> mute c.
Proof.
  intros H s. destruct (H s) as [evs [Ht Hn]]. exists evs. split; [exact Ht|].
  clear Ht. induction evs as [|e evs IH]; [reflexivity|].
  assert (Hrest : forall name, agent_calls name evs = 0).
  { intros name. specialize (Hn name). unfold agent_calls in *. cbn [filter] in Hn.
    destruct (is_agent_call name e); cbn [List.length] in Hn; [discriminate | exact Hn]. }
  destruct e as [| |name input out| | |]; cbn [invoked flat_map app]; try (apply IH, Hrest).
  specialize (Hn name). unfold agent_calls in Hn. cbn [filter is_agent_call] in Hn.
  rewrite String.eqb_refl in Hn. discriminate Hn.
Qed.

Lemma in_order_then {A} (names : list string) (c : M A) (k : A -> M bool) :
  mute c -> (forall a, in_order names (k a)) -> in_order names (bind c k).
Proof.
  intros Hc Hk s. unfold bind. destruct (Hc s) as [e1 [H1 N1]].
  destruct (c s) as [[e|a] s1]; cbn [fst snd] in *.
  - exists e1. split; [exact H1|]. split; [exists 0; now rewrite N1 | discriminate].
  - destruct (Hk a s1) as [e2 [H2 [[n Hn] Hall]]].
    exists (e1 ++ e2)%list. split; [now rewrite H2, H1, app_assoc|].
    rewrite invoked_app, N1. cbn [app]. split; [exists n; exact Hn | exact Hall].
Qed.

Lemma in_order_call (name : string) (names : list string) (input : pyval)
  (k : pyval -> M bool) :
  (forall a, in_order names (k a)) ->
  in_order (name :: names) (bind (_run_agent_async run_agent name input) k).
Proof.
  intros Hk s. unfold bind, _run_agent_async, invoke.
  destruct (run_agent name (calls s) input) as [result|msg] eqn:E; cbn [fst snd].
  - match goal with |- context [k result ?s1] => destruct (Hk result s1) as [e2 [H2 [[n Hn] Hall]]] end.
    cbn [trace] in H2.
    exists (EvAgent name input (AgentReturn result) :: e2). split.
    + rewrite H2, <- app_assoc. reflexivity.
    + cbn [invoked flat_map app]. fold (invoked e2). split.
      * exists (S n). cbn [firstn]. now rewrite Hn.
      * intros Hr. now rewrite (Hall Hr).
  - exists [EvAgent name input (AgentRaise msg)]. split; [reflexivity|].
    split; [exists 1; reflexivity | discriminate].
Qed.

Lemma in_order_if (names : list string) (b : bool) (c1 c2 : M bool) :
  in_order names c1 -> in_order names c2 -> in_order names (if b then c1 else c2).
Proof. destruct b; auto. Qed.

Lemma in_order_done (names : list string) (c : M bool) :
  mute c -> not_true c -> in_order names c.
Proof.
  intros Hm Hn s. destruct (Hm s) as [evs [Ht Hi]]. exists evs.
  split; [exact Ht|]. split; [exists 0; now rewrite Hi|].
  intros H. destruct (Hn s H).
Qed.

Lemma in_order_last (c : M bool) : mute c -> in_order [] c.
Proof.
  intros Hm s. destruct (Hm s) as [evs [Ht Hi]]. exists evs.
  split; [exact Ht|]. split; [exists 0; now rewrite Hi | intros _; exact Hi].
Qed.

Lemma in_order_catch (names : list string) (c : M bool) (h : string -> M bool) :
  in_order names c -> (forall e, mute (h e)) -> (forall e, not_true (h e)) ->
  in_order names (catch c h).
Proof.
  intros Hc Hm Hn s. unfold catch. destruct (Hc s) as [e1 [H1 [[n N1] Hall]]].
  destruct (c s) as [[e|b] s1]; cbn [fst snd] in *.
  - destruct (Hm e s1) as [e2 [H2 N2]].
    exists (e1 ++ e2)%list. split; [now rewrite H2, H1, app_assoc|].
    rewrite invoked_app, N2, app_nil_r. split; [exists n; exact N1|].
    intros H. destruct (Hn e s1 H).
  - exists e1. split; [exact H1|]. split; [exists n; exact N1 | exact Hall].
Qed.

Lemma not_true_bind {A} (c : M A) (k : A -> M bool) :
  (forall a, not_true (k a)) -> not_true (bind c k).
Proof.
  intros Hk s. unfold bind. destruct (c s) as [[e|a] s1]; [discriminate | apply Hk].
Qed.

Lemma not_true_false : not_true (ret false).
Proof. intros s. discriminate. Qed.

Lemma not_true_fail_stage (agent_name : string) (result : pyval) :
  not_true (fail_stage now websocket agent_name result).
Proof.
  unfold fail_stage. do 2 (apply not_true_bind; intro). apply not_true_false.
Qed.

Ltac hushed :=
  repeat match goal with
  | |- silent (bind _ _) => apply silent_bind; [|intro]
  | |- silent (if _ then _ else _) => apply silent_if
  | |- silent _ =>
      first
        [ assumption
        | apply silent_ret | apply silent_raise | apply silent_lift
        | apply silent_get_state | apply silent_modify | apply silent_read_clock
        | apply silent_emit | apply silent_emit_log | apply silent_checkpoint
        | apply silent_final | apply silent_markdown | apply silent_fail_stage
        | apply silent_run_ocr | apply silent_read_markdown
        | apply silent_record; reflexivity ]
  end.

Ltac muted := apply mute_of_silent; solve [hushed].

Ltac ordered :=
  repeat match goal with
  | |- in_order [] _ => apply in_order_last; muted
  | |- in_order (_ :: _) (bind (_run_agent_async _ _ _) _) => apply in_order_call; intro
  | |- in_order _ (bind _ _) => apply in_order_then; [muted | intro]
  | |- in_order _ (if _ then _ else _) => apply in_order_if
  | |- in_order _ (fail_stage _ _ _ _) =>
      apply in_order_done; [muted | apply not_true_fail_stage]
  | |- in_order _ _ => assumption
  end.

Lemma in_order_human_review :
  in_order ["human_review"]
    (human_review_step run_agent now generate_markdown_report websocket output_dir).
Proof. unfold human_review_step. ordered. Qed.

Lemma in_order_layout :
  in_order ["layout"; "human_review"]
    (layout_step run_agent now generate_markdown_report websocket output_dir).
Proof. unfold layout_step. pose proof in_order_human_review. ordered. Qed.

Lemma in_order_normalization :
  in_order ["normalization"; "layout"; "human_review"]
    (normalization_step run_agent now generate_markdown_report websocket output_dir).
Proof. unfold normalization_step. pose proof in_order_layout. ordered. Qed.

Lemma in_order_structuring :
  in_order AGENT_ORDER
    (structuring_step run_agent now generate_markdown_report websocket output_dir).
Proof.
  unfold structuring_step, AGENT_ORDER. pose proof in_order_normalization. ordered.
Qed.

Lemma in_order_run : in_order AGENT_ORDER runner'.
Proof.
  unfold run. apply in_order_catch.
  - unfold run_body. pose proof in_order_structuring.
    do 3 (apply in_order_then; [muted | intro]).
    apply in_order_if; [|ordered].
    apply in_order_done; [muted|].
    do 2 (apply not_true_bind; intro). apply not_true_false.
  - intros e. muted.
  - intros e. apply not_true_bind; intro. apply not_true_false.
Qed.

(** X. The event-driven driver invokes the agents in the fixed order of
    the stages, each at most once and none before the one before it: the
    names of the agents a run invokes, in the order of the invocations, are
    the first k names of the stage order for some k, and all four when the
    run returns [True].  Without a converted document (the OCR step fails
    or raises) no agent is invoked. *)
Theorem run_invokes_stages_in_order (s : dstate) :
  exists evs,
    trace (snd (runner' s)) = (trace s ++ evs)%list /\
    (exists k, invoked evs = firstn k AGENT_ORDER) /\
    (fst (runner' s) = inr true -> invoked evs = AGENT_ORDER) /\
    match ocr with
    | OcrOk _ => True
    | _ => invoked evs = []
    end.
Proof.
  destruct (in_order_run s) as [evs [Ht [Hk Hall]]].
  exists evs. split; [exact Ht|]. split; [exact Hk|]. split; [exact Hall|].
  destruct ocr as [markdown| |msg]; [exact I| |];
    cbv [run run_body catch bind emit_log emit read_clock _run_ocr_async record
         ret raise negb fst snd] in Ht;
    destruct websocket; cbn [trace st files calls ticks] in Ht;
    rewrite <- ?app_assoc in Ht;
    first [ apply app_inv_head in Ht
          | rewrite <- (app_nil_r (trace s)) in Ht at 1; apply app_inv_head in Ht ];
    subst evs; reflexivity.
Qed.

End EventDriverRuns.

(** ** agents/*.py: what process returns *)

Section AgentResults.
Import Client Budget Structuring Agents.
Local Open Scope string_scope.

Variable http : nat -> http_reply.
Variable loads : str -> failure + pyval.
Variable describe : failure -> string.
Variable py_str : pyval -> string.

#[local] Abbreviation process' := (process http loads describe py_str).
#[local] Abbreviation layout_process' := (layout_process http loads describe py_str).

Lemma dict_get_set (d : dict) (k : string) (v : pyval) :
  dict_get (dict_set d k v) k = Some v.
Proof.
  induction d as [|[k' v'] d IH]; cbn.
  - now rewrite String.eqb_refl.
  - destruct (String.eqb k k') eqn:E; cbn; rewrite E; [reflexivity | exact IH].
Qed.

(** A call returns a response and no error, or an error and no response. *)
Lemma call_with_retry_either (max_retries : option Z) :
  (exists response, fst (call_with_retry http max_retries) = (Some response, None)) \/
  (exists msg, fst (call_with_retry http max_retries) = (None, Some msg)).
Proof.
  pose proof (retry_budget_nonzero max_retries) as Hnz.
  destruct (Z.lt_trichotomy (retry_budget max_retries) 0) as [Hneg | [H0 | Hpos]];
    [|contradiction|].
  - right. rewrite (call_with_retry_unentered http max_retries Hneg).
    eexists. reflexivity.
  - destruct (call_with_retry_entered http max_retries Hpos) as [k [_ [_ [_ Hlast]]]].
    destruct (chat (http k)) as [[msg|msg]|response].
    + right. exists msg. apply Hlast.
    + right. exists msg. exact Hlast.
    + left. exists response. exact Hlast.
Qed.

Lemma flagged_failure (d : dict) (msg : string) :
  flagged_result (VDict (("error", VStr msg) :: ("success", VBool false) :: d)).
Proof. exists (("error", VStr msg) :: ("success", VBool false) :: d), false.
  repeat split. exists msg. reflexivity. Qed.

Lemma flagged_flagged (response result : pyval) :
  flagged_result (flagged describe py_str response result).
Proof.
  destruct result; try apply flagged_failure.
  exists (dict_set d "success" (VBool true)), true. cbn.
  rewrite dict_get_set. repeat split.
Qed.

Lemma flagged_parsed (response : pyval) :
  flagged_result (parsed loads describe py_str response).
Proof.
  unfold parsed. destruct (message_content response) as [e|content];
    [apply flagged_failure|].
  destruct (negb (truthy content)); [apply flagged_failure|].
  destruct content; try apply flagged_failure.
  cbv zeta. destruct (loads _); [apply flagged_failure | apply flagged_flagged].
Qed.

Lemma flagged_layout_parsed (response : pyval) :
  flagged_result (layout_parsed loads describe py_str response).
Proof.
  unfold layout_parsed. destruct (message_content response) as [e|content];
    [apply flagged_failure|].
  destruct (negb (truthy content)); [apply flagged_failure|].
  destruct content; try apply flagged_failure.
  destruct (extract_json_from_text loads _); [apply flagged_failure|].
  destruct (negb (truthy _)); [apply flagged_failure | apply flagged_flagged].
Qed.

Lemma flagged_process_with (body : pyval -> pyval) :
  (forall response, flagged_result (body response)) ->
  flagged_result (fst (process_with http body)).
Proof.
  intros Hbody. unfold process_with.
  destruct (call_with_retry http None) as [[response [msg|]] evs]; cbn [fst];
    [|apply Hbody].
  destruct (negb (String.eqb msg "")); cbn [fst]; [apply flagged_failure | apply Hbody].
Qed.

(** X. The four agents raise nothing and always answer with a dict whose
    [success] entry is [True] or [False], so that the driver's test
    [result.get("success")] reads that boolean; an answer with [False]
    carries a text under [error].  A failure of the transport is passed on:
    when the call with retries returns an error message (not empty), the
    answer is exactly [{"error": message, "success": False}]. *)
Theorem process_flags_its_result :
  flagged_result (fst process') /\
  flagged_result (fst layout_process') /\
  forall msg,
    fst (call_with_retry http None) = (None, Some msg) -> msg <> "" ->
    fst process' = transport_failure msg /\
    fst layout_process' = transport_failure msg.
Proof.
  split; [apply flagged_process_with, flagged_parsed|].
  split; [apply flagged_process_with, flagged_layout_parsed|].
  intros msg Hcall Hmsg. unfold process, layout_process, process_with.
  destruct (call_with_retry http None) as [[response error] evs]. cbn [fst] in *.
  inversion Hcall; subst.
  destruct (String.eqb_spec msg ""); [contradiction|]. split; reflexivity.
Qed.

Lemma unflagged_failure (d : dict) (msg : string) :
  Eff.success_marker (VDict (("error", VStr msg) :: ("success", VBool false) :: d)) = false.
Proof. reflexivity. Qed.

Lemma success_of_flagged (response result : pyval) :
  Eff.success_marker (flagged describe py_str response result) = true ->
  exists d, result = VDict d.
Proof.
  destruct result; cbn [flagged]; try (unfold parse_failure; rewrite unflagged_failure;
                                        discriminate).
  intros _. eauto.
Qed.

(** What [process_with] answers when its body succeeds: the transport gave
    a response, and the body is the answer. *)
Lemma success_of_process_with (body : pyval -> pyval) :
  body VNone = parse_failure describe py_str VNone (TypeError VNone) ->
  Eff.success_marker (fst (process_with http body)) = true ->
  exists response,
    fst (call_with_retry http None) = (Some response, None) /\
    fst (process_with http body) = body response.
Proof.
  intros Hnone. unfold process_with.
  destruct (call_with_retry_either None) as [[response Hr] | [msg Hr]];
    destruct (call_with_retry http None) as [[r e] evs]; cbn [fst] in *;
    inversion Hr; subst; clear Hr; cbn [fst].
  - intros _. exists response. split; reflexivity.
  - destruct (negb (String.eqb msg "")); cbn [fst]; [discriminate|].
    rewrite Hnone. unfold parse_failure. rewrite unflagged_failure. discriminate.
Qed.

Lemma process_with_response (body : pyval -> pyval) (response : pyval) :
  fst (call_with_retry http None) = (Some response, None) ->
  fst (process_with http body) = body response.
Proof.
  intros H. unfold process_with.
  destruct (call_with_retry http None) as [[r e] evs]. cbn [fst] in *.
  inversion H; subst. reflexivity.
Qed.

(** The [try] of the three agents succeeds on a text that [json.loads]
    turns into a dict, and on nothing else. *)
Lemma parsed_succeeds (response : pyval) :
  Eff.success_marker (parsed loads describe py_str response) = true ->
  exists c d,
    message_content response = inr (VStr c) /\ c <> "" /\
    loads (_extract_json (txt c)) = inr (VDict d).
Proof.
  unfold parsed. destruct (message_content response) as [f|content];
    [unfold parse_failure; rewrite unflagged_failure; discriminate|].
  destruct (truthy content) eqn:Ht; cbn [negb]; [|discriminate].
  destruct content as [| | | | | |c| |];
    try (unfold parse_failure; rewrite unflagged_failure; discriminate).
  cbv zeta. destruct (loads (_extract_json (txt c))) as [e|result] eqn:Hl;
    [unfold parse_failure; rewrite unflagged_failure; discriminate|].
  intros Hs. apply success_of_flagged in Hs. destruct Hs as [d ->].
  exists c, d. repeat split; try reflexivity; try assumption.
  intros ->. discriminate Ht.
Qed.

Lemma parsed_value (response : pyval) (c : string) (d : dict) :
  message_content response = inr (VStr c) -> c <> "" ->
  loads (_extract_json (txt c)) = inr (VDict d) ->
  parsed loads describe py_str response = VDict (dict_set d "success" (VBool true)).
Proof.
  intros Hm Hc Hl. unfold parsed. rewrite Hm.
  assert (Ht : truthy (VStr c) = true)
    by (cbn; destruct (String.eqb_spec c ""); [contradiction | reflexivity]).
  rewrite Ht. cbn [negb]. cbv zeta. rewrite Hl. reflexivity.
Qed.

(** X. [StructuringAgent.process], [NormalizationAgent.process] and
    [HumanReviewAgent.process] answer with success exactly when the
    transport returned a response, the message of its first choice has a
    text that is not empty ([content], or [reasoning_content] when that is
    missing or empty), and [json.loads] turns that text, trimmed and with
    its fence removed, into a dict.  The answer is then that dict with
    [success] set to [True], whatever the dict itself said under that
    key. *)
Theorem process_succeeds_iff :
  (Eff.success_marker (fst process') = true <->
   exists response c d,
     fst (call_with_retry http None) = (Some response, None) /\
     message_content response = inr (VStr c) /\ c <> "" /\
     loads (_extract_json (txt c)) = inr (VDict d)) /\
  (forall response c d,
     fst (call_with_retry http None) = (Some response, None) ->
     message_content response = inr (VStr c) -> c <> "" ->
     loads (_extract_json (txt c)) = inr (VDict d) ->
     fst process' = VDict (dict_set d "success" (VBool true))).
Proof.
  assert (Hval : forall response c d,
     fst (call_with_retry http None) = (Some response, None) ->
     message_content response = inr (VStr c) -> c <> "" ->
     loads (_extract_json (txt c)) = inr (VDict d) ->
     fst process' = VDict (dict_set d "success" (VBool true))).
  { intros response c d Hr Hm Hc Hl. unfold process.
    rewrite (process_with_response _ _ Hr). now apply (parsed_value response c d). }
  split; [|exact Hval]. split.
  - intros Hs. unfold process in Hs.
    destruct (success_of_process_with _ eq_refl Hs)
      as [response [Hr Hbody]].
    rewrite Hbody in Hs. destruct (parsed_succeeds _ Hs) as [c [d [Hm [Hc Hl]]]].
    exists response, c, d. repeat split; assumption.
  - intros [response [c [d [Hr [Hm [Hc Hl]]]]]].
    rewrite (Hval response c d Hr Hm Hc Hl). cbn. now rewrite dict_get_set.
Qed.

Lemma layout_parsed_succeeds (response : pyval) :
  Eff.success_marker (layout_parsed loads describe py_str response) = true ->
  exists c d,
    message_content response = inr (VStr c) /\ c <> "" /\
    extract_json_from_text loads (txt c) = inr (VDict d) /\ d <> [].
Proof.
  unfold layout_parsed. destruct (message_content response) as [f|content];
    [unfold parse_failure; rewrite unflagged_failure; discriminate|].
  destruct (truthy content) eqn:Ht; cbn [negb]; [|discriminate].
  destruct content as [| | | | | |c| |];
    try (unfold parse_failure; rewrite unflagged_failure; discriminate).
  destruct (extract_json_from_text loads (txt c)) as [e|result] eqn:Hl;
    [unfold parse_failure; rewrite unflagged_failure; discriminate|].
  destruct (truthy result) eqn:Hres; cbn [negb]; [|discriminate].
  intros Hs. apply success_of_flagged in Hs. destruct Hs as [d ->].
  exists c, d. repeat split; try reflexivity; try assumption.
  - intros ->. discriminate Ht.
  - intros ->. discriminate Hres.
Qed.

Lemma layout_parsed_value (response : pyval) (c : string) (d : dict) :
  message_content response = inr (VStr c) -> c <> "" ->
  extract_json_from_text loads (txt c) = inr (VDict d) -> d <> [] ->
  layout_parsed loads describe py_str response
    = VDict (dict_set d "success" (VBool true)).
Proof.
  intros Hm Hc Hl Hd. unfold layout_parsed. rewrite Hm.
  assert (Ht : truthy (VStr c) = true)
    by (cbn; destruct (String.eqb_spec c ""); [contradiction | reflexivity]).
  rewrite Ht. cbn [negb]. rewrite Hl.
  destruct d; [contradiction | reflexivity].
Qed.

(** X. [LayoutAgent.process] answers with success exactly when the
    transport returned a response, the message of its first choice has a
    text that is not empty, and [extract_json_from_text] returns a dict
    for it that is not empty; the answer is then that dict with [success]
    set to [True].  An empty object, a value that is no dict, a text
    from which nothing can be made (the extractor's [{}]) and an exception
    that the extractor lets through are failures. *)
Theorem layout_process_succeeds_iff :
  (Eff.success_marker (fst layout_process') = true <->
   exists response c d,
     fst (call_with_retry http None) = (Some response, None) /\
     message_content response = inr (VStr c) /\ c <> "" /\
     extract_json_from_text loads (txt c) = inr (VDict d) /\ d <> []) /\
  (forall response c d,
     fst (call_with_retry http None) = (Some response, None) ->
     message_content response = inr (VStr c) -> c <> "" ->
     extract_json_from_text loads (txt c) = inr (VDict d) -> d <> [] ->
     fst layout_process' = VDict (dict_set d "success" (VBool true))).
Proof.
  assert (Hval : forall response c d,
     fst (call_with_retry http None) = (Some response, None) ->
     message_content response = inr (VStr c) -> c <> "" ->
     extract_json_from_text loads (txt c) = inr (VDict d) -> d <> [] ->
     fst layout_process' = VDict (dict_set d "success" (VBool true))).
  { intros response c d Hr Hm Hc Hl Hd. unfold layout_process.
    rewrite (process_with_response _ _ Hr).
    now apply (layout_parsed_value response c d). }
  split; [|exact Hval]. split.
  - intros Hs. unfold layout_process in Hs.
    destruct (success_of_process_with _ eq_refl Hs)
      as [response [Hr Hbody]].
    rewrite Hbody in Hs.
    destruct (layout_parsed_succeeds _ Hs) as [c [d [Hm [Hc [Hl Hd]]]]].
    exists response, c, d. repeat split; assumption.
  - intros [response [c [d [Hr [Hm [Hc [Hl Hd]]]]]]].
    rewrite (Hval response c d Hr Hm Hc Hl Hd). cbn. now rewrite dict_get_set.
Qed.

(** With the parser of this file for [json.loads], the extractor is the
    one of the repair policy. *)
Lemma extract_json_from_text_agrees (text : str) :
  extract_json_from_text json_loads_or_raise text
    = inr (Layout.extract_json_from_text text).
Proof.
  unfold extract_json_from_text, Layout.extract_json_from_text, json_loads_or_raise.
  cbv zeta. destruct (json_loads (Layout.repair_json (strip text))); [reflexivity|].
  destruct (search Layout.brace_span _); [|reflexivity].
  destruct (json_loads _); reflexivity.
Qed.

End AgentResults.

(** ** agents/structuring_agent.py: fenced replies *)

Section FencedReplies.
Import Structuring Agents.

Lemma lstrip_nonspace (c : ascii) (r : str) :
  isspace c = false -> lstrip (c :: r) = c :: r.
Proof. intros H. cbn [lstrip]. now rewrite H. Qed.

Lemma rstrip_snoc_space (y : str) (c : ascii) :
  isspace c = true -> rstrip (y ++ [c]) = rstrip y.
Proof.
  intros H. unfold rstrip. rewrite rev_app_distr. cbn [rev app lstrip]. now rewrite H.
Qed.

Lemma strip_snoc_space (t : str) (c : ascii) :
  isspace c = true -> strip (t ++ [c]) = strip t.
Proof.
  intros H. unfold strip. induction t as [|a t IH]; cbn [app lstrip].
  - now rewrite H.
  - destruct (isspace a); [exact IH|].
    change (a :: t ++ [c]) with ((a :: t) ++ [c]). now apply rstrip_snoc_space.
Qed.

Lemma rstrip_fence (a : str) : rstrip (a ++ txt "```") = a ++ txt "```".
Proof.
  unfold rstrip. rewrite rev_app_distr.
  change (rev (txt "```")) with (txt "```"). change (txt "```") with ("`"%char :: txt "``").
  cbn [app]. rewrite lstrip_nonspace by reflexivity.
  change ("`"%char :: txt "``" ++ rev a) with (rev (txt "```") ++ rev a).
  now rewrite <- rev_app_distr, rev_involutive.
Qed.

Lemma startswith_app (p r : str) : startswith (p ++ r) p = true.
Proof.
  induction p as [|c p IH]; [destruct r; reflexivity|].
  cbn. now rewrite Ascii.eqb_refl.
Qed.

Lemma endswith_app (a p : str) : endswith (a ++ p) p = true.
Proof. unfold endswith. rewrite rev_app_distr. apply startswith_app. Qed.

Lemma drop_back_app (a p : str) : drop_back (List.length p) (a ++ p) = a.
Proof.
  unfold drop_back. rewrite length_app, Nat.add_sub.
  rewrite firstn_app, Nat.sub_diag, firstn_all. cbn. apply app_nil_r.
Qed.

(** The fence and the line feeds around [text] go, and the text is left
    trimmed. *)
Lemma extract_json_fenced (label : string) (text : str) :
  label = "json"%string \/ label = ""%string ->
  _extract_json (fenced label text) = strip text.
Proof.
  intros Hlabel. unfold _extract_json.
  assert (Hs : strip (fenced label text) = fenced label text).
  { assert (Hshape : fenced label text
                     = ("`"%char :: (txt "``" ++ txt label ++ nl :: text ++ [nl]))
                         ++ txt "```").
    { unfold fenced. cbn [app]. rewrite <- !app_assoc. cbn [app].
      rewrite <- !app_assoc. reflexivity. }
    rewrite Hshape. unfold strip. cbn [app]. rewrite lstrip_nonspace by reflexivity.
    rewrite app_comm_cons. apply rstrip_fence. }
  rewrite Hs. clear Hs.
  assert (Hend : (nl :: text ++ nl :: txt "```")%list
                 = ((nl :: text ++ [nl]) ++ txt "```")%list).
  { cbn [app]. now rewrite <- app_assoc. }
  assert (Hbody : (let body := (nl :: text ++ nl :: txt "```")%list in
                   let body := if startswith body (txt "```") then drop_front 3 body
                               else body in
                   let body := if endswith body (txt "```") then drop_back 3 body
                               else body in
                   strip body) = strip text).
  { cbv zeta. change (startswith (nl :: text ++ nl :: txt "```") (txt "```")) with false.
    cbv iota. rewrite Hend, endswith_app.
    change 3 with (List.length (txt "```")). rewrite drop_back_app.
    unfold strip at 1. cbn [lstrip]. change (isspace nl) with true. cbv iota.
    apply (strip_snoc_space text nl). reflexivity. }
  destruct Hlabel as [-> | ->]; unfold fenced; cbn [txt list_ascii_of_string app].
  - change (startswith _ (txt "```json")) with true. cbv iota.
    cbn [drop_front skipn]. exact Hbody.
  - change (startswith ("`"%char :: "`"%char :: "`"%char :: nl :: _) (txt "```json"))
      with false. cbv iota.
    change (startswith ("`"%char :: "`"%char :: "`"%char :: nl :: text ++ nl :: txt "```")
                       (txt "```")) with true. cbv iota.
    cbn [drop_front skipn]. 
    change (startswith (nl :: text ++ nl :: txt "```") (txt "```")) with false in Hbody.
    cbv zeta iota in Hbody. exact Hbody.
Qed.

(** X. The simple policy unwraps a fenced reply: for every text, a reply
    that consists of an opening fence ([```json] or a bare [```]), a line
    feed, the text, a line feed and the closing fence is reduced to the
    trimmed text, and what is parsed is the parse of that; when the text is
    valid JSON, the value of the text itself. *)
Theorem fenced_reply_is_unwrapped (text : str) :
  _extract_json (fenced "json" text) = strip text /\
  _extract_json (fenced "" text) = strip text /\
  extract_and_parse (fenced "json" text) = json_loads (strip text) /\
  extract_and_parse (fenced "" text) = json_loads (strip text) /\
  forall v, json_loads text = Some v ->
            extract_and_parse (fenced "json" text) = Some v /\
            extract_and_parse (fenced "" text) = Some v.
Proof.
  unfold extract_and_parse.
  rewrite !extract_json_fenced by auto.
  repeat split; auto using json_loads_strip.
Qed.

End FencedReplies.

(** ** pipeline_runner.py: the OCR of the pages *)

Section OcrPages.
Import State Observed Ocr.

Variable renders : nat -> bool.
Variable reply : nat -> nat -> option string.

(** One page: its block is appended when it gets an answer, its number is
    noted when it gets none; the attempts end with the first answer. *)
Lemma page_attempts_spec (page_num : nat) (acc : progress) :
  renders page_num = true ->
  let done := page_attempts reply page_num (seq 0 MAX_RETRIES) acc in
  all_text done
    = (all_text acc ++ match first_answer renders reply page_num with
                       | Some content => [page_block (page_num + 1) content]
                       | None => []
                       end)%list /\
  failed_pages done
    = (failed_pages acc ++ match first_answer renders reply page_num with
                           | Some _ => []
                           | None => [page_num + 1]
                           end)%list /\
  requests done = (requests acc ++ asked renders reply page_num)%list.
Proof.
  intros Hr. unfold first_answer, asked. rewrite Hr. unfold MAX_RETRIES.
  cbn [seq page_attempts fold_right Nat.ltb Nat.leb Nat.sub attempts_taken].
  destruct (reply page_num 0) as [c0|].
  { cbn. rewrite ?app_nil_r. repeat split. }
  destruct (reply page_num 1) as [c1|].
  { cbn. rewrite ?app_nil_r. repeat split. rewrite <- app_assoc. reflexivity. }
  destruct (reply page_num 2) as [c2|].
  { cbn. rewrite ?app_nil_r. repeat split. rewrite <- !app_assoc. reflexivity. }
  cbn. rewrite ?app_nil_r. repeat split. rewrite <- !app_assoc. reflexivity.
Qed.

(** The attempts of a page: at least one and at most [MAX_RETRIES]; every
    one but the last got no answer, and fewer than [MAX_RETRIES] are made
    only when the last one got an answer. *)
Lemma attempts_taken_spec (page_num : nat) :
  let n := attempts_taken reply page_num (seq 0 MAX_RETRIES) in
  1 <= n <= MAX_RETRIES /\
  (forall attempt, S attempt < n -> reply page_num attempt = None) /\
  (n < MAX_RETRIES -> reply page_num (n - 1) <> None).
Proof.
  unfold MAX_RETRIES. cbn [seq attempts_taken].
  destruct (reply page_num 0) as [c0|] eqn:E0.
  { cbn. repeat split; try lia. congruence. }
  destruct (reply page_num 1) as [c1|] eqn:E1.
  { cbn. repeat split; try lia.
    - intros [|a] Ha; [exact E0 | lia].
    - congruence. }
  assert (Hnone : forall attempt, attempt < 2 -> reply page_num attempt = None)
    by (intros [|[|a]] Ha; [exact E0 | exact E1 | lia]).
  destruct (reply page_num 2) as [c2|] eqn:E2; cbn; repeat split; try lia;
    intros a Ha; apply Hnone; lia.
Qed.

Lemma sleeps_asked (page_num : nat) : sleeps (asked renders reply page_num) = [].
Proof.
  unfold asked. destruct (renders page_num); [|reflexivity].
  generalize (attempts_taken reply page_num (seq 0 MAX_RETRIES)). intros n.
  generalize 0. induction n as [|n IHn]; intros k; [reflexivity|].
  cbn. apply IHn.
Qed.

Lemma length_asked (page_num : nat) :
  List.length (asked renders reply page_num) <= MAX_RETRIES.
Proof.
  unfold asked. destruct (renders page_num); [|cbn; lia].
  rewrite length_map, length_seq. apply attempts_taken_spec.
Qed.

Lemma convert_pages_spec (todo : list nat) :
  forall acc,
  let done := convert_pages renders reply todo acc in
  all_text done = (all_text acc ++ converted renders reply todo)%list /\
  failed_pages done = (failed_pages acc ++ unconverted renders reply todo)%list /\
  requests done = (requests acc ++ flat_map (asked renders reply) todo)%list.
Proof.
  induction todo as [|page_num rest IH]; intros acc; cbn [convert_pages].
  - cbn. rewrite !app_nil_r. repeat split.
  - cbv zeta in IH |- *. cbn [converted unconverted flat_map].
    fold (converted renders reply rest). fold (unconverted renders reply rest).
    destruct (renders page_num) eqn:Hr.
    + destruct (page_attempts_spec page_num acc Hr) as [Ht [Hf Hq]].
      destruct (IH (page_attempts reply page_num (seq 0 MAX_RETRIES) acc))
        as [Ht' [Hf' Hq']].
      rewrite Ht', Hf', Hq', Ht, Hf, Hq, <- !app_assoc. repeat split.
    + destruct (IH (mkProgress (all_text acc) (failed_pages acc ++ [page_num + 1])
                               (requests acc)))
        as [Ht' [Hf' Hq']].
      cbn [all_text failed_pages requests] in *.
      unfold first_answer at 1 2. unfold asked at 1. rewrite Hr.
      rewrite Ht', Hf', Hq', <- !app_assoc. repeat split.
Qed.

Lemma unconverted_nil (todo : list nat) :
  unconverted renders reply todo = [] <->
  forall page_num, In page_num todo -> first_answer renders reply page_num <> None.
Proof.
  induction todo as [|p rest IH]; cbn [unconverted flat_map].
  - split; [intros _ page_num [] | reflexivity].
  - fold (unconverted renders reply rest).
    destruct (first_answer renders reply p) eqn:E; cbn [app].
    + rewrite IH. split.
      * intros H page_num [<- | Hin]; [congruence | now apply H].
      * intros H page_num Hin. apply H. now right.
    + split; [discriminate|]. intros H. exfalso. apply (H p); [now left | exact E].
Qed.

Lemma requests_bounded (todo : list nat) :
  List.length (flat_map (asked renders reply) todo) <= MAX_RETRIES * List.length todo /\
  sleeps (flat_map (asked renders reply) todo) = [].
Proof.
  induction todo as [|p rest [IHl IHs]]; [split; [cbn; lia | reflexivity]|].
  cbn [flat_map List.length]. split.
  - rewrite length_app. pose proof (length_asked p). lia.
  - unfold sleeps in *. rewrite flat_map_app. fold (sleeps (asked renders reply p)).
    rewrite sleeps_asked, IHs. reflexivity.
Qed.

(** X. The OCR of a PDF that exists: every page is worked on, whatever
    happened to the pages before it.  The requests made are those of the
    pages in page order; for a page that can be rendered they are the
    attempts 0, 1, ... up to the first that gets an answer: at least one
    and at most [MAX_RETRIES], every one but the last without an answer,
    and fewer than [MAX_RETRIES] only when the last one got an answer;
    for a page that cannot be rendered there is none.  No sleep lies
    between them.  The markdown file is written in every case and holds,
    in page order, the blocks of the pages that got an answer, each headed
    by its page number counted from 1.  The result is [True] exactly when
    every page could be rendered and got an answer.  For a PDF that does
    not exist the result is [False] and nothing is asked or written. *)
Theorem ocr_converts_what_answers (pages : nat) (output_path : string) (fs : store) :
  let '(ok, fs', evs) := _run_ocr_sync renders reply true pages output_path fs in
  (ok = true <->
   forall page_num, page_num < pages -> first_answer renders reply page_num <> None) /\
  fs_read fs' output_path
    = Some (TextFile (txt (String.concat "" (converted renders reply (seq 0 pages))))) /\
  evs = flat_map (asked renders reply) (seq 0 pages) /\
  (forall page_num,
     exists n, asked renders reply page_num = map EvHttp (seq 0 n) /\
       n <= MAX_RETRIES /\
       (forall attempt, S attempt < n -> reply page_num attempt = None) /\
       (renders page_num = false -> n = 0) /\
       (renders page_num = true ->
        1 <= n /\ (n < MAX_RETRIES -> reply page_num (n - 1) <> None))) /\
  List.length evs <= MAX_RETRIES * pages /\
  sleeps evs = [] /\
  _run_ocr_sync renders reply false pages output_path fs = (false, fs, []).
Proof.
  unfold _run_ocr_sync. cbn [negb].
  destruct (convert_pages_spec (seq 0 pages) (mkProgress [] [] [])) as [Ht [Hf Hq]].
  cbn [all_text failed_pages requests app] in Ht, Hf, Hq.
  rewrite Ht, Hf, Hq.
  destruct (requests_bounded (seq 0 pages)) as [Hlen Hs]. rewrite length_seq in Hlen.
  split; [|split; [apply fs_read_write | repeat split; try assumption]].
  - rewrite Nat.eqb_eq, length_zero_iff_nil, unconverted_nil.
    split; intros H page_num Hp; apply H.
    + apply in_seq. lia.
    + apply in_seq in Hp. lia.
  - intros page_num. unfold asked.
    destruct (attempts_taken_spec page_num) as [Hn [Hnone Hlast]].
    destruct (renders page_num).
    + eexists. split; [reflexivity|].
      repeat split; try lia; try assumption; try discriminate.
    + exists 0. repeat split; try lia; try discriminate.
Qed.

End OcrPages.

(** ** run_pipeline.py: the summary and the exit status *)

Section CommandLine.
Import State Driver Orchestrator Lifecycle Observed Hoare Cli.
Local Open Scope string_scope.

Variable run_agent : string -> nat -> pyval -> agent_out.
Variable now : nat -> string.
Variable generate_markdown_report : pyval -> string + str.
Variable read_text : string -> string + string.
Variable output_dir : string.

Lemma same_source_refl (s : dstate) : same_source s s.
Proof. reflexivity. Qed.

Lemma same_source_trans (s1 s2 s3 : dstate) :
  same_source s1 s2 -> same_source s2 s3 -> same_source s1 s3.
Proof. unfold same_source. congruence. Qed.

Lemma source_modify (f : PipelineState -> PipelineState) :
  (forall x, source_file (f x) = source_file x) -> respects same_source (modify f).
Proof. intros H s. apply H. Qed.

Lemma source_record (e : event) : respects same_source (record e).
Proof. intros s. reflexivity. Qed.

Lemma source_invoke (name : string) (input : pyval) :
  respects same_source (invoke run_agent name input).
Proof. intros s. unfold invoke. destruct (run_agent name (calls s) input); reflexivity. Qed.

Lemma source_checkpoint (self : StateManager) (filename : string) :
  respects same_source (checkpoint now self filename).
Proof.
  intros s. unfold checkpoint, save_checkpoint. destruct (checkpoint_dir self); reflexivity.
Qed.

Lemma source_final (self : StateManager) (data : PipelineState + pyval)
  (filename : string) : respects same_source (final self data filename).
Proof.
  intros s. unfold final. destruct (save_final self data filename (files s)). reflexivity.
Qed.

Lemma source_markdown (self : StateManager) (content : str) (filename : string) :
  respects same_source (markdown self content filename).
Proof.
  intros s. unfold markdown.
  destruct (save_markdown_report self content filename (files s)). reflexivity.
Qed.

Ltac source_leaf :=
  first [ apply source_invoke | apply source_checkpoint | apply source_final
        | apply source_markdown | apply source_record
        | apply source_modify; intro; reflexivity ].

Ltac source_frame := frame_with same_source_refl same_source_trans source_leaf.

Lemma source_attempts (dir : option string) (agent_name : string) (max_retries : nat)
  (todo : list nat) :
  respects same_source
    (attempts run_agent now generate_markdown_report dir agent_name max_retries todo).
Proof.
  induction todo as [|attempt rest IH]; cbn [attempts];
    [apply (respects_ret same_source_refl)|].
  unfold attempt_body, append_error, _save_checkpoint, _generate_markdown_report.
  source_frame.
Qed.

Lemma source_stages (dir : option string) (todo : list string) :
  respects same_source (stages run_agent now generate_markdown_report dir todo).
Proof.
  induction todo as [|agent_name rest IH]; cbn [stages];
    [apply (respects_ret same_source_refl)|].
  pose proof (source_attempts dir).
  unfold _execute_agent, append_error, append_completed, _save_checkpoint.
  source_frame.
Qed.

Lemma source_run_pipeline (dir : option string) :
  respects same_source (run_pipeline run_agent now generate_markdown_report dir).
Proof.
  unfold run_pipeline. pose proof (source_stages dir AGENT_ORDER).
  unfold _save_final_outputs, _print_summary, under_output_dir.
  destruct dir; source_frame.
Qed.

(** [initialize] returns a boolean; after [True] the lists are empty and
    the source is named. *)
Lemma initialize_ok (dir : option string) (path : string) (s : dstate) :
  exists b s1,
    initialize now dir read_text path s = (inr b, s1) /\
    (b = true ->
     errors (st s1) = VList [] /\ completed_agents (st s1) = VList [] /\
     source_file (st s1) = VStr path).
Proof.
  unfold initialize, _save_checkpoint, state_manager, checkpoint.
  destruct (read_text path) as [e|text]; destruct dir as [d|];
    cbn -[String.append fs_read fs_write to_dict];
    eexists; eexists; (split; [reflexivity|]); intros H;
    try discriminate H; repeat split.
Qed.

Lemma show_summary_raises (x : PipelineState) (path : string) :
  source_file x = VStr path -> show_summary (x, []) = inl no_output_dir.
Proof.
  intros H. unfold show_summary, get_attribute, then_. cbn [fst snd].
  change (get_field x "source_file") with (Some (source_file x)). rewrite H.
  cbn [renderable]. change (get_field x "output_dir") with (@None pyval).
  reflexivity.
Qed.

Lemma show_summary_fails (x : PipelineState) (attributes : dict) :
  dict_get attributes "output_dir" = None ->
  exists e, show_summary (x, attributes) = inl e.
Proof.
  intros Hnone. unfold show_summary, get_attribute, then_. cbn [fst snd].
  change (get_field x "source_file") with (Some (source_file x)).
  change (get_field x "output_dir") with (@None pyval). cbv beta iota.
  rewrite Hnone.
  destruct (renderable (source_file x)); eexists; reflexivity.
Qed.

(** [main] by the outcomes of its three calls. *)
Lemma main_agents_cases (md_path : string) (s : dstate) :
  main_agents run_agent now generate_markdown_report read_text output_dir md_path s
  = match initialize now (Some output_dir) read_text md_path s with
    | (inl e, s1) => (inl e, s1)
    | (inr false, s1) => (inr 1%Z, s1)
    | (inr true, s1) =>
        match run_pipeline run_agent now generate_markdown_report
                           (Some output_dir) s1 with
        | (inl e, s2) => (inl e, s2)
        | (inr false, s2) => (inr 1%Z, s2)
        | (inr true, s2) =>
            match show_summary (st s2, []) with
            | inl e => (inl e, s2)
            | inr _ => (inr 0%Z, s2)
            end
        end
    end.
Proof.
  unfold main_agents, bind.
  destruct (initialize now (Some output_dir) read_text md_path s) as [[e|[|]] s1];
    try reflexivity.
  cbn [negb].
  destruct (run_pipeline run_agent now generate_markdown_report (Some output_dir) s1)
    as [[e|[|]] s2]; reflexivity.
Qed.

(** X. [show_summary] ends in an exception on every state object that has
    no attribute [output_dir], which a [PipelineState] never has: no table
    is printed.  So [main], once the markdown is there, never returns the
    exit status 0.  It returns 1 when [initialize] returns [False] and
    when the run of the stages returns [False]; and when both have
    returned [True] it ends in the AttributeError of [state.output_dir]. *)
Theorem main_never_exits_with_zero (md_path : string) (s : dstate)
  (x : PipelineState) (attributes : dict) :
  let main := main_agents run_agent now generate_markdown_report read_text output_dir
                          md_path in
  let init := initialize now (Some output_dir) read_text md_path s in
  let run := run_pipeline run_agent now generate_markdown_report (Some output_dir)
                          (snd init) in
  (dict_get attributes "output_dir" = None ->
   exists e, show_summary (x, attributes) = inl e) /\
  fst (main s) <> inr 0%Z /\
  (fst init = inr false -> fst (main s) = inr 1%Z) /\
  (fst init = inr true -> fst run = inr false -> fst (main s) = inr 1%Z) /\
  (fst init = inr true -> fst run = inr true -> fst (main s) = inl no_output_dir).
Proof.
  cbv zeta. split; [apply show_summary_fails|].
  rewrite main_agents_cases.
  destruct (initialize_ok (Some output_dir) md_path s) as [b [s1 [Hinit Hb]]].
  rewrite Hinit. cbn [fst snd].
  destruct b; [|repeat split; try reflexivity; discriminate].
  destruct (Hb eq_refl) as [_ [_ Hsrc]].
  destruct (run_pipeline run_agent now generate_markdown_report (Some output_dir) s1)
    as [[e|finished] s2] eqn:Hrun; cbn [fst snd];
    [repeat split; discriminate|].
  destruct finished; [|repeat split; try reflexivity; discriminate].
  pose proof (respects_elim (source_run_pipeline (Some output_dir)) Hrun) as Hkeep.
  unfold same_source in Hkeep.
  rewrite (show_summary_raises (st s2) md_path) by congruence. cbn [fst].
  repeat split; try reflexivity; discriminate.
Qed.

End CommandLine.

(** ** orchestrator.py: what one stage hands to the next *)

Section Handoffs.
Import State Driver Orchestrator Runner Observed Hoare Handoff.
Local Open Scope string_scope.

Variable run_agent : string -> nat -> pyval -> agent_out.
Variable now : nat -> string.
Variable generate_markdown_report : pyval -> string + str.

Lemma produced_app (name : string) (result : pyval) (e1 e2 : list event) :
  produced name result e1 -> produced name result (e1 ++ e2)%list.
Proof. intros [input [Hin Hs]]. exists input. split; [apply in_or_app; now left | exact Hs]. Qed.

Lemma handed_over_quiet (e1 e2 : list event) :
  handed_over e1 -> forallb (fun e => negb (is_agent e)) e2 = true ->
  handed_over (e1 ++ e2)%list.
Proof.
  intros H Hq before name input out after Heq.
  apply app_eq_app in Heq. destruct Heq as [l [[H1 H2] | [H1 H2]]].
  - destruct l as [|x l].
    + cbn in H2. subst e2. cbn in Hq. discriminate Hq.
    + injection H2 as <- _. eapply H. exact H1.
  - subst e2. rewrite forallb_app in Hq. apply andb_true_iff in Hq.
    destruct Hq as [_ Hq]. cbn in Hq. discriminate Hq.
Qed.

Lemma handed_over_snoc (evs : list event) (name : string) (input : pyval)
  (out : agent_out) :
  handed_over evs -> given name input evs ->
  handed_over (evs ++ [EvAgent name input out])%list.
Proof.
  intros H Hg before name' input' out' after Heq.
  apply app_eq_app in Heq. destruct Heq as [l [[H1 H2] | [H1 H2]]].
  - destruct l as [|x l].
    + cbn in H2. injection H2 as -> -> -> _. rewrite app_nil_r in H1. now subst.
    + injection H2 as <- H2. eapply H. exact H1.
  - destruct l as [|x l].
    + cbn in H2. injection H2 as -> -> -> _. rewrite app_nil_r in H1. now subst.
    + injection H2 as _ H2. destruct l; discriminate H2.
Qed.

Lemma calm_refl (s : dstate) : calm s s.
Proof. split; [reflexivity|]. exists []. split; [now rewrite app_nil_r | reflexivity]. Qed.

Lemma calm_trans (s1 s2 s3 : dstate) : calm s1 s2 -> calm s2 s3 -> calm s1 s3.
Proof.
  intros [H1 [e1 [T1 Q1]]] [H2 [e2 [T2 Q2]]]. split; [congruence|].
  exists (e1 ++ e2)%list. split; [now rewrite T2, T1, app_assoc|].
  rewrite forallb_app, Q1, Q2. reflexivity.
Qed.

Lemma made_calm (name : string) (s s' : dstate) : calm s s' -> made name s -> made name s'.
Proof.
  intros [Ho [evs [Ht _]]]. unfold outputs in Ho. injection Ho as H0 H1 H2.
  unfold made. rewrite Ht, H0, H1, H2.
  repeat match goal with
  | |- context [String.eqb name ?b] => destruct (String.eqb name b)
  end; auto using produced_app.
Qed.

Lemma flowing_calm (done : list string) (s s' : dstate) :
  calm s s' -> flowing done s -> flowing done s'.
Proof.
  intros Hc [Hh Hm]. split.
  - destruct Hc as [_ [evs [Ht Hq]]]. rewrite Ht. now apply handed_over_quiet.
  - intros name Hin. eapply made_calm; eauto.
Qed.

Lemma flowing_less (name : string) (done : list string) (s : dstate) :
  flowing (name :: done) s -> flowing done s.
Proof. intros [Hh Hm]. split; [exact Hh|]. intros n Hin. apply Hm. now right. Qed.

Lemma calm_modify (f : PipelineState -> PipelineState) :
  (forall x, outputs (f x) = outputs x) -> respects calm (modify f).
Proof.
  intros H s. split; [apply H|]. exists []. split; [apply (eq_sym (app_nil_r _)) | reflexivity].
Qed.

Lemma calm_quiet_event {A} (c : M A) :
  (forall s, st (snd (c s)) = st s /\
             exists evs, trace (snd (c s)) = (trace s ++ evs)%list /\
                         forallb (fun e => negb (is_agent e)) evs = true) ->
  respects calm c.
Proof. intros H s. destruct (H s) as [Hs He]. split; [now rewrite Hs | exact He]. Qed.

Lemma calm_record (e : event) : is_agent e = false -> respects calm (record e).
Proof.
  intros He. apply calm_quiet_event. intros s. split; [reflexivity|].
  exists [e]. split; [reflexivity|]. cbn. now rewrite He.
Qed.

Lemma calm_checkpoint (self : StateManager) (filename : string) :
  respects calm (checkpoint now self filename).
Proof.
  intros s. unfold checkpoint, save_checkpoint.
  destruct (checkpoint_dir self) as [dir|]; [|apply calm_refl].
  split; [reflexivity|]. exists [EvWrite (join dir filename)]. split; reflexivity.
Qed.

Lemma calm_final (self : StateManager) (data : PipelineState + pyval)
  (filename : string) : respects calm (final self data filename).
Proof.
  apply calm_quiet_event. intros s. unfold final, save_final.
  destruct (final_dir self); (split; [reflexivity|]); eexists; split;
    try reflexivity.
Qed.

Lemma calm_markdown (self : StateManager) (content : str) (filename : string) :
  respects calm (markdown self content filename).
Proof.
  apply calm_quiet_event. intros s. unfold markdown, save_markdown_report.
  destruct (final_dir self); (split; [reflexivity|]); eexists; split;
    try reflexivity.
Qed.

Ltac calm_leaf :=
  first [ apply calm_checkpoint | apply calm_final | apply calm_markdown
        | apply calm_record; reflexivity
        | apply calm_modify; intro; reflexivity ].

Ltac calm_frame := frame_with calm_refl calm_trans calm_leaf.

Lemma calm_append_error (msg : string) : respects calm (append_error msg).
Proof. unfold append_error. calm_frame. Qed.

Lemma calm_append_completed (name : string) : respects calm (append_completed name).
Proof. unfold append_completed. calm_frame. Qed.

(** The invocation of a stage on an input it may be given, the test of the
    success marker, the assignment of the output and what follows it. *)
Lemma flowing_invoke (name : string) (input : pyval) (done : list string)
  (set : pyval -> PipelineState -> PipelineState) (tail : pyval -> M bool)
  (s : dstate) :
  (forall result, respects calm (tail result)) ->
  (forall result s1,
     produced name result (trace s1) ->
     made name (mkD (set result (st s1)) (files s1) (trace s1) (calls s1) (ticks s1))) ->
  (forall result s1 n, n <> name -> made n s1 ->
     made n (mkD (set result (st s1)) (files s1) (trace s1) (calls s1) (ticks s1))) ->
  ~ In name done ->
  flowing done s -> given name input (trace s) ->
  wp (result <- invoke run_agent name input ;;
      ok <- lift (py_get result "success" VNone) ;;
      if truthy ok then modify (set result) ;; tail result else ret false)%driver
     (fun b s' => flowing (if b then name :: done else done) s')
     (fun _ s' => flowing done s') s.
Proof.
  intros Htail Hset Hother Hnew [Hh Hm] Hg.
  apply wp_bind. apply wp_invoke. cbv zeta.
  assert (Hflow : forall out,
            flowing done (mkD (st s) (files s) (trace s ++ [EvAgent name input out])%list
                              (S (calls s)) (ticks s))).
  { intros out. split; [now apply handed_over_snoc|].
    intros n Hin. specialize (Hm n Hin). revert Hm. unfold made. cbn [st trace].
    repeat match goal with
    | |- context [String.eqb n ?b] => destruct (String.eqb n b)
    end; auto using produced_app. }
  destruct (run_agent name (calls s) input) as [result|msg]; [|apply Hflow].
  apply wp_bind. apply wp_lift.
  destruct (py_get result "success" VNone) as [e|ok] eqn:Hok; [apply Hflow|].
  destruct (truthy ok) eqn:Ht; [|apply wp_ret, Hflow].
  apply wp_bind. apply wp_modify.
  match goal with
  | |- wp _ _ _ ?s2 => assert (Hnext : flowing (name :: done) s2)
  end.
  { destruct (Hflow (AgentReturn result)) as [Hh' Hm']. split; [exact Hh'|].
    intros n [<- | Hin].
    - apply (Hset result (mkD (st s) (files s)
                              (trace s ++ [EvAgent name input (AgentReturn result)])%list
                              (S (calls s)) (ticks s))).
      exists input. split; [apply in_or_app; right; now left|].
      eapply success_marker_get; eauto.
    - apply (Hother result (mkD (st s) (files s)
                                (trace s ++ [EvAgent name input (AgentReturn result)])%list
                                (S (calls s)) (ticks s)));
        [intros ->; contradiction | now apply Hm']. }
  apply (wp_respects calm); [apply Htail | |].
  - intros [|] s' Hc; [now apply (flowing_calm _ _ _ Hc)|].
    apply flowing_less with name. now apply (flowing_calm _ _ _ Hc).
  - intros e s' Hc. apply flowing_less with name. now apply (flowing_calm _ _ _ Hc).
Qed.

Lemma made_other (n : string) (f : PipelineState -> PipelineState) (s1 : dstate) :
  outputs (f (st s1)) = outputs (st s1) ->
  made n s1 -> made n (mkD (f (st s1)) (files s1) (trace s1) (calls s1) (ticks s1)).
Proof.
  intros Ho. apply made_calm. split; [exact Ho|]. exists [].
  split; [apply (eq_sym (app_nil_r _)) | reflexivity].
Qed.

Ltac made_goal :=
  unfold made; cbn [st trace set_structured_v0 set_structured_v1 set_db_ready
                    set_review_report structured_v0 structured_v1 db_ready String.eqb
                    Ascii.eqb Bool.eqb];
  repeat match goal with
  | |- context [String.eqb ?a ?b] => destruct (String.eqb_spec a b); try congruence
  end; auto.

Section Blocking.

Variable output_dir : option string.

Lemma flowing_attempt_body (agent_name : string) (done : list string) (s : dstate) :
  ~ In agent_name done -> fed agent_name done -> flowing done s ->
  wp (attempt_body run_agent now generate_markdown_report output_dir agent_name)
     (fun b s' => flowing (if b then agent_name :: done else done) s')
     (fun _ s' => flowing done s') s.
Proof.
  intros Hnew Hfed Hs. unfold attempt_body, fed, feeds in *.
  destruct (String.eqb_spec agent_name "structuring") as [->|N0].
  { apply wp_bind, wp_get_state.
    apply (flowing_invoke "structuring" (raw_text (st s)) done set_structured_v0
             (fun result =>
                _save_checkpoint now output_dir "structured_v0.json" ;;
                sections <- lift (py_get result "sections" (VList [])) ;;
                _ <- lift (py_len sections) ;; ret true)%driver);
      try assumption; try exact I.
    - intros result. unfold _save_checkpoint. calm_frame.
    - intros result s1 Hp. exact Hp.
    - intros result s1 n Hn. revert s1. made_goal. }
  destruct (String.eqb_spec agent_name "normalization") as [->|N1].
  { apply wp_bind, wp_get_state. apply wp_bind, wp_lift.
    pose proof (proj2 Hs "structuring" Hfed) as Hmade.
    destruct (py_get (structured_v0 (st s)) "extracted_fields" (VDict []))
      as [e|input] eqn:Hin; [exact Hs|].
    apply (flowing_invoke "normalization" input done set_structured_v1
             (fun result =>
                _save_checkpoint now output_dir "structured_v1_normalized.json" ;;
                issues <- lift (py_get result "normalization_issues" (VList [])) ;;
                _ <- lift (py_len issues) ;; ret true)%driver);
      try assumption.
    - intros result. unfold _save_checkpoint. calm_frame.
    - intros result s1 Hp. exact Hp.
    - intros result s1 n Hn. revert s1. made_goal.
    - exists (structured_v0 (st s)). split; [exact Hmade | exact Hin]. }
  destruct (String.eqb_spec agent_name "layout") as [->|N2].
  { apply wp_bind, wp_get_state. apply wp_bind, wp_lift.
    pose proof (proj2 Hs "normalization" Hfed) as Hmade.
    destruct (py_get (structured_v1 (st s)) "normalized_data" (VDict []))
      as [e|input] eqn:Hin; [exact Hs|].
    apply (flowing_invoke "layout" input done set_db_ready
             (fun result =>
                _save_checkpoint now output_dir "db_ready.json" ;;
                metadata <- lift (py_get result "mapping_metadata" (VDict [])) ;;
                _ <- lift (py_get metadata "records_processed" (VInt 0)) ;;
                ret true)%driver);
      try assumption.
    - intros result. unfold _save_checkpoint. calm_frame.
    - intros result s1 Hp. exact Hp.
    - intros result s1 n Hn. revert s1. made_goal.
    - exists (structured_v1 (st s)). split; [exact Hmade | exact Hin]. }
  destruct (String.eqb_spec agent_name "human_review") as [->|N3].
  { apply wp_bind, wp_get_state.
    pose proof (proj2 Hs "layout" Hfed) as Hmade.
    apply (flowing_invoke "human_review" (db_ready (st s)) done set_review_report
             (fun result =>
                _save_checkpoint now output_dir "review_report.json" ;;
                _generate_markdown_report generate_markdown_report output_dir result ;;
                summary <- lift (py_get result "review_summary" (VDict [])) ;;
                _ <- lift (py_get summary "issues_count" (VInt 0)) ;;
                ret true)%driver);
      try assumption.
    - intros result. unfold _save_checkpoint, _generate_markdown_report. calm_frame.
    - intros result s1 Hp. exact I.
    - intros result s1 n Hn. revert s1. made_goal. }
  apply wp_ret. exact Hs.
Qed.

Lemma flowing_attempts (agent_name : string) (done : list string) (max_retries : nat)
  (todo : list nat) :
  ~ In agent_name done -> fed agent_name done ->
  forall s, flowing done s ->
  wp (attempts run_agent now generate_markdown_report output_dir
               agent_name max_retries todo)
     (fun b s' => flowing (if b then agent_name :: done else done) s')
     (fun _ s' => flowing done s') s.
Proof.
  intros Hnew Hfed. induction todo as [|attempt rest IH]; intros s Hs; cbn [attempts].
  - apply wp_ret. exact Hs.
  - apply wp_bind, wp_modify. apply wp_bind.
    match goal with
    | |- wp _ ?Q' _ ?s1 =>
        assert (Hk : forall (b : bool) (s2 : dstate),
                       flowing (if b then agent_name :: done else done) s2 -> Q' b s2);
        [| assert (Hs1 : flowing done s1) ]
    end.
    { intros b s2 Hb. cbv beta. destruct b; [apply wp_ret; exact Hb|].
      apply wp_bind.
      destruct (attempt <? max_retries - 1)%nat.
      - apply wp_record. apply IH. revert Hb. apply flowing_calm.
        split; [reflexivity|]. eexists. split; reflexivity.
      - apply wp_ret. apply IH. exact Hb. }
    { revert Hs. apply flowing_calm. split; [reflexivity|]. exists [].
      split; [apply (eq_sym (app_nil_r _)) | reflexivity]. }
    apply wp_catch.
    eapply wp_conseq;
      [ apply (flowing_attempt_body agent_name done); assumption | exact Hk | ].
    intros e s2 He. cbv beta.
    apply wp_bind. apply (wp_respects calm); [apply calm_append_error | |].
    + intros [] s3 Hc. apply wp_ret. apply (Hk false).
      now apply (flowing_calm _ _ _ Hc).
    + intros e3 s3 Hc. now apply (flowing_calm _ _ _ Hc).
Qed.

Lemma flowing_stages (todo : list string) :
  forall (done : list string) (s : dstate),
  chained done todo -> flowing done s ->
  wp (stages run_agent now generate_markdown_report output_dir todo)
     (fun _ s' => handed_over (trace s'))
     (fun _ s' => handed_over (trace s')) s.
Proof.
  induction todo as [|agent_name rest IH]; intros done s Hch Hs; cbn [stages].
  - apply wp_ret. exact (proj1 Hs).
  - destruct Hch as [Hnew [Hfed Hch]].
    apply wp_bind, wp_modify. apply wp_bind, wp_modify. apply wp_bind.
    unfold _execute_agent.
    eapply wp_conseq;
      [ apply (flowing_attempts agent_name done); try assumption | | ].
    + intros [|] s1 H1; cbv beta; cbn [negb].
      * apply wp_bind.
        apply (wp_respects calm); [apply calm_append_completed | |].
        -- intros [] s2 Hc. apply (IH (agent_name :: done)); [exact Hch|].
           now apply (flowing_calm _ _ _ Hc).
        -- intros e s2 Hc. exact (proj1 (flowing_calm _ _ _ Hc H1)).
      * apply (wp_respects calm).
        -- pose proof (calm_append_error ("Agent '" ++ agent_name ++ "' failed")).
           unfold _save_checkpoint. calm_frame.
        -- intros b s2 Hc. exact (proj1 (flowing_calm _ _ _ Hc H1)).
        -- intros e s2 Hc. exact (proj1 (flowing_calm _ _ _ Hc H1)).
    + intros e s1 H1. exact (proj1 H1).
Qed.

Lemma calm_save_final_outputs :
  respects calm (_save_final_outputs output_dir).
Proof. unfold _save_final_outputs, under_output_dir. destruct output_dir; calm_frame. Qed.

Lemma calm_print_summary : respects calm (_print_summary output_dir).
Proof.
  unfold _print_summary, under_output_dir. destruct output_dir; calm_frame.
Qed.

(** X. In a run of [run_pipeline] that starts with no invocation behind
    it, every agent is invoked on what the stage before it produced:
    normalization on the [extracted_fields] of a result structuring
    returned earlier in this run with a true success marker, layout on the
    [normalized_data] of such a result of normalization, and human review
    on such a result of layout itself.  It holds of every attempt of every
    stage, however the run ends. *)
Theorem run_pipeline_hands_results_on (x : PipelineState) :
  handed_over
    (trace (snd (run_pipeline run_agent now generate_markdown_report output_dir
                              (start x)))).
Proof.
  assert (Hwp : wp (run_pipeline run_agent now generate_markdown_report output_dir)
                   (fun _ s' => handed_over (trace s'))
                   (fun _ s' => handed_over (trace s')) (start x)).
  { unfold run_pipeline. apply wp_bind.
    eapply wp_conseq; [apply (flowing_stages AGENT_ORDER []) | |].
    - cbn. unfold fed, feeds. cbn. intuition discriminate.
    - split; [|intros n []]. intros before name input out after Heq.
      destruct before; discriminate Heq.
    - intros [|] s1 H1; cbv beta; [|apply wp_ret; exact H1].
      apply (wp_respects calm).
      + pose proof calm_save_final_outputs. pose proof calm_print_summary. calm_frame.
      + intros b s2 [_ [evs [Ht Hq]]]. rewrite Ht. now apply handed_over_quiet.
      + intros e s2 [_ [evs [Ht Hq]]]. rewrite Ht. now apply handed_over_quiet.
    - intros e s1 H1. exact H1. }
  unfold wp in Hwp.
  destruct (run_pipeline run_agent now generate_markdown_report output_dir (start x))
    as [[e|b] s']; exact Hwp.
Qed.

End Blocking.

Section EventDriven.

Variable ocr : ocr_out.
Variable websocket : bool.
Variable output_dir : string.
Variable stem : string.

Lemma calm_read_clock : respects calm (read_clock now).
Proof.
  apply calm_quiet_event. intros s. split; [reflexivity|]. exists [].
  split; [apply (eq_sym (app_nil_r _)) | reflexivity].
Qed.

Lemma calm_emit (kind : string) (data : dict) : respects calm (emit websocket kind data).
Proof. unfold emit. destruct websocket; calm_frame. Qed.

Lemma calm_emit_log (message : pyval) : respects calm (emit_log now websocket message).
Proof.
  unfold emit_log. pose proof calm_read_clock. pose proof calm_emit. calm_frame.
Qed.

Lemma calm_handle_attempts (agent_name : string) (error : pyval) (todo : list nat) :
  respects calm (handle_attempts now websocket agent_name error todo).
Proof.
  pose proof calm_emit. pose proof calm_emit_log.
  induction todo as [|attempt rest IH]; cbn [handle_attempts]; calm_frame.
Qed.

Lemma calm_fail_stage (agent_name : string) (result : pyval) :
  respects calm (fail_stage now websocket agent_name result).
Proof.
  unfold fail_stage, _handle_agent_error.
  pose proof (calm_handle_attempts agent_name). calm_frame.
Qed.

#[local] Abbreviation handed := (fun (_ : bool) (s' : dstate) => handed_over (trace s')).
#[local] Abbreviation handed' := (fun (_ : string) (s' : dstate) => handed_over (trace s')).

(** One step that cannot disturb the flow, before the rest. *)
Lemma flowing_past {A} (c : M A) (k : A -> M bool) (done : list string) (s : dstate) :
  respects calm c ->
  (forall a s', flowing done s' -> wp (k a) handed handed' s') ->
  flowing done s -> wp (bind c k) handed handed' s.
Proof.
  intros Hc Hk Hs. apply wp_bind. apply (wp_respects calm); [exact Hc | |].
  - intros a s' H. apply Hk. now apply (flowing_calm _ _ _ H).
  - intros e s' H. exact (proj1 (flowing_calm _ _ _ H Hs)).
Qed.

Lemma flowing_lift {A} (r : string + A) (k : A -> M bool) (done : list string)
  (s : dstate) :
  (forall a, r = inr a -> wp (k a) handed handed' s) ->
  flowing done s -> wp (bind (lift r) k) handed handed' s.
Proof.
  intros Hk Hs. apply wp_bind, wp_lift. destruct r as [e|a]; [exact (proj1 Hs)|].
  now apply Hk.
Qed.

(** The invocation of a stage on an input it may be given, the test of the
    success marker, and either the handler or the assignment of the output
    and the rest of the run. *)
Lemma flowing_step (name : string) (input : pyval) (done : list string)
  (set : pyval -> PipelineState -> PipelineState) (rest : pyval -> M bool)
  (s : dstate) :
  (forall result s1,
     produced name result (trace s1) ->
     made name (mkD (set result (st s1)) (files s1) (trace s1) (calls s1) (ticks s1))) ->
  (forall result s1 n, n <> name -> made n s1 ->
     made n (mkD (set result (st s1)) (files s1) (trace s1) (calls s1) (ticks s1))) ->
  ~ In name done ->
  (forall result s2, flowing (name :: done) s2 -> wp (rest result) handed handed' s2) ->
  flowing done s -> given name input (trace s) ->
  wp (result <- _run_agent_async run_agent name input ;;
      ok <- lift (py_get result "success" VNone) ;;
      if negb (truthy ok) then fail_stage now websocket name result
      else modify (set result) ;; rest result)%driver
     handed handed' s.
Proof.
  intros Hset Hother Hnew Hrest [Hh Hm] Hg. unfold _run_agent_async.
  apply wp_bind. apply wp_invoke. cbv zeta.
  assert (Hflow : forall out,
            flowing done (mkD (st s) (files s) (trace s ++ [EvAgent name input out])%list
                              (S (calls s)) (ticks s))).
  { intros out. split; [now apply handed_over_snoc|].
    intros n Hin. specialize (Hm n Hin). revert Hm. unfold made. cbn [st trace].
    repeat match goal with
    | |- context [String.eqb n ?b] => destruct (String.eqb n b)
    end; auto using produced_app. }
  destruct (run_agent name (calls s) input) as [result|msg]; [|apply (proj1 (Hflow _))].
  apply wp_bind. apply wp_lift.
  destruct (py_get result "success" VNone) as [e|ok] eqn:Hok;
    [apply (proj1 (Hflow _))|].
  destruct (truthy ok) eqn:Ht; cbn [negb].
  - apply wp_bind. apply wp_modify. apply Hrest.
    destruct (Hflow (AgentReturn result)) as [Hh' Hm']. split; [exact Hh'|].
    intros n [<- | Hin].
    + apply (Hset result (mkD (st s) (files s)
                              (trace s ++ [EvAgent name input (AgentReturn result)])%list
                              (S (calls s)) (ticks s))).
      exists input. split; [apply in_or_app; right; now left|].
      eapply success_marker_get; eauto.
    + apply (Hother result (mkD (st s) (files s)
                                (trace s ++ [EvAgent name input (AgentReturn result)])%list
                                (S (calls s)) (ticks s)));
        [intros ->; contradiction | now apply Hm'].
  - apply (wp_respects calm); [apply calm_fail_stage | |].
    + intros b s' Hc. exact (proj1 (flowing_calm _ _ _ Hc (Hflow _))).
    + intros e s' Hc. exact (proj1 (flowing_calm _ _ _ Hc (Hflow _))).
Qed.

Ltac past :=
  repeat match goal with
  | |- wp (bind (emit _ _ _) _) _ _ _ =>
      eapply flowing_past; [apply calm_emit | intros ? ? ? | eassumption]
  | |- wp (bind (emit_log _ _ _) _) _ _ _ =>
      eapply flowing_past; [apply calm_emit_log | intros ? ? ? | eassumption]
  | |- wp (bind (checkpoint _ _ _) _) _ _ _ =>
      eapply flowing_past; [apply calm_checkpoint | intros ? ? ? | eassumption]
  | |- wp (bind (final _ _ _) _) _ _ _ =>
      eapply flowing_past; [apply calm_final | intros ? ? ? | eassumption]
  | |- wp (bind (markdown _ _ _) _) _ _ _ =>
      eapply flowing_past; [apply calm_markdown | intros ? ? ? | eassumption]
  | |- wp (bind (modify _) _) _ _ _ =>
      eapply flowing_past;
        [apply calm_modify; intro; reflexivity | intros ? ? ? | eassumption]
  | |- wp (bind (lift _) _) _ _ _ =>
      eapply flowing_lift; [intros ? ? | eassumption]
  end.

Lemma flowing_human_review (done : list string) (s : dstate) :
  ~ In "human_review" done -> In "layout" done -> flowing done s ->
  wp (human_review_step run_agent now generate_markdown_report websocket output_dir)
     handed handed' s.
Proof.
  intros Hnew Hfed Hs. unfold human_review_step. past.
  apply wp_bind, wp_get_state.
  match goal with H : flowing done ?s1 |- wp _ _ _ ?s1 =>
    pose proof (proj2 H "layout" Hfed) as Hmade;
    apply (flowing_step "human_review" (db_ready (st s1)) done set_review_report
             (fun result => _)); try assumption
  end.
  - intros result s1 Hp. exact I.
  - intros result s1 n Hn. revert s1. made_goal.
  - intros result s2 H2. past. apply wp_ret.
    match goal with H : flowing _ ?s' |- handed_over (trace ?s') => exact (proj1 H) end.
Qed.

Lemma flowing_layout (done : list string) (s : dstate) :
  ~ In "layout" done -> ~ In "human_review" done -> In "normalization" done ->
  flowing done s ->
  wp (layout_step run_agent now generate_markdown_report websocket output_dir)
     handed handed' s.
Proof.
  intros Hnew Hnext Hfed Hs. unfold layout_step. past.
  apply wp_bind, wp_get_state.
  match goal with H : flowing done ?s1 |- wp _ _ _ ?s1 =>
    pose proof (proj2 H "normalization" Hfed) as Hmade;
    eapply flowing_lift; [intros input Hin | exact H];
    apply (flowing_step "layout" input done set_db_ready (fun result => _));
      try assumption
  end.
  - intros result s1 Hp. exact Hp.
  - intros result s1 n Hn. revert s1. made_goal.
  - intros result s2 H2. past.
    eapply flowing_human_review; [| |eassumption]; cbn; intuition discriminate.
  - eexists. split; [exact Hmade | exact Hin].
Qed.

Lemma flowing_normalization (done : list string) (s : dstate) :
  ~ In "normalization" done -> ~ In "layout" done -> ~ In "human_review" done ->
  In "structuring" done -> flowing done s ->
  wp (normalization_step run_agent now generate_markdown_report websocket output_dir)
     handed handed' s.
Proof.
  intros Hnew Hnext Hlast Hfed Hs. unfold normalization_step. past.
  apply wp_bind, wp_get_state.
  match goal with H : flowing done ?s1 |- wp _ _ _ ?s1 =>
    pose proof (proj2 H "structuring" Hfed) as Hmade;
    eapply flowing_lift; [intros input Hin | exact H];
    apply (flowing_step "normalization" input done set_structured_v1
             (fun result => _)); try assumption
  end.
  - intros result s1 Hp. exact Hp.
  - intros result s1 n Hn. revert s1. made_goal.
  - intros result s2 H2. past.
    eapply flowing_layout; [| | |eassumption]; cbn; intuition discriminate.
  - eexists. split; [exact Hmade | exact Hin].
Qed.

Lemma flowing_structuring (s : dstate) :
  flowing [] s ->
  wp (structuring_step run_agent now generate_markdown_report websocket output_dir)
     handed handed' s.
Proof.
  intros Hs. unfold structuring_step. past.
  apply wp_bind, wp_get_state.
  match goal with H : flowing [] ?s1 |- wp _ _ _ ?s1 =>
    apply (flowing_step "structuring" (raw_text (st s1)) [] set_structured_v0
             (fun result => _)); try assumption; try exact I
  end.
  - intros result s1 Hp. exact Hp.
  - intros result s1 n Hn. revert s1. made_goal.
  - intros [].
  - intros result s2 H2. past.
    eapply flowing_normalization; [| | | |eassumption]; cbn; intuition discriminate.
Qed.

(** X. In a run of the event-driven driver that starts with no invocation
    behind it, every agent is invoked on what the stage before it
    produced: normalization on the [extracted_fields] of the result
    structuring returned with a true success marker, layout on the
    [normalized_data] of such a result of normalization, and human review
    on such a result of layout itself, however the run ends. *)
Theorem run_hands_results_on (x : PipelineState) :
  handed_over
    (trace (snd (run run_agent now generate_markdown_report ocr websocket output_dir
                     stem (start x)))).
Proof.
  assert (Hwp : wp (run run_agent now generate_markdown_report ocr websocket
                        output_dir stem) handed handed' (start x)).
  { assert (Hs : flowing [] (start x)).
    { split; [|intros n []]. intros before name input out after Heq.
      destruct before; discriminate Heq. }
    unfold run. apply wp_catch.
    eapply wp_conseq with (Q := handed) (E := handed'); [|auto|].
    - unfold run_body. past.
      eapply flowing_past; [ | intros b ? ? | eassumption ].
      { unfold _run_ocr_async. destruct ocr; [ | calm_frame | calm_frame ].
        intros s1. split; [reflexivity|]. eexists. split; reflexivity. }
      destruct b; cbn [negb]; past.
      + eapply flowing_past; [ | intros text ? ? | eassumption ].
        { intros s1. unfold read_markdown.
          destruct (fs_read (files s1) _) as [[|]|]; apply calm_refl. }
        past. now apply flowing_structuring.
      + apply wp_ret.
        match goal with
        | H : flowing _ ?s' |- handed_over (trace ?s') => exact (proj1 H)
        end.
    - intros e s1 H1. cbv beta. apply wp_bind.
      apply (wp_respects calm); [apply calm_emit | |].
      + intros [] s2 [_ [evs [Ht Hq]]]. apply wp_ret. rewrite Ht.
        now apply handed_over_quiet.
      + intros e2 s2 [_ [evs [Ht Hq]]]. rewrite Ht. now apply handed_over_quiet. }
  unfold wp in Hwp.
  destruct (run run_agent now generate_markdown_report ocr websocket output_dir stem
                (start x)) as [[e|b] s']; exact Hwp.
Qed.

End EventDriven.

End Handoffs.
